(** * vscode-nls-dev: the XLIFF interchange engine of [src/main.ts]

    A shallow embedding of the translation-resource part of [main.ts]
    (entity escaping, the [XLF] document class, [getResource], the JSON and
    ISL import paths, [getMetadataResources], [prepareJsonFiles] and
    [createIslFile]) together with the properties the specification states
    about it and further properties read off the code.

    Conventions of the embedding.
    - A JavaScript string is a [string]; a character of it stands for one code
      unit.  The three characters the code inspects ([<], [>], [&]) and every
      separator it splits on are ASCII, so nothing below depends on how wider
      characters are cut into units.
    - A JavaScript object used as a dictionary whose enumeration order is
      observable ([XLF.files], the bundle tables) is an association list kept
      in creation order, enumerated the way [for ... in] does; one that is only
      looked up is a [gmap].  Either holds the own properties: a lookup in an
      object that was written as a literal goes on to the members the object
      inherits from [Object.prototype] ([memberOf]); the tables made by
      [Object.create(null)] inherit nothing.
    - [path] is the POSIX flavour of Node's module.
    - A function that can raise carries a [completion]; a function that keeps
      mutating an object before it raises returns the mutated object next to
      the completion.
    - What the code obtains from outside (the file system, [glob], the XML
      parser [xml2js], [iconv]) is an argument of the function that uses it. *)

From Stdlib Require Import Ascii List Arith Lia Bool.
From stdpp Require Import base option list strings gmap.

(* ===================================================================== *)
(** * 1. JavaScript primitives used by [main.ts]                         *)
(* ===================================================================== *)

(** Outcome of a call: it returns, or it raises (the text is the error). *)
Inductive completion (A : Type) : Type :=
  | Normal (a : A)
  | Throw (err : string).
Arguments Normal {A} a.
Arguments Throw {A} err.

(** [s.startsWith(p)]. *)
Fixpoint startsWith (s p : string) {struct p} : bool :=
  match p with
  | EmptyString => true
  | String a p' =>
      match s with
      | EmptyString => false
      | String b s' => Ascii.eqb b a && startsWith s' p'
      end
  end.

(** [s.substr(0, n)] for [n >= 0] and [s.substr(n)]. *)
Fixpoint substr_to (n : nat) (s : string) : string :=
  match n, s with
  | S k, String c s' => String c (substr_to k s')
  | _, _ => EmptyString
  end.

Fixpoint substr_from (n : nat) (s : string) : string :=
  match n, s with
  | S k, String _ s' => substr_from k s'
  | _, _ => s
  end.

(** [s.split(sep)] for a one-character separator: never the empty array. *)
Fixpoint js_split (sep : ascii) (s : string) : list string :=
  match s with
  | EmptyString => [EmptyString]
  | String c s' =>
      if Ascii.eqb c sep then EmptyString :: js_split sep s'
      else match js_split sep s' with
           | hd :: tl => String c hd :: tl
           | [] => [String c EmptyString]
           end
  end.

(** [s.split(sep, limit)]. *)
Definition split_limit (sep : ascii) (limit : nat) (s : string) : list string :=
  firstn limit (js_split sep s).

(** [parts.join(sep)]. *)
Fixpoint js_join (sep : string) (parts : list string) : string :=
  match parts with
  | [] => EmptyString
  | [p] => p
  | p :: rest => p +:+ sep +:+ js_join sep rest
  end.

(** [s.replace(/c/g, d)] for a one-character pattern and replacement. *)
Fixpoint replaceChar (c d : ascii) (s : string) : string :=
  match s with
  | EmptyString => EmptyString
  | String x s' => String (if Ascii.eqb x c then d else x) (replaceChar c d s')
  end.

(** [s.replace(/pat/g, rep)] for a literal, non-empty [pat]: the scan goes left
    to right, a match is replaced and the scan resumes after it ([skip] counts
    the characters of the current match still to be passed over). *)
Fixpoint replaceAll_from (pat rep : string) (skip : nat) (s : string) : string :=
  match s with
  | EmptyString => EmptyString
  | String c s' =>
      match skip with
      | S k => replaceAll_from pat rep k s'
      | O =>
          if startsWith s pat
          then rep +:+ replaceAll_from pat rep (String.length pat - 1) s'
          else String c (replaceAll_from pat rep 0 s')
      end
  end.

Definition replaceAll (pat rep s : string) : string := replaceAll_from pat rep 0 s.

(** [contents.split(/\r\n|\r|\n/)], the constructor of [TextModel]. *)
Definition CR : ascii := "013"%char.
Definition LF : ascii := "010"%char.
Definition CRLF : string := String CR (String LF EmptyString).

Fixpoint splitLines (s : string) : list string :=
  match s with
  | EmptyString => [EmptyString]
  | String c s' =>
      if Ascii.eqb c CR then
        match s' with
        | String d s'' =>
            if Ascii.eqb d LF then EmptyString :: splitLines s''
            else EmptyString :: splitLines s'
        | EmptyString => [EmptyString; EmptyString]
        end
      else if Ascii.eqb c LF then EmptyString :: splitLines s'
      else match splitLines s' with
           | hd :: tl => String c hd :: tl
           | [] => [String c EmptyString]
           end
  end.

(** [s.toLowerCase()] on the ASCII letters (language tags are ASCII). *)
Definition lowerChar (c : ascii) : ascii :=
  let n := nat_of_ascii c in
  if (65 <=? n) && (n <=? 90) then ascii_of_nat (n + 32) else c.

Fixpoint toLowerCase (s : string) : string :=
  match s with
  | EmptyString => EmptyString
  | String c s' => String (lowerChar c) (toLowerCase s')
  end.

(** Truthiness of a string: the empty string is falsy. *)
Definition truthy (s : string) : bool :=
  match s with EmptyString => false | _ => true end.

(* ===================================================================== *)
(** * 2. Entity escaping ([encodeEntities], [decodeEntities])            *)
(* ===================================================================== *)

(** The [switch] of [encodeEntities]: what is pushed for one character. *)
Definition encodeChar (ch : ascii) : string :=
  if Ascii.eqb ch "<" then "&lt;"
  else if Ascii.eqb ch ">" then "&gt;"
  else if Ascii.eqb ch "&" then "&amp;"
  else String ch EmptyString.

Fixpoint encodeEntities (value : string) : string :=
  match value with
  | EmptyString => EmptyString
  | String ch rest => encodeChar ch +:+ encodeEntities rest
  end.

Definition decodeEntities (value : string) : string :=
  replaceAll "&amp;" "&" (replaceAll "&gt;" ">" (replaceAll "&lt;" "<" value)).

(** ** The escaper as a character-wise substitution

    [encodeEntities] writes [encodeChar c] for every character [c]; the three
    passes of [decodeEntities] are followed through the substitutions that
    remain after each of them. *)
Fixpoint encodeWith (f : ascii -> string) (s : string) : string :=
  match s with
  | EmptyString => EmptyString
  | String c rest => f c +:+ encodeWith f rest
  end.

Definition single (c : ascii) : string := String c EmptyString.

(** What is still escaped after the first and after the second pass. *)
Definition afterLt (c : ascii) : string :=
  if Ascii.eqb c ">" then "&gt;" else if Ascii.eqb c "&" then "&amp;" else single c.

Definition afterGt (c : ascii) : string :=
  if Ascii.eqb c "&" then "&amp;" else single c.

(* ===================================================================== *)
(** * 3. Objects used as ordered dictionaries                            *)
(* ===================================================================== *)

(** An object whose properties are enumerated ([for ... in], [Object.keys]):
    the association list of its own properties in creation order.  Assigning
    to an existing property keeps its place. *)
Fixpoint obj_set {V} (k : string) (v : V) (o : list (string * V)) : list (string * V) :=
  match o with
  | [] => [(k, v)]
  | (k', v') :: rest =>
      if String.eqb k' k then (k, v) :: rest else (k', v') :: obj_set k v rest
  end.

Fixpoint obj_get {V} (k : string) (o : list (string * V)) : option V :=
  match o with
  | [] => None
  | (k', v') :: rest => if String.eqb k' k then Some v' else obj_get k rest
  end.

(** Enumeration order: the properties whose name is an array index (the
    canonical decimal form of a number below 2^32 - 1) come first, by
    ascending value; the others follow in creation order. *)
Definition digitValue (c : ascii) : option N :=
  let n := nat_of_ascii c in
  if (48 <=? n) && (n <=? 57) then Some (N.of_nat (n - 48)) else None.

Fixpoint digitsValue (acc : N) (s : string) : option N :=
  match s with
  | EmptyString => Some acc
  | String c s' =>
      match digitValue c with
      | Some d => digitsValue (acc * 10 + d)%N s'
      | None => None
      end
  end.

Definition arrayIndex (k : string) : option N :=
  match k with
  | EmptyString => None
  | String c rest =>
      if Ascii.eqb c "0" && truthy rest then None
      else match digitsValue 0%N k with
           | Some n => if (n <? 4294967295)%N then Some n else None
           | None => None
           end
  end.

Fixpoint insertIndexed {V} (n : N) (kv : string * V) (l : list (N * (string * V)))
  : list (N * (string * V)) :=
  match l with
  | [] => [(n, kv)]
  | (m, kv') :: rest =>
      if (n <? m)%N then (n, kv) :: l else (m, kv') :: insertIndexed n kv rest
  end.

Fixpoint indexedProps {V} (o : list (string * V)) : list (N * (string * V)) :=
  match o with
  | [] => []
  | (k, v) :: rest =>
      match arrayIndex k with
      | Some n => insertIndexed n (k, v) (indexedProps rest)
      | None => indexedProps rest
      end
  end.

Fixpoint namedProps {V} (o : list (string * V)) : list (string * V) :=
  match o with
  | [] => []
  | (k, v) :: rest =>
      match arrayIndex k with
      | Some _ => namedProps rest
      | None => (k, v) :: namedProps rest
      end
  end.

Definition for_in {V} (o : list (string * V)) : list (string * V) :=
  map snd (indexedProps o) ++ namedProps o.

(** ** Objects written as a literal

    An object written [{}] or [{ ... }] inherits the members of
    [Object.prototype]: a lookup [o[k]] that finds no own property [k] finds
    the inherited member when [k] is one of the names below.  The inherited
    members are functions, except [__proto__], an accessor that gives
    [Object.prototype] itself; every one of them is truthy. *)
Definition objectPrototype : list string :=
  ["constructor"; "__defineGetter__"; "__defineSetter__"; "hasOwnProperty";
   "__lookupGetter__"; "__lookupSetter__"; "isPrototypeOf"; "propertyIsEnumerable";
   "toString"; "valueOf"; "__proto__"; "toLocaleString"].

Definition inherited (k : string) : bool := existsb (String.eqb k) objectPrototype.

(** What a lookup finds: an own property, or an inherited member. *)
Inductive Member (V : Type) : Type :=
  | Own (v : V)
  | Inherited (name : string).
Arguments Own {V} v.
Arguments Inherited {V} name.

(** [o[k]], where [own] is what the own properties hold for [k]; [None]
    stands for [undefined]. *)
Definition memberOf {V} (own : option V) (k : string) : option (Member V) :=
  match own with
  | Some v => Some (Own v)
  | None => if inherited k then Some (Inherited k) else None
  end.

(** [if (o[k])], for own values whose truthiness is [t]. *)
Definition memberTruthy {V} (t : V -> bool) (m : option (Member V)) : bool :=
  match m with
  | Some (Own v) => t v
  | Some (Inherited _) => true
  | None => false
  end.

(** The string of an inherited member, as a template literal or a property
    name takes it: the source text V8 gives for a built-in function, and
    [[object Object]] for [Object.prototype]. *)
Definition nativeText (name : string) : string :=
  if String.eqb name "__proto__" then "[object Object]"
  else "function " +:+ (if String.eqb name "constructor" then "Object" else name) +:+
       "() { [native code] }".

(** [${o[k]}] for a table of strings. *)
Definition interpolate (v : option (Member string)) : string :=
  match v with
  | Some (Own s) => s
  | Some (Inherited name) => nativeText name
  | None => "undefined"
  end.

(** [o[k] = v] for a string [v] on an object written as [{}]: the setter of
    [__proto__] ignores a value that is not an object, any other name becomes
    an own property. *)
Definition plain_set (k v : string) (o : gmap string string) : gmap string string :=
  if String.eqb k "__proto__" then o else <[k := v]> o.

(* ===================================================================== *)
(** * 4. The [XLF] document class                                        *)
(* ===================================================================== *)

Record Item := { item_id : string; item_message : string; item_comment : option string }.

Record LocalizeInfo := { li_key : string; li_comment : option (list string) }.

(** A member of [keys]: a plain string, or a [LocalizeInfo] object.  An object
    carries its identity [ref]: [indexOf] compares with [===], which on
    objects is identity (the objects of one parsed JSON text are pairwise
    distinct). *)
Inductive Key :=
  | KeyString (s : string)
  | KeyInfo (ref : nat) (info : LocalizeInfo).

Definition strictEq (a b : Key) : bool :=
  match a, b with
  | KeyString s, KeyString t => String.eqb s t
  | KeyInfo r _, KeyInfo r' _ => Nat.eqb r r'
  | _, _ => false
  end.

(** [arr.indexOf(key)]: [None] stands for [-1]. *)
Fixpoint indexOf (arr : list Key) (key : Key) : option nat :=
  match arr with
  | [] => None
  | k :: rest =>
      if strictEq k key then Some 0
      else match indexOf rest key with Some i => Some (S i) | None => None end
  end.

Record XLF := {
  project : string;
  buffer : list string;
  files : list (string * list Item)
}.

(** [new XLF(project)]. *)
Definition newXLF (project : string) : XLF :=
  {| project := project; buffer := []; files := [] |}.

(** [new Line(indent).append(content).toString()]. *)
Fixpoint spaces (n : nat) : string :=
  match n with O => EmptyString | S k => String " " (spaces k) end.

Definition Line (indent : nat) (content : string) : string :=
  spaces indent +:+ content.

Definition appendNewLine (content : string) (indent : nat) (x : XLF) : XLF :=
  {| project := project x;
     buffer := buffer x ++ [Line indent content];
     files := files x |}.

(** The double quote, for the attribute values of the templates below. *)
Definition dq : string := String "034"%char EmptyString.

Definition appendHeader (x : XLF) : XLF :=
  appendNewLine
    ("<xliff version=" +:+ dq +:+ "1.2" +:+ dq +:+ " xmlns=" +:+ dq +:+
     "urn:oasis:names:tc:xliff:document:1.2" +:+ dq +:+ ">") 0
    (appendNewLine
       ("<?xml version=" +:+ dq +:+ "1.0" +:+ dq +:+ " encoding=" +:+ dq +:+
        "utf-8" +:+ dq +:+ "?>") 0 x).

Definition appendFooter (x : XLF) : XLF := appendNewLine "</xliff>" 0 x.

(** [if (item.comment)]: [undefined] and the empty string are falsy. *)
Definition commentOf (item : Item) : option string :=
  match item_comment item with
  | Some c => if truthy c then Some c else None
  | None => None
  end.

Definition addStringItem (item : Item) (x : XLF) : XLF :=
  let x1 := appendNewLine ("<trans-unit id=" +:+ dq +:+ item_id item +:+ dq +:+ ">") 4 x in
  let x2 :=
    appendNewLine ("<source xml:lang=" +:+ dq +:+ "en" +:+ dq +:+ ">" +:+
                   item_message item +:+ "</source>") 6 x1 in
  let x3 :=
    match commentOf item with
    | Some c => appendNewLine ("<note>" +:+ c +:+ "</note>") 6 x2
    | None => x2
    end in
  appendNewLine "</trans-unit>" 4 x3.

Definition appendFile (entry : string * list Item) (x : XLF) : XLF :=
  let x1 :=
    appendNewLine ("<file original=" +:+ dq +:+ fst entry +:+ dq +:+
                   " source-language=" +:+ dq +:+ "en" +:+ dq +:+
                   " datatype=" +:+ dq +:+ "plaintext" +:+ dq +:+ "><body>") 2 x in
  let x2 := fold_left (fun acc item => addStringItem item acc) (snd entry) x1 in
  appendNewLine "</body></file>" 2 x2.

(** [toString()]: the lines are pushed onto the instance's [buffer], which is
    created by the constructor and never emptied; the result is the whole
    buffer joined.  The document after the call is returned with the text. *)
Definition toString (x : XLF) : string * XLF :=
  let x1 := appendHeader x in
  let x2 := fold_left (fun acc entry => appendFile entry acc) (for_in (files x1)) x1 in
  let x3 := appendFooter x2 in
  (js_join CRLF (buffer x3), x3).

(** [addFile(original, keys, messages)].  [messages[i]] past the end of
    [messages] is [undefined], and [encodeEntities(undefined)] raises at
    [value.length]. *)
Definition typeErrorLength : string :=
  "TypeError: Cannot read property 'length' of undefined".

Definition itemOf (key : Key) (message : string) : Item :=
  match key with
  | KeyString s => {| item_id := s; item_message := message; item_comment := None |}
  | KeyInfo _ info =>
      {| item_id := li_key info;
         item_message := message;
         item_comment :=
           match li_comment info with
           | Some (c :: cs) => Some (js_join CRLF (map encodeEntities (c :: cs)))
           | _ => None
           end |}
  end.

(** The [for (let key of keys)] loop: [todo] is what is left of [keys],
    [existingKeys] and [items] are the two arrays being filled.  The items
    pushed before a raise stay in the document. *)
Fixpoint addFile_loop (keys : list Key) (messages : list string)
    (todo : list Key) (existingKeys : list Key) (items : list Item)
  : list Item * completion unit :=
  match todo with
  | [] => (items, Normal tt)
  | key :: rest =>
      match indexOf existingKeys key with
      | Some _ => addFile_loop keys messages rest existingKeys items
      | None =>
          match indexOf keys key ≫= (fun i => messages !! i) with
          | Some m =>
              addFile_loop keys messages rest (existingKeys ++ [key])
                (items ++ [itemOf key (encodeEntities m)])
          | None => (items, Throw typeErrorLength)
          end
      end
  end.

Definition addFile (original : string) (keys : list Key) (messages : list string)
    (x : XLF) : XLF * completion unit :=
  let '(items, c) := addFile_loop keys messages keys [] [] in
  ({| project := project x;
      buffer := buffer x;
      files := obj_set original items (files x) |}, c).

(* ===================================================================== *)
(** * 5. Resource classification ([getResource])                         *)
(* ===================================================================== *)

Record Resource := { name : string; res_project : string }.

Definition editorProject : string := "vscode-editor".
Definition workbenchProject : string := "vscode-workbench".

Definition getResource (sourceFile : string) : completion Resource :=
  if startsWith sourceFile "vs/platform" then
    Normal {| name := "vs/platform"; res_project := editorProject |}
  else if startsWith sourceFile "vs/editor/contrib" then
    Normal {| name := "vs/editor/contrib"; res_project := editorProject |}
  else if startsWith sourceFile "vs/editor" then
    Normal {| name := "vs/editor"; res_project := editorProject |}
  else if startsWith sourceFile "vs/base" then
    Normal {| name := "vs/base"; res_project := editorProject |}
  else if startsWith sourceFile "vs/code" then
    Normal {| name := "vs/code"; res_project := workbenchProject |}
  else if startsWith sourceFile "vs/workbench/parts" then
    Normal {| name := js_join "/" (split_limit "/" 4 sourceFile);
              res_project := workbenchProject |}
  else if startsWith sourceFile "vs/workbench/services" then
    Normal {| name := js_join "/" (split_limit "/" 4 sourceFile);
              res_project := workbenchProject |}
  else if startsWith sourceFile "vs/workbench" then
    Normal {| name := "vs/workbench"; res_project := workbenchProject |}
  else Throw ("Could not identify the XLF bundle for " +:+ sourceFile).

(* ===================================================================== *)
(** * 6. The import paths of [prepareXlfFiles]                           *)
(* ===================================================================== *)

(** A vinyl [File] as the stream receives it: its path and the text held by
    its buffer. *)
Record File := { path : string; contents : string }.

(** What a call does to the outside: a line given to [log], or a file given
    to [stream.emit('data', ...)]. *)
Inductive Event :=
  | Log (label text : string)
  | Emit (f : File).

Definition mismatchMessage (relative : string) : string :=
  "There is a mismatch between keys and messages in " +:+ relative.

(** ** The functions of [path]

    [normalizeArray]: the segments of a path taken from left to right; an
    empty segment and [.] are passed over, [..] takes back the segment before
    it, or stays when there is none to take back and the path is relative.
    [stack] holds the segments kept so far, the last one first. *)
Fixpoint normalizeArray (allowAboveRoot : bool) (parts : list string) (stack : list string)
  : list string :=
  match parts with
  | [] => rev stack
  | part :: rest =>
      if negb (truthy part) || String.eqb part "." then
        normalizeArray allowAboveRoot rest stack
      else if String.eqb part ".." then
        match stack with
        | top :: below =>
            if String.eqb top ".." then
              normalizeArray allowAboveRoot rest
                (if allowAboveRoot then ".." :: stack else stack)
            else normalizeArray allowAboveRoot rest below
        | [] =>
            normalizeArray allowAboveRoot rest (if allowAboveRoot then [".."] else [])
        end
      else normalizeArray allowAboveRoot rest (part :: stack)
  end.

Fixpoint endsWithSlash (p : string) : bool :=
  match p with
  | EmptyString => false
  | String c EmptyString => Ascii.eqb c "/"
  | String _ rest => endsWithSlash rest
  end.

(** [path.normalize(p)]. *)
Definition normalize (p : string) : string :=
  let isAbsolute := startsWith p "/" in
  let body := js_join "/" (normalizeArray (negb isAbsolute) (js_split "/" p) []) in
  let body1 := if negb (truthy body) && negb isAbsolute then "." else body in
  let body2 := if truthy body1 && endsWithSlash p then body1 +:+ "/" else body1 in
  if isAbsolute then "/" +:+ body2 else body2.

(** [path.join(...parts)]: the non-empty arguments, joined by a slash and
    normalized; the path [.] when that is empty. *)
Definition pathJoin (parts : list string) : string :=
  normalize (js_join "/" (List.filter truthy parts)).

Definition path_join (a b : string) : string := pathJoin [a; b].

(** The segments of a path from the last one on, without the empty ones that
    trailing slashes make. *)
Fixpoint dropEmpty (segments : list string) : list string :=
  match segments with
  | EmptyString :: rest => dropEmpty rest
  | _ => segments
  end.

(** [path.basename(p)]: the last segment, trailing slashes left aside. *)
Definition basename (p : string) : string :=
  match dropEmpty (rev (js_split "/" p)) with
  | base :: _ => base
  | [] => EmptyString
  end.

(** [path.dirname(p)]: what stands before the slash in front of the last
    segment; [.] when no slash stands there, [/] when only the first
    character does. *)
Definition dirname (p : string) : string :=
  match p with
  | EmptyString => "."
  | _ =>
      match dropEmpty (rev (js_split "/" p)) with
      | [] => "/"
      | _ :: before =>
          match rev before with
          | [] => "."
          | [EmptyString] => "/"
          | [EmptyString; EmptyString] => "//"
          | segments => js_join "/" segments
          end
      end
  end.

(** ** [importBundleJson] *)

Record BundledFormat := {
  bf_keys : list (string * list Key);
  bf_messages : list (string * list string)
}.

(** The first loop, over [json.keys]: [bundleXlfs] is the local table of
    documents, [evs] what has been logged so far. *)
Fixpoint importBundleJson_sources (relative : string) (json : BundledFormat)
    (sources : list (string * list Key))
    (bundleXlfs : list (string * XLF)) (evs : list Event)
  : list (string * XLF) * list Event * completion unit :=
  match sources with
  | [] => (bundleXlfs, evs, Normal tt)
  | (source, keys) :: rest =>
      match getResource source with
      | Throw e => (bundleXlfs, evs, Throw e)
      | Normal projectResource =>
          let resource := name projectResource in
          match obj_get source (bf_messages json) with
          | None => (bundleXlfs, evs, Throw typeErrorLength)
          | Some messages =>
              let evs1 :=
                if Nat.eqb (length keys) (length messages) then evs
                else evs ++ [Log "Error:" (mismatchMessage relative)] in
              let xlf :=
                match obj_get resource bundleXlfs with
                | Some x => x
                | None => newXLF (res_project projectResource)
                end in
              let '(xlf1, c) := addFile source keys messages xlf in
              let bundleXlfs1 := obj_set resource xlf1 bundleXlfs in
              match c with
              | Throw e => (bundleXlfs1, evs1, Throw e)
              | Normal _ =>
                  importBundleJson_sources relative json rest bundleXlfs1 evs1
              end
          end
      end
  end.

(** The second loop: one file per document of the table. *)
Definition bundleXlfFile (entry : string * XLF) : File :=
  {| path := project (snd entry) +:+ "/" +:+
             replaceChar "/" "_" (fst entry) +:+ ".xlf";
     contents := fst (toString (snd entry)) |}.

Definition importBundleJson (relative : string) (json : BundledFormat)
  : list Event * completion unit :=
  let '(bundleXlfs, evs, c) :=
    importBundleJson_sources relative json (for_in (bf_keys json)) [] [] in
  match c with
  | Throw e => (evs, Throw e)
  | Normal _ =>
      (evs ++ map (fun entry => Emit (bundleXlfFile entry)) (for_in bundleXlfs),
       Normal tt)
  end.

(** ** [importModuleOrPackageJson] *)

Record ValueFormat := { vf_message : string; vf_comment : list string }.

Inductive PackageValue :=
  | PString (s : string)
  | PValue (v : ValueFormat).

Inductive Json :=
  | ModuleJson (keys : list Key) (messages : list string)
  | PackageJson (entries : list (string * PackageValue)).

(** [json[key].toString()] on a package entry. *)
Definition packageValueToString (v : PackageValue) : string :=
  match v with
  | PString s => s
  | PValue _ => "[object Object]"
  end.

(** One entry of the module-level table [extensions]. *)
Record Extension := { xlf : XLF; processed : nat }.

Definition nlsJsonLength : nat := String.length ".nls.json".

(** The name of the aggregation group, the glob pattern whose matches are
    counted, and the [original] path, as the [if (extensionName)] computes
    them. *)
Definition stripNlsJson (formattedSourcePath : string) : string :=
  substr_to (String.length formattedSourcePath - nlsJsonLength) formattedSourcePath.

Definition groupOf (relative : string) (extensionName : option string)
  : string * string * string :=
  let formattedSourcePath := replaceChar "\" "/" relative in
  match extensionName with
  | Some (String c r) =>
      (String c r, "**/*.nls.json", stripNlsJson formattedSourcePath)
  | _ =>
      let extName :=
        match js_split "/" formattedSourcePath with
        | first :: _ => first
        | [] => EmptyString
        end in
      (extName,
       "./extensions/" +:+ extName +:+ "/**/*.nls.json",
       "extensions/" +:+ stripNlsJson formattedSourcePath)
  end.

(** [glob] gives the number of matches [glob.sync(pattern).length] finds on
    the file system at the time of the call; [extensions] is the table before
    the call, and the table after it is returned with what the call logged
    and emitted. *)
Definition importModuleOrPackageJson (glob : string -> nat)
    (relative : string) (json : Json) (projectName : string)
    (extensionName : option string) (extensions : gmap string Extension)
  : gmap string Extension * list Event * completion unit :=
  let evs :=
    match json with
    | ModuleJson keys messages =>
        if Nat.eqb (length keys) (length messages) then []
        else [Log "Error:" (mismatchMessage relative)]
    | PackageJson _ => []
    end in
  let '(extName, pattern, originalFilePath) := groupOf relative extensionName in
  let localizationFilesCount := glob pattern in
  let extension :=
    match extensions !! extName with
    | Some e => e
    | None => {| xlf := newXLF projectName; processed := 0 |}
    end in
  let '(xlf1, c) :=
    match json with
    | ModuleJson keys messages => addFile originalFilePath keys messages (xlf extension)
    | PackageJson entries =>
        addFile originalFilePath
          (map (fun kv => KeyString (fst kv)) (for_in entries))
          (map (fun kv => packageValueToString (snd kv)) (for_in entries))
          (xlf extension)
    end in
  match c with
  | Throw e =>
      (<[extName := {| xlf := xlf1; processed := processed extension |}]> extensions,
       evs, Throw e)
  | Normal _ =>
      let count := S (processed extension) in
      if Nat.eqb count localizationFilesCount then
        let '(text, xlf2) := toString xlf1 in
        (<[extName := {| xlf := xlf2; processed := count |}]> extensions,
         evs ++ [Emit {| path := path_join projectName (extName +:+ ".xlf");
                         contents := text |}],
         Normal tt)
      else
        (<[extName := {| xlf := xlf1; processed := count |}]> extensions,
         evs, Normal tt)
  end.

(* ===================================================================== *)
(** * 7. [XLF.parse]                                                     *)
(* ===================================================================== *)

(** What [xml2js] hands to the callback of [parseString]: an error, or the
    object built from the XML text.  Only the parts [XLF.parse] reads are
    kept.  An element's attributes sit under [$] (absent when it has none);
    its children sit in one array per tag name (absent when it has none of
    that name); a child with text only is that text, any other child is an
    object. *)
Inductive XmlChild :=
  | TextChild (text : string)
  | ObjectChild.

Record TransUnitNode := {
  unit_attrs : option (gmap string string);      (* unit.$ *)
  unit_target : option (list XmlChild)           (* unit.target *)
}.

(** [file.body[i]]: its ['trans-unit'] array, [None] when the body has no
    such child (then [xml2js] gives a string or an object without it). *)
Record BodyNode := { body_trans_unit : option (list TransUnitNode) }.

Record FileNode := {
  file_attrs : option (gmap string string);      (* file.$ *)
  file_body : option (list BodyNode)             (* file.body *)
}.

Record XliffNode := { xliff_file : option (list FileNode) }.

Record XmlResult := { result_xliff : option XliffNode }.

Record ParsedFile := {
  messages : gmap string string;
  originalFilePath : string;
  language : string
}.

(** How the callback leaves the promise of [XLF.parse]: resolved with the
    files, rejected by a call of [reject], or neither because the callback
    raised before any call of [reject] or [resolve] (what becomes of the
    exception is up to [xml2js], which called the callback).  A promise is
    settled by the first call only, so the walk stops at the first
    [reject]. *)
Inductive ParseOutcome :=
  | Resolved (parsed : list ParsedFile)
  | Rejected (reason : string)
  | Raised (err : string).

Inductive Stop :=
  | StopReject (reason : string)
  | StopRaise (err : string).

Definition typeErrorUndefined : string :=
  "TypeError: Cannot read property of undefined".

Definition rejectNoFileNodes : string :=
  "XLIFF file does not contain " +:+ dq +:+ "xliff" +:+ dq +:+ " or " +:+ dq +:+
  "file" +:+ dq +:+ " node(s) required for parsing.".
Definition rejectNoOriginal : string :=
  "XLIFF file node does not contain original attribute to determine the original location of the resource file.".
Definition rejectNoLanguage : string :=
  "XLIFF file node does not contain target-language attribute to determine translated language.".
Definition rejectNoData : string :=
  "XLIFF file does not contain full localization data. ID or target translation for one of the trans-unit nodes is not present.".

(** [child.toString()] and [unit.target.toString()] (an array joins the
    strings of its members with a comma). *)
Definition childToString (c : XmlChild) : string :=
  match c with
  | TextChild text => text
  | ObjectChild => "[object Object]"
  end.

Definition targetToString (target : list XmlChild) : string :=
  js_join "," (map childToString target).

(** The body of [transUnits.forEach]; [messages] was written as [{}]. *)
Definition parseUnit (msgs : gmap string string) (unit : TransUnitNode)
  : Stop + gmap string string :=
  match unit_attrs unit with
  | None => inl (StopRaise typeErrorUndefined)
  | Some attrs =>
      match unit_target unit with
      | None => inr msgs
      | Some target =>
          let val := targetToString target in
          match attrs !! "id" with
          | Some key =>
              if truthy key && truthy val
              then inr (plain_set key (decodeEntities val) msgs)
              else inl (StopReject rejectNoData)
          | None => inl (StopReject rejectNoData)
          end
      end
  end.

Fixpoint parseUnits (msgs : gmap string string) (units : list TransUnitNode)
  : Stop + gmap string string :=
  match units with
  | [] => inr msgs
  | unit :: rest =>
      match parseUnit msgs unit with
      | inl stop => inl stop
      | inr msgs1 => parseUnits msgs1 rest
      end
  end.

(** The body of [fileNodes.forEach]. *)
Definition parseFile (file : FileNode) : Stop + ParsedFile :=
  match file_attrs file with
  | None => inl (StopRaise typeErrorUndefined)
  | Some attrs =>
      match attrs !! "original" with
      | None | Some EmptyString => inl (StopReject rejectNoOriginal)
      | Some original =>
          match attrs !! "target-language" with
          | None => inl (StopRaise typeErrorUndefined)
          | Some lang =>
              if truthy (toLowerCase lang) then
                match file_body file with
                | Some ({| body_trans_unit := Some transUnits |} :: _) =>
                    match parseUnits ∅ transUnits with
                    | inl stop => inl stop
                    | inr msgs =>
                        inr {| messages := msgs;
                               originalFilePath := original;
                               language := toLowerCase lang |}
                    end
                | _ => inl (StopRaise typeErrorUndefined)
                end
              else inl (StopReject rejectNoLanguage)
          end
      end
  end.

Fixpoint parseFiles (fileNodes : list FileNode) : Stop + list ParsedFile :=
  match fileNodes with
  | [] => inr []
  | file :: rest =>
      match parseFile file with
      | inl stop => inl stop
      | inr f =>
          match parseFiles rest with
          | inl stop => inl stop
          | inr fs => inr (f :: fs)
          end
      end
  end.

(** The callback given to [parser.parseString]. *)
Definition parseCallback (err : option string) (result : option XmlResult)
  : ParseOutcome :=
  match err with
  | Some e => Rejected ("Failed to parse XLIFF string. " +:+ e)
  | None =>
      match result with
      | None => Raised typeErrorUndefined
      | Some r =>
          match result_xliff r with
          | None => Raised typeErrorUndefined
          | Some xliff =>
              match xliff_file xliff with
              | None => Rejected rejectNoFileNodes
              | Some fileNodes =>
                  match parseFiles fileNodes with
                  | inl (StopReject reason) => Rejected reason
                  | inl (StopRaise e) => Raised e
                  | inr parsed => Resolved parsed
                  end
              end
          end
      end
  end.


(* ===================================================================== *)
(** * 8. [createIslFile]                                                 *)
(* ===================================================================== *)

Definition iso639_3_to_2 : list (string * string) :=
  [("chs", "zh-cn"); ("cht", "zh-tw"); ("csy", "cs-cz"); ("deu", "de");
   ("enu", "en"); ("esn", "es"); ("fra", "fr"); ("hun", "hu"); ("ita", "it");
   ("jpn", "ja"); ("kor", "ko"); ("nld", "nl"); ("plk", "pl"); ("ptb", "pt-br");
   ("ptg", "pt"); ("rus", "ru"); ("sve", "sv-se"); ("trk", "tr")].

Definition languageNames : list (string * string) :=
  [("chs", "Simplified Chinese"); ("cht", "Traditional Chinese"); ("kor", "Korean")].

Definition languageIds : list (string * string) :=
  [("chs", "$0804"); ("cht", "$0404"); ("kor", "$0412")].

Definition encodings : list (string * string) :=
  [("chs", "CP936"); ("cht", "CP950"); ("jpn", "CP932"); ("kor", "CP949");
   ("deu", "CP1252"); ("fra", "CP1252"); ("esn", "CP1252"); ("rus", "CP1251");
   ("ita", "CP1252")].

(** [encodings[language].substr(2)] when the entry is an inherited member,
    which has no [substr]. *)
Definition typeErrorNotAFunction : string :=
  "TypeError: encodings[language].substr is not a function".

Definition englishBanner : string :=
  "; *** Inno Setup version 5.5.3+ English messages ***".

(** The body of [originalContent.lines.forEach]: the line pushed onto
    [content] for one template line, if any.  The three tables and
    [messages] are objects written as literals. *)
Definition islLine (msgs : gmap string string) (language : string) (line : string)
  : completion (option string) :=
  match line with
  | EmptyString => Normal None
  | String firstChar _ =>
      if Ascii.eqb firstChar "[" || Ascii.eqb firstChar ";" then
        if String.eqb line englishBanner then
          Normal (Some ("; *** Inno Setup version 5.5.3+ " +:+
                        interpolate (memberOf (obj_get language languageNames) language) +:+
                        " messages ***"))
        else Normal (Some line)
      else
        let key := match js_split "=" line with k :: _ => k | [] => EmptyString end in
        if truthy key then
          if String.eqb key "LanguageName" then
            Normal (Some (key +:+ "=" +:+
                          interpolate (memberOf (obj_get language languageNames) language)))
          else if String.eqb key "LanguageID" then
            Normal (Some (key +:+ "=" +:+
                          interpolate (memberOf (obj_get language languageIds) language)))
          else if String.eqb key "LanguageCodePage" then
            match memberOf (obj_get language encodings) language with
            | Some (Own enc) => Normal (Some (key +:+ "=" +:+ substr_from 2 enc))
            | Some (Inherited _) => Throw typeErrorNotAFunction
            | None => Throw typeErrorUndefined
            end
          else
            let translatedMessage := memberOf (msgs !! key) key in
            if memberTruthy truthy translatedMessage
            then Normal (Some (key +:+ "=" +:+ interpolate translatedMessage))
            else Normal (Some line)
        else Normal (Some line)
  end.

Fixpoint islLines (msgs : gmap string string) (language : string)
    (lines : list string) (content : list string) : completion (list string) :=
  match lines with
  | [] => Normal content
  | line :: rest =>
      match islLine msgs language line with
      | Throw e => Throw e
      | Normal (Some out) => islLines msgs language rest (content ++ [out])
      | Normal None => islLines msgs language rest content
      end
  end.

(** [createIslFile(base, originalFilePath, messages, language)].
    [readFileSync] gives the text of a template file and [iconvEncode] the
    encoding of a text into a code page, named by what [encodings[language]]
    gives; the file that is returned holds what [iconvEncode] returned.
    [language] is used as a property name only. *)
Definition createIslFile (readFileSync : string -> completion string)
    (iconvEncode : string -> option (Member string) -> completion string)
    (base originalFilePath : string) (msgs : gmap string string)
    (language : string) : completion File :=
  let template :=
    if String.eqb (basename originalFilePath) "Default"
    then readFileSync (originalFilePath +:+ ".isl")
    else readFileSync (originalFilePath +:+ ".en.isl") in
  match template with
  | Throw e => Throw e
  | Normal text =>
      match islLines msgs language (splitLines text) [] with
      | Throw e => Throw e
      | Normal content =>
          let tag := interpolate (memberOf (obj_get language iso639_3_to_2) language) in
          let filePath :=
            pathJoin [base; dirname originalFilePath; basename originalFilePath] +:+
            "." +:+ tag +:+ ".isl" in
          match iconvEncode (js_join CRLF content)
                  (memberOf (obj_get language encodings) language) with
          | Throw e => Throw e
          | Normal bytes => Normal {| path := filePath; contents := bytes |}
          end
      end
  end.

(* ===================================================================== *)
(** * 9. Auxiliary notions used to state the properties                  *)
(* ===================================================================== *)

(** ** Entity escaping *)

(** A character is escaped when [encodeEntities] does not leave it as it
    is. *)
Definition escaped (c : ascii) : Prop := encodeEntities (single c) <> single c.

(** The specification's reading of the escaper: four different characters
    are escaped. *)
Definition escapesFourCharacters : Prop :=
  exists c1 c2 c3 c4 : ascii,
    NoDup [c1; c2; c3; c4] /\ escaped c1 /\ escaped c2 /\ escaped c3 /\ escaped c4.

Definition isSpecial (c : ascii) : bool :=
  Ascii.eqb c "<" || Ascii.eqb c ">" || Ascii.eqb c "&".

(** ** Serialization *)

(** The lines one call of [toString] pushes for an item, for a file and for
    a whole table of files. *)
Definition itemLines (item : Item) : list string :=
  [Line 4 ("<trans-unit id=" +:+ dq +:+ item_id item +:+ dq +:+ ">");
   Line 6 ("<source xml:lang=" +:+ dq +:+ "en" +:+ dq +:+ ">" +:+
           item_message item +:+ "</source>")] ++
  match commentOf item with
  | Some c => [Line 6 ("<note>" +:+ c +:+ "</note>")]
  | None => []
  end ++
  [Line 4 "</trans-unit>"].

Definition fileLines (entry : string * list Item) : list string :=
  [Line 2 ("<file original=" +:+ dq +:+ fst entry +:+ dq +:+
           " source-language=" +:+ dq +:+ "en" +:+ dq +:+
           " datatype=" +:+ dq +:+ "plaintext" +:+ dq +:+ "><body>")] ++
  concat (map itemLines (snd entry)) ++
  [Line 2 "</body></file>"].

Definition documentLines (fs : list (string * list Item)) : list string :=
  [Line 0 ("<?xml version=" +:+ dq +:+ "1.0" +:+ dq +:+ " encoding=" +:+ dq +:+
           "utf-8" +:+ dq +:+ "?>");
   Line 0 ("<xliff version=" +:+ dq +:+ "1.2" +:+ dq +:+ " xmlns=" +:+ dq +:+
           "urn:oasis:names:tc:xliff:document:1.2" +:+ dq +:+ ">")] ++
  concat (map fileLines (for_in fs)) ++
  [Line 0 "</xliff>"].

(** The document with another buffer. *)
Definition withBuffer (x : XLF) (b : list string) : XLF :=
  {| project := project x; buffer := b; files := files x |}.

(** ** Adding a file *)

(** The document with another table of files. *)
Definition withFiles (x : XLF) (fs : list (string * list Item)) : XLF :=
  {| project := project x; buffer := buffer x; files := fs |}.

(** [item] was made from the first place at which its id occurs in [ks],
    with the message found at that place in [ms]. *)
Definition firstOccurrence (ks : list string) (ms : list string) (item : Item) : Prop :=
  exists (i : nat) (m : string),
    ks !! i = Some (item_id item) /\
    (forall j, j < i -> ks !! j <> Some (item_id item)) /\
    ms !! i = Some m /\
    item_message item = encodeEntities m /\
    item_comment item = None.

(** What the loop of [addFile] has stored once it has gone through the part
    [pre] of the plain-string keys [ks]. *)
Record stored (ks ms pre : list string) (items : list Item) : Prop := {
  stored_nodup : NoDup (map item_id items);
  stored_ids : forall k, k ∈ map item_id items <-> k ∈ pre;
  stored_first : Forall (firstOccurrence ks ms) items
}.

(** Two bundles whose key and message arrays differ in length. *)
Definition mismatchedBundle : BundledFormat :=
  {| bf_keys := [("vs/base/a", [KeyString "a"; KeyString "b"])];
     bf_messages := [("vs/base/a", ["m"])] |}.

Definition longMessagesBundle : BundledFormat :=
  {| bf_keys := [("vs/base/a", [KeyString "a"])];
     bf_messages := [("vs/base/a", ["m1"; "m2"])] |}.

(** ** ISL lines *)

(** [s] holds no [c]. *)
Fixpoint freeOf (c : ascii) (s : string) : bool :=
  match s with
  | EmptyString => true
  | String d rest => negb (Ascii.eqb d c) && freeOf c rest
  end.

(** The key of a message line: not empty, not the start of a comment or of a
    section header, without [=], and none of the three locale keys. *)
Definition messageKey (key : string) : bool :=
  match key with
  | EmptyString => false
  | String c _ => negb (Ascii.eqb c "[" || Ascii.eqb c ";")
  end &&
  freeOf "=" key &&
  negb (String.eqb key "LanguageName") &&
  negb (String.eqb key "LanguageID") &&
  negb (String.eqb key "LanguageCodePage").

(** A small template, a file system that holds it, and an encoder that
    leaves the text as it is. *)
Definition koreanTemplate : string :=
  "; *** Inno Setup version 5.5.3+ English messages ***" +:+ String LF
  ("[LangOptions]" +:+ String LF
  ("LanguageName=English" +:+ String LF
  ("LanguageID=$0409" +:+ String LF
  ("LanguageCodePage=0" +:+ String LF
  (EmptyString +:+ String LF
  ("[Messages]" +:+ String LF
  ("SetupAppTitle=Setup" +:+ String LF
  "SetupWindowTitle=Setup - %1"))))))).

Definition readTemplate (p : string) : completion string :=
  if String.eqb p "build/win32/i18n/messages.en.isl" then Normal koreanTemplate
  else Throw "ENOENT".

Definition keepText (text : string) (encoding : option (Member string))
  : completion string :=
  match encoding with
  | Some (Own _) => Normal text
  | _ => Throw "Encoding not recognized"
  end.

(** ** Classification *)

Definition knownPrefixes : list string :=
  ["vs/platform"; "vs/editor/contrib"; "vs/editor"; "vs/base"; "vs/code";
   "vs/workbench/parts"; "vs/workbench/services"; "vs/workbench"].

Definition knownPrefix (sourceFile : string) : bool :=
  existsb (startsWith sourceFile) knownPrefixes.

(** ** Aggregation *)

(** One file arriving at [prepareXlfFiles] on the module/package path: the
    arguments of the call of [importModuleOrPackageJson], with the state of
    the file system ([glob]) at that time. *)
Record Contribution := {
  c_glob : string -> nat;
  c_relative : string;
  c_json : Json;
  c_projectName : string;
  c_extensionName : option string
}.

Definition contribute (c : Contribution) (extensions : gmap string Extension)
  : gmap string Extension * list Event * completion unit :=
  importModuleOrPackageJson (c_glob c) (c_relative c) (c_json c)
    (c_projectName c) (c_extensionName c) extensions.

(** The files of a stream handled one after the other; the result lists what
    each call logged and emitted.  A call that raises ends the run. *)
Fixpoint feed (calls : list Contribution) (extensions : gmap string Extension)
  : gmap string Extension * list (list Event) * completion unit :=
  match calls with
  | [] => (extensions, [], Normal tt)
  | c :: rest =>
      let '(extensions1, evs, r) := contribute c extensions in
      match r with
      | Throw e => (extensions1, [evs], Throw e)
      | Normal _ =>
          let '(extensions2, out, r2) := feed rest extensions1 in
          (extensions2, evs :: out, r2)
      end
  end.

(** The files among the events of a call. *)
Definition emitted (evs : list Event) : list File :=
  omap (fun ev => match ev with Emit f => Some f | Log _ _ => None end) evs.

Definition groupName (c : Contribution) : string :=
  fst (fst (groupOf (c_relative c) (c_extensionName c))).

Definition groupPattern (c : Contribution) : string :=
  snd (fst (groupOf (c_relative c) (c_extensionName c))).

(** The count a call compares against. *)
Definition expectedCount (c : Contribution) : nat := c_glob c (groupPattern c).

Definition processedOf (e : string) (extensions : gmap string Extension) : nat :=
  match extensions !! e with
  | Some ext => processed ext
  | None => 0
  end.

(** The specification's reading of the expected count: it is taken at the
    first contribution and reused, so what the later calls see on the file
    system makes no difference. *)
Definition withGlob (g : string -> nat) (c : Contribution) : Contribution :=
  {| c_glob := g; c_relative := c_relative c; c_json := c_json c;
     c_projectName := c_projectName c; c_extensionName := c_extensionName c |}.

Definition countDeterminedOnce : Prop :=
  forall (first : Contribution) (later : list Contribution),
    feed (first :: later) ∅ = feed (first :: map (withGlob (c_glob first)) later) ∅.

(** The path under which the document of the group of [c] is emitted. *)
Definition xlfFilePath (c : Contribution) : string :=
  path_join (c_projectName c) (groupName c +:+ ".xlf").

(** A package file of one string, arriving while [glob] finds [count]
    files. *)
Definition packageCall (count : nat) (relative : string) : Contribution :=
  {| c_glob := fun _ => count;
     c_relative := relative;
     c_json := PackageJson [("k", PString "m")];
     c_projectName := "p";
     c_extensionName := None |}.

(** ** Parsing *)

(** The specification's list of the inputs on which [XLF.parse] rejects. *)
Definition lacksAttr (a : string) (attrs : option (gmap string string)) : bool :=
  match attrs with
  | Some m => match m !! a with Some _ => false | None => true end
  | None => true
  end.

Definition fileUnits (file : FileNode) : list TransUnitNode :=
  match file_body file with
  | Some ({| body_trans_unit := Some units |} :: _) => units
  | _ => []
  end.

Definition idWithBadTarget (unit : TransUnitNode) : bool :=
  negb (lacksAttr "id" (unit_attrs unit)) &&
  match unit_target unit with
  | Some target => negb (truthy (targetToString target))
  | None => false
  end.

Definition listedRejection (err : option string) (result : option XmlResult) : bool :=
  match err, result with
  | Some _, _ => true
  | None, Some {| result_xliff := Some {| xliff_file := Some fileNodes |} |} =>
      existsb (fun file => lacksAttr "original" (file_attrs file)) fileNodes ||
      existsb (fun file => lacksAttr "target-language" (file_attrs file)) fileNodes ||
      existsb (fun file => existsb idWithBadTarget (fileUnits file)) fileNodes
  | None, _ => true
  end.

Definition parseFails (o : ParseOutcome) : bool :=
  match o with Resolved _ => false | _ => true end.

(** The inputs on which the callback runs to the call of [resolve]. *)
Definition attrTruthy (a : string) (attrs : gmap string string) : bool :=
  match attrs !! a with Some v => truthy v | None => false end.

Definition unitAccepted (unit : TransUnitNode) : bool :=
  match unit_attrs unit with
  | None => false
  | Some attrs =>
      match unit_target unit with
      | None => true
      | Some target => attrTruthy "id" attrs && truthy (targetToString target)
      end
  end.

Definition fileAccepted (file : FileNode) : bool :=
  match file_attrs file with
  | None => false
  | Some attrs =>
      attrTruthy "original" attrs && attrTruthy "target-language" attrs &&
      match file_body file with
      | Some ({| body_trans_unit := Some units |} :: _) => forallb unitAccepted units
      | _ => false
      end
  end.

Definition accepted (err : option string) (result : option XmlResult) : bool :=
  match err, result with
  | None, Some {| result_xliff := Some {| xliff_file := Some fileNodes |} |} =>
      forallb fileAccepted fileNodes
  | _, _ => false
  end.

(** ** What the XML parser reads

    [XLF.parse] gives the text to [xml2js].  Character data reaches the
    callback with its entity references resolved, in one pass from left to
    right ([&amp;lt;] is read as [&lt;]); [toString] writes none but the five
    predefined ones when the stored texts are encodings. *)
Fixpoint xmlText_from (skip : nat) (s : string) : string :=
  match s with
  | EmptyString => EmptyString
  | String c rest =>
      match skip with
      | S k => xmlText_from k rest
      | O =>
          if Ascii.eqb c "&" then
            if startsWith rest "lt;" then String "<" (xmlText_from 3 rest)
            else if startsWith rest "gt;" then String ">" (xmlText_from 3 rest)
            else if startsWith rest "amp;" then String "&" (xmlText_from 4 rest)
            else if startsWith rest "quot;" then String "034"%char (xmlText_from 5 rest)
            else if startsWith rest "apos;" then String "'" (xmlText_from 5 rest)
            else String c (xmlText_from 0 rest)
          else String c (xmlText_from 0 rest)
      end
  end.

Definition xmlText (s : string) : string := xmlText_from 0 s.

(** A text [toString] can put between the quotes of an attribute and that
    the parser reads back as it is: it holds no quote, no [<], no [&], and
    no tab or line break (which a parser may turn into a space). *)
Definition TAB : ascii := "009"%char.

Definition attributeSafe (s : string) : bool :=
  freeOf "<" s && freeOf "&" s && freeOf "034" s &&
  freeOf CR s && freeOf LF s && freeOf TAB s.

(** [pat] occurs in [s]. *)
Fixpoint occurs (pat s : string) : bool :=
  startsWith s pat ||
  match s with
  | EmptyString => false
  | String _ rest => occurs pat rest
  end.

(** A text that holds none of the three references [decodeEntities]
    replaces. *)
Definition entityFree (s : string) : bool :=
  negb (occurs "&lt;" s) && negb (occurs "&gt;" s) && negb (occurs "&amp;" s).

(** A language tag: ASCII letters, digits, hyphens and underscores, on which
    [toLowerCase] is the one of the ASCII letters and which can stand in an
    attribute. *)
Definition tagChar (c : ascii) : bool :=
  let n := nat_of_ascii c in
  ((48 <=? n) && (n <=? 57)) || ((65 <=? n) && (n <=? 90)) ||
  ((97 <=? n) && (n <=? 122)) || Ascii.eqb c "-" || Ascii.eqb c "_".

Fixpoint languageTag (s : string) : bool :=
  match s with
  | EmptyString => true
  | String c rest => tagChar c && languageTag rest
  end.

(** A text with a visible ASCII character: [xml2js] treats character data of
    white space only in a way of its own. *)
Definition visible (c : ascii) : bool :=
  (33 <=? nat_of_ascii c) && (nat_of_ascii c <=? 126).

Fixpoint hasText (s : string) : bool :=
  match s with
  | EmptyString => false
  | String c rest => visible c || hasText rest
  end.

(** The message an item was made of: the character data of the text it
    stores. *)
Definition messageOf (item : Item) : string := xmlText (item_message item).

(** A text that is the encoding of a text. *)
Definition isEncoding (s : string) : bool := String.eqb (encodeEntities (xmlText s)) s.

(** A document whose text the model can follow through the parser: it is
    serialized for the first time; its paths and ids are [attributeSafe]; its
    messages and comments are encodings; and a message has a visible ASCII
    character and no carriage return (how a parser hands over other character
    data is its own affair). *)
Definition itemReadable (item : Item) : bool :=
  attributeSafe (item_id item) && isEncoding (item_message item) &&
  hasText (messageOf item) && freeOf CR (messageOf item) &&
  match item_comment item with Some c => isEncoding c | None => true end.

Definition entryReadable (entry : string * list Item) : bool :=
  attributeSafe (fst entry) && forallb itemReadable (snd entry).

Definition readable (x : XLF) : bool :=
  match buffer x with [] => true | _ => false end &&
  forallb entryReadable (for_in (files x)).


Definition bodyOf (units : list TransUnitNode) : BodyNode :=
  {| body_trans_unit := match units with [] => None | _ => Some units end |}.


Definition resultOf (fileNodes : list FileNode) : XmlResult :=
  {| result_xliff :=
       Some {| xliff_file := match fileNodes with [] => None | _ => Some fileNodes end |} |}.


(** The same document once translated: every [file] element has been given
    a [target-language] that is a [languageTag] and every [trans-unit] a
    [target] element without attributes that holds the text the document
    stores for the message; the callback receives the character data of that
    text. *)
Definition translatedUnit (item : Item) : TransUnitNode :=
  {| unit_attrs := Some {[ "id" := item_id item ]};
     unit_target := Some [TextChild (messageOf item)] |}.

Definition translatedFileNode (lang : string) (entry : string * list Item) : FileNode :=
  {| file_attrs :=
       Some (<["original" := fst entry]>
             (<["source-language" := "en"]>
              (<["target-language" := lang]> {[ "datatype" := "plaintext" ]})));
     file_body := Some [bodyOf (map translatedUnit (snd entry))] |}.

Definition translatedImage (lang : string) (x : XLF) : option XmlResult :=
  if languageTag lang && readable x
  then Some (resultOf (map (translatedFileNode lang) (for_in (files x))))
  else None.

(** A [readable] document every file of which has a path and at least one
    item, and every item of which has an id of its own other than
    [__proto__] and a message that holds none of the references
    [decodeEntities] replaces. *)
Fixpoint distinct (l : list string) : bool :=
  match l with
  | [] => true
  | k :: rest => negb (existsb (String.eqb k) rest) && distinct rest
  end.

Definition itemTranslatable (item : Item) : bool :=
  truthy (item_id item) &&
  negb (String.eqb (item_id item) "__proto__") &&
  entityFree (messageOf item).

Definition entryTranslatable (entry : string * list Item) : bool :=
  truthy (fst entry) &&
  match snd entry with [] => false | _ => true end &&
  forallb itemTranslatable (snd entry) &&
  distinct (map item_id (snd entry)).

Definition translatable (x : XLF) : bool :=
  readable x &&
  match for_in (files x) with
  | [] => false
  | entries => forallb entryTranslatable entries
  end.



(** The document of the round-trip example. *)
Definition roundTripDocument : XLF :=
  (addFile "src/a" [KeyString "k"] ["<a>&b"] (newXLF "p")).1.

(** A document whose message is the text of a reference. *)
Definition referenceDocument : XLF :=
  (addFile "src/a" [KeyString "k"] ["&lt;"] (newXLF "p")).1.


(** A translated unit that has a target and attributes, but no id. *)
Definition unitWithoutId : TransUnitNode :=
  {| unit_attrs := Some {[ "approved" := "yes" ]};
     unit_target := Some [TextChild "Hallo"] |}.

Definition fileWithUnits (units : list TransUnitNode) : FileNode :=
  {| file_attrs := Some (<["original" := "src/a"]> {[ "target-language" := "de" ]});
     file_body := Some [bodyOf units] |}.

Definition is_inr {A B} (r : A + B) : bool :=
  match r with inr _ => true | inl _ => false end.

(* ===================================================================== *)
(** * 9a. [importIsl], [getMetadataResources], [prepareJsonFiles], [createI18nFile] *)
(* ===================================================================== *)

(** The functions of [main.ts] that read ISL files, list the resources of a
    metadata file and write the translated files. *)

(** [s.substring(start, end)]: the two bounds are put in order and cut to the
    length of [s]. *)
Definition substring (start finish : nat) (s : string) : string :=
  substr_to (Nat.max start finish - Nat.min start finish)
            (substr_from (Nat.min start finish) s).

(** The module-level variables [islXlf] and [islProcessed]. *)
Record IslState := { islXlf : option XLF; islProcessed : nat }.

Definition islFilesLength : nat := 2.

Definition isMessageSection (line : string) : bool :=
  String.eqb "[Messages]" line || String.eqb "[CustomMessages]" line.

(** The body of [model.lines.forEach]: [inMessageSection], [keys] and
    [messages] are the variables it updates, [evs] what it has logged. *)
Fixpoint importIsl_lines (lines : list string) (inMessageSection : bool)
    (keys messages : list string) (evs : list Event)
  : list string * list string * list Event :=
  match lines with
  | [] => (keys, messages, evs)
  | line :: rest =>
      match line with
      | EmptyString => importIsl_lines rest inMessageSection keys messages evs
      | String firstChar _ =>
          if Ascii.eqb firstChar ";" then
            importIsl_lines rest inMessageSection keys messages evs
          else if Ascii.eqb firstChar "[" then
            importIsl_lines rest (isMessageSection line) keys messages evs
          else if negb inMessageSection then
            importIsl_lines rest inMessageSection keys messages evs
          else
            match js_split "=" line with
            | [key; value] =>
                if truthy key && truthy value
                then importIsl_lines rest inMessageSection
                       (keys ++ [key]) (messages ++ [value]) evs
                else importIsl_lines rest inMessageSection keys messages evs
            | _ =>
                importIsl_lines rest inMessageSection keys messages
                  (evs ++ [Log "Error:" ("Badly formatted message found: " +:+ line)])
            end
      end
  end.

(** [file.path.substring(file.cwd.length + 1, file.path.split('.')[0].length)]
    with its backslashes turned. *)
Definition islOriginalPath (path cwd : string) : string :=
  replaceChar "\" "/"
    (substring (String.length cwd + 1)
       (String.length (match js_split "." path with p :: _ => p | [] => EmptyString end))
       path).

(** [importIsl(file, stream)]: [contents], [path] and [cwd] are those of the
    file. *)
Definition importIsl (contents path cwd : string) (st : IslState)
  : IslState * list Event * completion unit :=
  let projectName := "vscode-workbench" in
  let xlf0 := match islXlf st with Some x => x | None => newXLF projectName end in
  let '(keys, messages, evs) := importIsl_lines (splitLines contents) false [] [] [] in
  let '(xlf1, c) := addFile (islOriginalPath path cwd) (map KeyString keys) messages xlf0 in
  match c with
  | Throw e => ({| islXlf := Some xlf1; islProcessed := islProcessed st |}, evs, Throw e)
  | Normal _ =>
      let count := S (islProcessed st) in
      if Nat.eqb count islFilesLength then
        let '(text, xlf2) := toString xlf1 in
        ({| islXlf := Some xlf2; islProcessed := count |},
         evs ++ [Emit {| path := path_join projectName "setup.xlf"; contents := text |}],
         Normal tt)
      else ({| islXlf := Some xlf1; islProcessed := count |}, evs, Normal tt)
  end.

(** The test of [slugs.find]: same name and same project. *)
Definition sameResource (a b : Resource) : bool :=
  String.eqb (name a) (name b) && String.eqb (res_project a) (res_project b).

(** [getMetadataResources]: [keys] is the [keys] object of the metadata file
    that was read; [slugs] is the array being filled. *)
Fixpoint getMetadataResources_loop {V} (sources : list (string * V)) (slugs : list Resource)
  : completion (list Resource) :=
  match sources with
  | [] => Normal slugs
  | (source, _) :: rest =>
      match getResource source with
      | Throw e => Throw e
      | Normal projectResource =>
          if existsb (fun slug => sameResource slug projectResource) slugs
          then getMetadataResources_loop rest slugs
          else getMetadataResources_loop rest (slugs ++ [projectResource])
      end
  end.

Definition getMetadataResources {V} (keys : list (string * V)) : completion (list Resource) :=
  getMetadataResources_loop (for_in keys) [].

Definition iso639_2_to_3 : list (string * string) :=
  [("zh-cn", "chs"); ("zh-tw", "cht"); ("cs-cz", "csy"); ("de", "deu");
   ("en", "enu"); ("es", "esn"); ("fr", "fra"); ("hu", "hun"); ("it", "ita");
   ("ja", "jpn"); ("ko", "kor"); ("nl", "nld"); ("pl", "plk"); ("pt-br", "ptb");
   ("pt", "ptg"); ("ru", "rus"); ("sv-se", "sve"); ("tr", "trk")].

(** The object [defaultLanguages] of [prepareJsonFiles]. *)
Definition defaultLanguages : list (string * bool) :=
  [("zh-cn", true); ("zh-tw", true); ("ko", true)].

Definition i18nHeader : list string :=
  ["/*---------------------------------------------------------------------------------------------";
   " *  Copyright (c) Microsoft Corporation. All rights reserved.";
   " *  Licensed under the MIT License. See License.txt in the project root for license information.";
   " *--------------------------------------------------------------------------------------------*/";
   "// Do not edit this file. It is machine generated."].

Definition LFs : string := String LF EmptyString.

(** [path.join] given a value that is not a string. *)
Definition typeErrorPath : string := "TypeError: Path must be a string".

(** [createI18nFile(base, originalFilePath, messages)]: [stringify] stands
    for [JSON.stringify(messages, null, '\t')]; [base] is what the caller
    found in its table, and [path.join] raises unless it is a string. *)
Definition createI18nFile (stringify : gmap string string -> string)
    (base : option (Member string)) (originalFilePath : string)
    (msgs : gmap string string)
  : completion File :=
  match base with
  | Some (Own b) =>
      Normal {| path := path_join b (originalFilePath +:+ ".i18n.json");
                contents := js_join LFs i18nHeader +:+ LFs +:+
                            replaceAll CRLF LFs (stringify msgs) |}
  | _ => Throw typeErrorPath
  end.

(** The body of [resolvedFiles.forEach] in [prepareJsonFiles]: the file to
    emit, or none when the callback returns early.  Both tables are objects
    written as literals.  [createIslFile] uses its [language] as a property
    name only, so it is given the string of what [iso639_2_to_3] holds:
    [undefined] for a language without an entry, the text of the member for
    an inherited name. *)
Definition translateFile (readFileSync : string -> completion string)
    (iconvEncode : string -> option (Member string) -> completion string)
    (stringify : gmap string string -> string) (file : ParsedFile)
  : completion (option File) :=
  let language3 := memberOf (obj_get (language file) iso639_2_to_3) (language file) in
  if startsWith (originalFilePath file) "build/" then
    if String.eqb (basename (originalFilePath file)) "Default" &&
       negb (memberTruthy (fun b : bool => b)
               (memberOf (obj_get (language file) defaultLanguages) (language file)))
    then Normal None
    else
      match createIslFile readFileSync iconvEncode ".." (originalFilePath file)
              (messages file) (interpolate language3) with
      | Throw e => Throw e
      | Normal f => Normal (Some f)
      end
  else
    match createI18nFile stringify language3 (originalFilePath file) (messages file) with
    | Throw e => Throw e
    | Normal f => Normal (Some f)
    end.

(** The two callbacks [prepareJsonFiles] gives to [then]. *)
Fixpoint prepareJsonFiles_resolved (readFileSync : string -> completion string)
    (iconvEncode : string -> option (Member string) -> completion string)
    (stringify : gmap string string -> string) (resolvedFiles : list ParsedFile)
  : list Event * completion unit :=
  match resolvedFiles with
  | [] => ([], Normal tt)
  | file :: rest =>
      match translateFile readFileSync iconvEncode stringify file with
      | Throw e => ([], Throw e)
      | Normal translated =>
          let '(evs, c) :=
            prepareJsonFiles_resolved readFileSync iconvEncode stringify rest in
          (match translated with Some f => [Emit f] | None => [] end ++ evs, c)
      end
  end.

Definition prepareJsonFiles_rejected (rejectReason : string) : list Event :=
  [Log "Error:" rejectReason].

(* ===================================================================== *)
(** * 9b. Further notions used to state the properties *)
(* ===================================================================== *)

(** The item [addFile] makes of a plain-string key and its message. *)
Definition plainItem (k m : string) : Item :=
  {| item_id := k; item_message := encodeEntities m; item_comment := None |}.

(** A text that can stand between two tags. *)
Definition markupFree (s : string) : bool := freeOf "<" s && freeOf ">" s.

Definition itemMarkupFree (item : Item) : bool :=
  markupFree (item_message item) &&
  match item_comment item with Some c => markupFree c | None => true end.

Fixpoint countChar (c : ascii) (s : string) : nat :=
  match s with
  | EmptyString => 0
  | String d rest => (if Ascii.eqb d c then 1 else 0) + countChar c rest
  end.

(** The files emitted by the calls of the group [e], in the order of the calls. *)
Definition emittedFor (e : string) (calls : list Contribution) (outs : list (list Event))
  : list File :=
  concat (zip_with (fun c evs => if String.eqb (groupName c) e then emitted evs else [])
                   calls outs).

Definition callsOf (e : string) (calls : list Contribution) : nat :=
  length (List.filter (fun c => String.eqb (groupName c) e) calls).

Definition otherCall : Contribution :=
  {| c_glob := fun _ => 1;
     c_relative := "ext2/package.nls.json";
     c_json := PackageJson [("k", PString "m")];
     c_projectName := "p";
     c_extensionName := None |}.

Definition mixedCalls : list Contribution :=
  [packageCall 2 "ext1/a.nls.json"; otherCall; packageCall 2 "ext1/b.nls.json";
   packageCall 2 "ext1/c.nls.json"].

Definition wellFormedJson (json : Json) : Prop :=
  match json with
  | ModuleJson keys messages => length keys <= length messages
  | PackageJson _ => True
  end.

Definition packageItem (kv : string * PackageValue) : Item :=
  plainItem (fst kv) (packageValueToString (snd kv)).


(** What [importIsl] takes from a line: the line is [key=value] with nothing
    empty and no further [=], and it starts neither a comment nor a
    section. *)
Definition exported (lines : list string) (key value : string) : Prop :=
  (key +:+ "=" +:+ value) ∈ lines /\
  truthy key = true /\ truthy value = true /\
  freeOf "=" key = true /\ freeOf "=" value = true /\
  match key with
  | EmptyString => False
  | String c _ => Ascii.eqb c ";" = false /\ Ascii.eqb c "[" = false
  end.

Definition notLocaleKey (key : string) : bool :=
  negb (String.eqb key "LanguageName") &&
  negb (String.eqb key "LanguageID") &&
  negb (String.eqb key "LanguageCodePage").

Definition islSample : string :=
  "; comment" +:+ String LF
  ("[LangOptions]" +:+ String LF
  ("LanguageName=English" +:+ String LF
  ("[Messages]" +:+ String LF
  ("SetupAppTitle=Setup" +:+ String LF
  ("Broken=a=b" +:+ String LF
  "NoValue="))))).

(** A line of a template that [createIslFile] rewrites from its tables. *)
Definition localeLine (line : string) : bool :=
  String.eqb line englishBanner ||
  match js_split "=" line with
  | key :: _ =>
      String.eqb key "LanguageName" || String.eqb key "LanguageID" ||
      String.eqb key "LanguageCodePage"
  | [] => false
  end.

Definition defaultKorean : ParsedFile :=
  {| messages := ∅; originalFilePath := "build/win32/i18n/Default"; language := "ko" |}.

(** The template of [originalFilePath]. *)
Definition islTemplatePath (originalFilePath : string) : string :=
  if String.eqb (basename originalFilePath) "Default"
  then originalFilePath +:+ ".isl"
  else originalFilePath +:+ ".en.isl".

(** The key of a template line: what stands before its first [=]. *)
Definition lineKey (line : string) : string :=
  match js_split "=" line with key :: _ => key | [] => EmptyString end.

(** The file [createIslFile] returns once it has pushed the lines
    [content]. *)
Definition islFile (iconvEncode : string -> option (Member string) -> completion string)
    (base originalFilePath language : string) (content : list string) : completion File :=
  match iconvEncode (js_join CRLF content)
          (memberOf (obj_get language encodings) language) with
  | Throw e => Throw e
  | Normal bytes =>
      Normal {| path := pathJoin [base; dirname originalFilePath;
                                  basename originalFilePath] +:+
                        "." +:+
                        interpolate (memberOf (obj_get language iso639_3_to_2) language) +:+
                        ".isl";
                contents := bytes |}
  end.

(** [createIslFile] turns the line [line] of a template into [line']:
    whatever template holds the line, with the lines [before] it and the
    lines [after] it rewritten to [b] and to [a], the file returned is the
    one of the lines [b], then [line'], then [a]. *)
Definition rewritesLine (readFileSync : string -> completion string)
    (iconvEncode : string -> option (Member string) -> completion string)
    (base originalFilePath : string) (msgs : gmap string string)
    (language line line' : string) : Prop :=
  forall (text : string) (before after b a : list string),
    readFileSync (islTemplatePath originalFilePath) = Normal text ->
    splitLines text = before ++ line :: after ->
    islLines msgs language before [] = Normal b ->
    islLines msgs language after [] = Normal a ->
    createIslFile readFileSync iconvEncode base originalFilePath msgs language =
    islFile iconvEncode base originalFilePath language (b ++ line' :: a).

(** A template of four lines: a section, the language name, the code page
    and a message. *)
Definition substitutionTemplate : string :=
  js_join LFs ["[LangOptions]"; "LanguageName=English"; "LanguageCodePage=0"; "Foo=Bar"].

Definition plainTemplate : string :=
  "[CustomMessages]" +:+ String CR (String LF
  ("AddContextMenuFiles=Add action" +:+ String LF
  (EmptyString +:+ String LF
  "; end"))).

Definition readPlain (p : string) : completion string :=
  if String.eqb p "build/win32/i18n/messages.en.isl" then Normal plainTemplate
  else Throw "ENOENT".

(** Every key and every value of a parsed table is a non-empty string. *)
Definition nothingEmpty (msgs : gmap string string) : Prop :=
  forall k v, msgs !! k = Some v -> truthy k = true /\ truthy v = true.

Definition parsedFileComplete (pf : ParsedFile) : Prop :=
  nothingEmpty (messages pf) /\
  truthy (originalFilePath pf) = true /\
  truthy (language pf) = true /\
  toLowerCase (language pf) = language pf.






(** The name of the resource of a source; empty when it has none. *)
Definition resourceNameOf (source : string) : string :=
  match getResource source with
  | Normal r => name r
  | Throw _ => EmptyString
  end.

(** A source of a bundle that can be imported: it has a resource and a
    message for each of its keys. *)
Definition importable (json : BundledFormat) (kv : string * list Key) : Prop :=
  knownPrefix (fst kv) = true /\
  exists ms, obj_get (fst kv) (bf_messages json) = Some ms /\ length (snd kv) <= length ms.

Definition editorBundle : BundledFormat :=
  {| bf_keys := [("vs/editor/common/a", [KeyString "k1"]);
                 ("vs/base/common/b", [KeyString "k2"]);
                 ("vs/editor/browser/c", [KeyString "k3"; KeyString "k4"])];
     bf_messages := [("vs/editor/common/a", ["m1"]);
                     ("vs/base/common/b", ["m2"]);
                     ("vs/editor/browser/c", ["m3"; "m4"])] |}.

(** A line holds no line break. *)
Definition unbroken (line : string) : bool := freeOf CR line && freeOf LF line.

(* ===================================================================== *)
(** * 10. Properties of the string primitives and of the entity escaper  *)
(* ===================================================================== *)

Section Strings.

Lemma append_String (a : ascii) (s t : string) :
  String a s +:+ t = String a (s +:+ t).
Proof. reflexivity. Qed.

Lemma append_empty_l (s : string) : EmptyString +:+ s = s.
Proof. reflexivity. Qed.

Lemma append_empty_r (s : string) : s +:+ EmptyString = s.
Proof. induction s as [|a s IH]; [reflexivity|]. rewrite append_String, IH. reflexivity. Qed.

Lemma append_assoc (s t u : string) : (s +:+ t) +:+ u = s +:+ (t +:+ u).
Proof.
  induction s as [|a s IH]; [reflexivity|].
  rewrite !append_String, IH. reflexivity.
Qed.

Lemma startsWith_append (p s : string) : startsWith (p +:+ s) p = true.
Proof.
  induction p as [|a p IH]; [reflexivity|].
  rewrite append_String. simpl. rewrite Ascii.eqb_refl, IH. reflexivity.
Qed.

(** Passing over the rest of a match. *)
Lemma replaceAll_from_skip (pat rep p s : string) :
  replaceAll_from pat rep (String.length p) (p +:+ s) = replaceAll_from pat rep 0 s.
Proof.
  induction p as [|a p IH]; simpl.
  - rewrite append_empty_l. destruct s; reflexivity.
  - exact IH.
Qed.

(** At a match the replacement is written and the scan resumes behind it. *)
Lemma replaceAll_match (pat rep s : string) :
  pat <> EmptyString ->
  replaceAll pat rep (pat +:+ s) = rep +:+ replaceAll pat rep s.
Proof.
  intros Hne. unfold replaceAll.
  destruct pat as [|a p]; [congruence|].
  pose proof (startsWith_append (String a p) s) as Hsw.
  rewrite append_String in *.
  cbn [replaceAll_from]. rewrite Hsw.
  f_equal. cbn [String.length Nat.sub].
  replace (String.length p - 0) with (String.length p) by lia.
  apply replaceAll_from_skip.
Qed.

(** Where the pattern does not start, the character is kept. *)
Lemma replaceAll_keep (pat rep : string) (c : ascii) (s : string) :
  startsWith (String c s) pat = false ->
  replaceAll pat rep (String c s) = String c (replaceAll pat rep s).
Proof. intros H. unfold replaceAll. cbn [replaceAll_from]. rewrite H. reflexivity. Qed.

End Strings.

Section Entities.

Lemma encodeEntities_encodeWith (s : string) :
  encodeEntities s = encodeWith encodeChar s.
Proof. induction s as [|c s IH]; simpl; [reflexivity | rewrite IH; reflexivity]. Qed.

Lemma encodeWith_single (s : string) : encodeWith single s = s.
Proof.
  induction s as [|c s IH]; [reflexivity|].
  cbn [encodeWith]. unfold single at 1. rewrite append_String, append_empty_l, IH. reflexivity.
Qed.

Lemma replaceAll_encodeWith (pat rep : string) (f g : ascii -> string) :
  (forall c rest, replaceAll pat rep (f c +:+ rest) = g c +:+ replaceAll pat rep rest) ->
  forall s, replaceAll pat rep (encodeWith f s) = encodeWith g s.
Proof.
  intros Hstep s. induction s as [|c s IH]; simpl; [reflexivity|].
  rewrite Hstep, IH. reflexivity.
Qed.

Ltac by_char c :=
  destruct (Ascii.eqb_spec c "<") as [->|?];
  [|destruct (Ascii.eqb_spec c ">") as [->|?];
    [|destruct (Ascii.eqb_spec c "&") as [->|?]]].

Ltac keep_char :=
  unfold single; rewrite append_String, append_empty_l;
  apply replaceAll_keep; simpl;
  match goal with
  | |- context [Ascii.eqb ?c ?d] =>
      destruct (Ascii.eqb_spec c d); [congruence | reflexivity]
  end.

Lemma pass_lt (s : string) :
  replaceAll "&lt;" "<" (encodeWith encodeChar s) = encodeWith afterLt s.
Proof.
  apply replaceAll_encodeWith. intros c rest.
  unfold encodeChar, afterLt. by_char c; try reflexivity.
  keep_char.
Qed.

Lemma pass_gt (s : string) :
  replaceAll "&gt;" ">" (encodeWith afterLt s) = encodeWith afterGt s.
Proof.
  apply replaceAll_encodeWith. intros c rest.
  unfold afterLt, afterGt. by_char c; try reflexivity.
  keep_char.
Qed.

Lemma pass_amp (s : string) :
  replaceAll "&amp;" "&" (encodeWith afterGt s) = encodeWith single s.
Proof.
  apply replaceAll_encodeWith. intros c rest.
  unfold afterGt. by_char c; try reflexivity.
  keep_char.
Qed.

(** Decoding undoes encoding. *)
Lemma decodeEntities_encodeEntities (s : string) :
  decodeEntities (encodeEntities s) = s.
Proof.
  unfold decodeEntities.
  rewrite encodeEntities_encodeWith, pass_lt, pass_gt, pass_amp.
  apply encodeWith_single.
Qed.

Lemma encodeEntities_append (s t : string) :
  encodeEntities (s +:+ t) = encodeEntities s +:+ encodeEntities t.
Proof.
  induction s as [|c s IH]; [reflexivity|].
  rewrite append_String. simpl. rewrite IH, append_assoc. reflexivity.
Qed.

Lemma encodeChar_other (c : ascii) :
  c <> "<"%char -> c <> ">"%char -> c <> "&"%char -> encodeChar c = single c.
Proof.
  intros H1 H2 H3. unfold encodeChar.
  destruct (Ascii.eqb_spec c "<"); [congruence|].
  destruct (Ascii.eqb_spec c ">"); [congruence|].
  destruct (Ascii.eqb_spec c "&"); [congruence|]. reflexivity.
Qed.

(** A character that [encodeEntities] rewrites is one of the three. *)
Lemma encodeChar_changes (c : ascii) :
  encodeChar c <> single c -> c = "<"%char \/ c = ">"%char \/ c = "&"%char.
Proof.
  intros H.
  destruct (Ascii.eqb_spec c "<"); [auto|].
  destruct (Ascii.eqb_spec c ">"); [auto|].
  destruct (Ascii.eqb_spec c "&"); [auto|].
  exfalso. apply H. apply encodeChar_other; assumption.
Qed.

End Entities.

(* ===================================================================== *)
(** * 11. The entity escaper (C10)                                       *)
(* ===================================================================== *)

Lemma escaped_special (c : ascii) :
  escaped c -> c = "<"%char \/ c = ">"%char \/ c = "&"%char.
Proof.
  unfold escaped. intros H. apply encodeChar_changes. intros Heq. apply H.
  cbn [encodeEntities single]. rewrite Heq. apply append_empty_r.
Qed.

Lemma NoDup_four (a b c d : ascii) :
  NoDup [a; b; c; d] -> a <> b /\ a <> c /\ a <> d /\ b <> c /\ b <> d /\ c <> d.
Proof.
  intros H.
  apply NoDup_cons in H as [Ha H]. apply NoDup_cons in H as [Hb H].
  apply NoDup_cons in H as [Hc _].
  repeat (rewrite not_elem_of_cons in Ha).
  repeat (rewrite not_elem_of_cons in Hb).
  repeat (rewrite not_elem_of_cons in Hc).
  tauto.
Qed.

(** C10, as the specification words it, fails on the code: the double quote
    and the apostrophe leave [encodeEntities] as they entered it, and there
    are no four different characters that it escapes. *)
Lemma entity_escaper_has_no_fourth_character :
  encodeEntities dq = dq /\ encodeEntities "'" = "'" /\ ~ escapesFourCharacters.
Proof.
  split; [reflexivity|]. split; [reflexivity|].
  intros (c1 & c2 & c3 & c4 & Hnd & H1 & H2 & H3 & H4).
  apply escaped_special in H1, H2, H3, H4.
  apply NoDup_four in Hnd as (? & ? & ? & ? & ? & ?).
  destruct H1 as [->|[->| ->]], H2 as [->|[->| ->]], H3 as [->|[->| ->]],
    H4 as [->|[->| ->]]; congruence.
Qed.

(** C10, amended: [encodeEntities] works character by character; it writes
    the entity for each of the three characters [<], [>] and [&], leaves every
    other character as it is, and [decodeEntities] gives back the string that
    was encoded. *)
Theorem entity_escaper_three_characters :
  (forall s t, encodeEntities (s +:+ t) = encodeEntities s +:+ encodeEntities t) /\
  encodeEntities "<" = "&lt;" /\
  encodeEntities ">" = "&gt;" /\
  encodeEntities "&" = "&amp;" /\
  (forall c, isSpecial c = true \/ encodeEntities (single c) = single c) /\
  (forall s, decodeEntities (encodeEntities s) = s).
Proof.
  split; [exact encodeEntities_append|].
  repeat (split; [reflexivity|]).
  split; [|exact decodeEntities_encodeEntities].
  intros c. unfold isSpecial.
  destruct (Ascii.eqb_spec c "<"); [left; reflexivity|].
  destruct (Ascii.eqb_spec c ">"); [left; reflexivity|].
  destruct (Ascii.eqb_spec c "&"); [left; reflexivity|].
  right. cbn [encodeEntities single]. rewrite encodeChar_other by assumption.
  apply append_empty_r.
Qed.

(* ===================================================================== *)
(** * 12. Resource classification (C7)                                   *)
(* ===================================================================== *)

Lemma getResource_unknown (sourceFile : string) :
  knownPrefix sourceFile = false ->
  getResource sourceFile =
  Throw ("Could not identify the XLF bundle for " +:+ sourceFile).
Proof.
  unfold knownPrefix, knownPrefixes. cbn [existsb]. intros H.
  repeat (apply orb_false_elim in H as [?H H]).
  unfold getResource.
  repeat match goal with
         | Hp : startsWith sourceFile ?p = false |- _ => rewrite Hp; clear Hp
         end.
  reflexivity.
Qed.

(** C7: the two paths of the classification law get the resource and the
    project the specification names (the second one cut to four segments),
    [unknown/path] raises, and a path that starts with none of the known
    prefixes raises an error whose text ends with that path. *)
Theorem getResource_classification :
  getResource "vs/editor/contrib/foo" =
    Normal {| name := "vs/editor/contrib"; res_project := "vscode-editor" |} /\
  getResource "vs/workbench/parts/search/x" =
    Normal {| name := "vs/workbench/parts/search"; res_project := "vscode-workbench" |} /\
  split_limit "/" 4 "vs/workbench/parts/search/x" = ["vs"; "workbench"; "parts"; "search"] /\
  getResource "unknown/path" =
    Throw "Could not identify the XLF bundle for unknown/path" /\
  (forall sourceFile,
      knownPrefix sourceFile = true \/
      getResource sourceFile =
        Throw ("Could not identify the XLF bundle for " +:+ sourceFile)).
Proof.
  repeat (split; [reflexivity|]).
  intros sourceFile. destruct (knownPrefix sourceFile) eqn:E; [left; reflexivity|].
  right. apply getResource_unknown, E.
Qed.

(* ===================================================================== *)
(** * 13. ISL substitution (C9)                                          *)
(* ===================================================================== *)

Lemma encodings_prefix (language enc : string) :
  obj_get language encodings = Some enc -> enc = "CP" +:+ substr_from 2 enc.
Proof.
  unfold encodings. cbn [obj_get].
  repeat (destruct (String.eqb _ language); [intros [= <-]; reflexivity|]).
  discriminate.
Qed.

Lemma js_split_key (sep : ascii) (key value : string) :
  freeOf sep key = true ->
  js_split sep (key +:+ String sep value) = key :: js_split sep value.
Proof.
  induction key as [|c key IH]; intros Hfree.
  - rewrite append_empty_l. cbn [js_split]. rewrite Ascii.eqb_refl. reflexivity.
  - cbn [freeOf] in Hfree. apply andb_true_iff in Hfree as [Hc Hfree].
    apply negb_true_iff in Hc.
    rewrite append_String. cbn [js_split]. rewrite Hc, (IH Hfree). reflexivity.
Qed.

(** A message line takes what [messages[key]] gives when that is truthy. *)
Lemma islLine_message (msgs : gmap string string) (language key value : string) :
  messageKey key = true ->
  islLine msgs language (key +:+ "=" +:+ value) =
  Normal (Some (if memberTruthy truthy (memberOf (msgs !! key) key)
                then key +:+ "=" +:+ interpolate (memberOf (msgs !! key) key)
                else key +:+ "=" +:+ value)).
Proof.
  unfold messageKey. intros H.
  apply andb_true_iff in H as [H H5]. apply andb_true_iff in H as [H H4].
  apply andb_true_iff in H as [H H3]. apply andb_true_iff in H as [H1 H2].
  apply negb_true_iff in H3, H4, H5.
  destruct key as [|c key]; [discriminate|].
  apply negb_true_iff in H1.
  change (String c key +:+ "=" +:+ value) with (String c (key +:+ "=" +:+ value)).
  unfold islLine. rewrite H1.
  change (String c (key +:+ "=" +:+ value)) with (String c key +:+ String "="%char value).
  rewrite (js_split_key "=" (String c key) value H2).
  cbn [truthy]. rewrite H3, H4, H5.
  destruct (memberTruthy truthy (memberOf (msgs !! String c key) (String c key)));
    reflexivity.
Qed.

Lemma islLine_translated (msgs : gmap string string) (language key value t : string) :
  messageKey key = true ->
  msgs !! key = Some t ->
  t <> EmptyString ->
  islLine msgs language (key +:+ "=" +:+ value) = Normal (Some (key +:+ "=" +:+ t)).
Proof.
  intros Hkey Hget Ht. rewrite (islLine_message _ _ _ _ Hkey), Hget.
  destruct t; [congruence | reflexivity].
Qed.

Lemma islLine_absent (msgs : gmap string string) (language key value : string) :
  messageKey key = true ->
  msgs !! key = None ->
  islLine msgs language (key +:+ "=" +:+ value) =
  Normal (Some (key +:+ "=" +:+ (if inherited key then nativeText key else value))).
Proof.
  intros Hkey Hget. rewrite (islLine_message _ _ _ _ Hkey), Hget.
  unfold memberOf. destruct (inherited key); reflexivity.
Qed.

Lemma islLine_codePage (msgs : gmap string string) (language enc page : string) :
  obj_get language encodings = Some enc ->
  islLine msgs language ("LanguageCodePage=" +:+ page) =
  Normal (Some ("LanguageCodePage=" +:+ substr_from 2 enc)).
Proof.
  intros Henc. cbv [String.append]. cbn -[obj_get memberOf]. rewrite Henc. reflexivity.
Qed.

Lemma islLine_languageName (msgs : gmap string string) (language : string) :
  islLine msgs language "LanguageName=English" =
  Normal (Some ("LanguageName=" +:+
                interpolate (memberOf (obj_get language languageNames) language))).
Proof. reflexivity. Qed.

Lemma freeOf_append (c : ascii) (s t : string) :
  freeOf c (s +:+ t) = freeOf c s && freeOf c t.
Proof.
  induction s as [|a s IH]; [rewrite append_empty_l; reflexivity|].
  rewrite append_String. cbn [freeOf]. rewrite IH. apply andb_assoc.
Qed.

(** ** The lines of a template *)

Lemma islLines_content (msgs : gmap string string) (language : string)
    (lines : list string) :
  forall content : list string,
    islLines msgs language lines content =
    match islLines msgs language lines [] with
    | Normal out => Normal (content ++ out)
    | Throw e => Throw e
    end.
Proof.
  induction lines as [|line rest IH]; intros content; cbn [islLines].
  - rewrite app_nil_r. reflexivity.
  - destruct (islLine msgs language line) as [[out|]|e]; [|apply IH|reflexivity].
    rewrite (IH (content ++ [out])), (IH ([] ++ [out])).
    destruct (islLines msgs language rest []); [|reflexivity].
    rewrite <- app_assoc. reflexivity.
Qed.

Lemma islLines_middle (msgs : gmap string string) (language line line' : string)
    (before after b a : list string) :
  islLine msgs language line = Normal (Some line') ->
  islLines msgs language before [] = Normal b ->
  islLines msgs language after [] = Normal a ->
  islLines msgs language (before ++ line :: after) [] = Normal (b ++ line' :: a).
Proof.
  intros Hline Hb Ha. revert b Hb.
  induction before as [|l before IH]; intros b Hb.
  - cbn in Hb. injection Hb as <-. cbn [app islLines]. rewrite Hline.
    rewrite islLines_content, Ha. reflexivity.
  - cbn [app islLines] in *.
    destruct (islLine msgs language l) as [[out|]|e]; [| apply IH, Hb | discriminate].
    rewrite islLines_content in Hb. rewrite islLines_content.
    destruct (islLines msgs language before []) as [b'|e] eqn:Eb; [|discriminate].
    injection Hb as <-. rewrite (IH b' eq_refl). cbn [app]. reflexivity.
Qed.

(** [createIslFile] reads the template, rewrites its lines and encodes
    them. *)
Lemma createIslFile_lines (readFileSync : string -> completion string)
    (iconvEncode : string -> option (Member string) -> completion string)
    (base originalFilePath : string) (msgs : gmap string string)
    (language text : string) (content : list string) :
  readFileSync (islTemplatePath originalFilePath) = Normal text ->
  islLines msgs language (splitLines text) [] = Normal content ->
  createIslFile readFileSync iconvEncode base originalFilePath msgs language =
  islFile iconvEncode base originalFilePath language content.
Proof.
  unfold createIslFile, islTemplatePath, islFile. intros Hread Hlines.
  destruct (String.eqb (basename originalFilePath) "Default");
    rewrite Hread, Hlines; reflexivity.
Qed.

Lemma islLine_rewritesLine (readFileSync : string -> completion string)
    (iconvEncode : string -> option (Member string) -> completion string)
    (base originalFilePath : string) (msgs : gmap string string)
    (language line line' : string) :
  islLine msgs language line = Normal (Some line') ->
  rewritesLine readFileSync iconvEncode base originalFilePath msgs language line line'.
Proof.
  intros Hline text before after b a Hread Hsplit Hb Ha.
  apply (createIslFile_lines _ _ _ _ _ _ _ _ Hread).
  rewrite Hsplit. apply islLines_middle; assumption.
Qed.

(** C9: in whatever template the line stands, [createIslFile] writes
    [LanguageName=Korean] for the line [LanguageName=English] and the
    language [kor]; for a [LanguageCodePage] line it writes the code page of
    the language without its [CP] prefix; for a message line [key=value]
    (such as [Foo=Bar]) it writes [key=] followed by the translation when the
    messages hold a (non-empty) one for the key; and when they hold none it
    writes the line as it is, unless the key is the name of a member every
    object inherits, which [messages[key]] then finds. *)
Theorem createIslFile_substitution
    (readFileSync : string -> completion string)
    (iconvEncode : string -> option (Member string) -> completion string)
    (base originalFilePath : string) (msgs : gmap string string)
    (language enc page key value t : string) :
  obj_get language encodings = Some enc ->
  messageKey key = true ->
  t <> EmptyString ->
  rewritesLine readFileSync iconvEncode base originalFilePath msgs "kor"
    "LanguageName=English" "LanguageName=Korean" /\
  rewritesLine readFileSync iconvEncode base originalFilePath msgs language
    ("LanguageCodePage=" +:+ page) ("LanguageCodePage=" +:+ substr_from 2 enc) /\
  enc = "CP" +:+ substr_from 2 enc /\
  rewritesLine readFileSync iconvEncode base originalFilePath (<[key := t]> msgs) language
    (key +:+ "=" +:+ value) (key +:+ "=" +:+ t) /\
  rewritesLine readFileSync iconvEncode base originalFilePath (delete key msgs) language
    (key +:+ "=" +:+ value)
    (key +:+ "=" +:+ (if inherited key then nativeText key else value)).
Proof.
  intros Henc Hkey Ht.
  split; [apply islLine_rewritesLine; reflexivity|].
  split; [apply islLine_rewritesLine, islLine_codePage, Henc|].
  split; [eapply encodings_prefix, Henc|].
  split; apply islLine_rewritesLine.
  - apply islLine_translated; [exact Hkey | apply lookup_insert_eq | exact Ht].
  - apply islLine_absent; [exact Hkey | apply lookup_delete_eq].
Qed.

(** The substitution on the lines of the specification's example: the line
    [Foo=Bar] of a template of four lines, with and without a translation of
    [Foo]. *)
Lemma createIslFile_substitution_witness :
  obj_get "kor" encodings = Some "CP949" /\
  messageKey "Foo" = true /\
  "Baz" <> EmptyString /\
  createIslFile (fun _ => Normal substitutionTemplate) keepText ".."
    "build/win32/i18n/messages" (<["Foo" := "Baz"]> ∅) "kor" =
    Normal {| path := "../build/win32/i18n/messages.ko.isl";
              contents := js_join CRLF ["[LangOptions]"; "LanguageName=Korean";
                                        "LanguageCodePage=949"; "Foo=Baz"] |} /\
  createIslFile (fun _ => Normal substitutionTemplate) keepText ".."
    "build/win32/i18n/messages" (delete "Foo" ∅) "kor" =
    Normal {| path := "../build/win32/i18n/messages.ko.isl";
              contents := js_join CRLF ["[LangOptions]"; "LanguageName=Korean";
                                        "LanguageCodePage=949"; "Foo=Bar"] |}.
Proof.
  assert (H1 : obj_get "kor" encodings = Some "CP949") by reflexivity.
  assert (H2 : messageKey "Foo" = true) by reflexivity.
  assert (H3 : "Baz" <> EmptyString) by discriminate.
  split; [exact H1|]. split; [exact H2|]. split; [exact H3|].
  destruct (createIslFile_substitution (fun _ => Normal substitutionTemplate) keepText ".."
              "build/win32/i18n/messages" ∅ "kor" "CP949" "0" "Foo" "Bar" "Baz" H1 H2 H3)
    as (_ & _ & _ & Hwith & Hwithout).
  split.
  - exact (Hwith substitutionTemplate
             ["[LangOptions]"; "LanguageName=English"; "LanguageCodePage=0"] []
             ["[LangOptions]"; "LanguageName=Korean"; "LanguageCodePage=949"] []
             eq_refl eq_refl eq_refl eq_refl).
  - exact (Hwithout substitutionTemplate
             ["[LangOptions]"; "LanguageName=English"; "LanguageCodePage=0"] []
             ["[LangOptions]"; "LanguageName=Korean"; "LanguageCodePage=949"] []
             eq_refl eq_refl eq_refl eq_refl).
Defined.

(** A whole template: the banner, the three locale lines and the translated
    message are rewritten, the empty line is dropped, the rest is kept, and
    the lines are joined with CRLF. *)
Example createIslFile_korean :
  createIslFile readTemplate keepText ".." "build/win32/i18n/messages"
    (<["SetupAppTitle" := "Seolchi"]> ∅) "kor" =
  Normal {| path := "../build/win32/i18n/messages.ko.isl";
            contents :=
              js_join CRLF
                ["; *** Inno Setup version 5.5.3+ Korean messages ***";
                 "[LangOptions]";
                 "LanguageName=Korean";
                 "LanguageID=$0412";
                 "LanguageCodePage=949";
                 "[Messages]";
                 "SetupAppTitle=Seolchi";
                 "SetupWindowTitle=Setup - %1"] |}.
Proof. vm_compute. reflexivity. Qed.

(* ===================================================================== *)
(** * 14. Serialization (C4)                                             *)
(* ===================================================================== *)

Lemma length_append (s t : string) :
  String.length (s +:+ t) = String.length s + String.length t.
Proof.
  induction s as [|a s IH]; [reflexivity|].
  rewrite append_String. cbn [String.length]. rewrite IH. reflexivity.
Qed.

Lemma js_join_app (sep : string) (l1 l2 : list string) :
  l1 <> [] -> l2 <> [] ->
  js_join sep (l1 ++ l2) = js_join sep l1 +:+ sep +:+ js_join sep l2.
Proof.
  intros H1 H2. induction l1 as [|a l1 IH]; [congruence|].
  destruct l1 as [|b l1].
  - destruct l2 as [|c l2]; [congruence|]. reflexivity.
  - change (js_join sep ((a :: b :: l1) ++ l2))
      with (a +:+ sep +:+ js_join sep ((b :: l1) ++ l2)).
    rewrite IH by discriminate.
    change (js_join sep (a :: b :: l1)) with (a +:+ sep +:+ js_join sep (b :: l1)).
    rewrite !append_assoc. reflexivity.
Qed.

Lemma appendNewLine_buffer (content : string) (indent : nat) (x : XLF) :
  appendNewLine content indent x = withBuffer x (buffer x ++ [Line indent content]).
Proof. reflexivity. Qed.

Lemma addStringItem_buffer (item : Item) (x : XLF) :
  addStringItem item x = withBuffer x (buffer x ++ itemLines item).
Proof.
  unfold addStringItem, itemLines, appendNewLine, withBuffer. cbn.
  destruct (commentOf item); cbn; rewrite <- ?app_assoc; reflexivity.
Qed.

Lemma addStringItems_buffer (items : list Item) (x : XLF) :
  fold_left (fun acc item => addStringItem item acc) items x =
  withBuffer x (buffer x ++ concat (map itemLines items)).
Proof.
  revert x. induction items as [|item items IH]; intros x; cbn.
  - rewrite app_nil_r. destruct x; reflexivity.
  - rewrite IH, addStringItem_buffer. unfold withBuffer. cbn.
    rewrite <- app_assoc. reflexivity.
Qed.

Lemma appendFile_buffer (entry : string * list Item) (x : XLF) :
  appendFile entry x = withBuffer x (buffer x ++ fileLines entry).
Proof.
  unfold appendFile. rewrite addStringItems_buffer.
  unfold fileLines, appendNewLine, withBuffer. cbn.
  rewrite <- !app_assoc. reflexivity.
Qed.

Lemma appendFiles_buffer (entries : list (string * list Item)) (x : XLF) :
  fold_left (fun acc entry => appendFile entry acc) entries x =
  withBuffer x (buffer x ++ concat (map fileLines entries)).
Proof.
  revert x. induction entries as [|entry entries IH]; intros x; cbn.
  - rewrite app_nil_r. destruct x; reflexivity.
  - rewrite IH, appendFile_buffer. unfold withBuffer. cbn.
    rewrite <- app_assoc. reflexivity.
Qed.

(** One call of [toString]: the lines of the document are added to the
    buffer and the whole buffer is returned. *)
Lemma toString_buffer (x : XLF) :
  toString x =
  (js_join CRLF (buffer x ++ documentLines (files x)),
   withBuffer x (buffer x ++ documentLines (files x))).
Proof.
  unfold toString. rewrite appendFiles_buffer.
  unfold documentLines, appendFooter, appendHeader, appendNewLine, withBuffer. cbn.
  rewrite <- !app_assoc. reflexivity.
Qed.

Lemma documentLines_nonempty (fs : list (string * list Item)) : documentLines fs <> [].
Proof. unfold documentLines. discriminate. Qed.

(** C4: serializing a document twice does not give the same text twice.
    The second call returns the text of the first followed by the lines of the
    document once more, because the buffer the lines are pushed onto is
    never emptied; already the empty document of project [p] shows it. *)
Theorem toString_twice_differs :
  (forall x : XLF,
      fst (toString (snd (toString x))) =
        fst (toString x) +:+ CRLF +:+ js_join CRLF (documentLines (files x)) /\
      fst (toString (snd (toString x))) <> fst (toString x)) /\
  fst (toString (newXLF "p")) <> fst (toString (snd (toString (newXLF "p")))).
Proof.
  assert (Hgen : forall x : XLF,
      fst (toString (snd (toString x))) =
        fst (toString x) +:+ CRLF +:+ js_join CRLF (documentLines (files x))).
  { intros x. rewrite !toString_buffer. cbn [fst snd withBuffer buffer files].
    rewrite <- app_assoc.
    rewrite (app_assoc (buffer x)).
    apply js_join_app.
    - intros H. apply app_eq_nil in H as [_ H]. eapply documentLines_nonempty, H.
    - apply documentLines_nonempty. }
  assert (Hne : forall x : XLF, fst (toString (snd (toString x))) <> fst (toString x)).
  { intros x H. rewrite Hgen in H. apply (f_equal String.length) in H.
    rewrite !length_append in H. cbn in H. lia. }
  split; [intros x; split; [apply Hgen | apply Hne]|].
  intros H. symmetry in H. revert H. apply Hne.
Qed.

(* ===================================================================== *)
(** * 15. Adding a file (C5, C8)                                         *)
(* ===================================================================== *)

Lemma obj_get_set {V} (k : string) (v : V) (o : list (string * V)) :
  obj_get k (obj_set k v o) = Some v.
Proof.
  induction o as [|[k' v'] o IH]; cbn.
  - rewrite String.eqb_refl. reflexivity.
  - destruct (String.eqb k' k) eqn:E; cbn.
    + rewrite String.eqb_refl. reflexivity.
    + rewrite E. exact IH.
Qed.

Lemma indexOf_strings_None (l : list string) (k : string) :
  indexOf (map KeyString l) (KeyString k) = None <-> k ∉ l.
Proof.
  induction l as [|a l IH]; cbn.
  - split; [intros _; apply not_elem_of_nil | reflexivity].
  - rewrite not_elem_of_cons.
    destruct (String.eqb_spec a k) as [->|Hne].
    + split; [discriminate | tauto].
    + destruct (indexOf (map KeyString l) (KeyString k)).
      * split; [discriminate|]. intros [_ H]. apply IH in H. discriminate.
      * split; [|reflexivity]. intros _. split; [congruence | apply IH; reflexivity].
Qed.

Lemma indexOf_strings_Some (l : list string) (k : string) (i : nat) :
  indexOf (map KeyString l) (KeyString k) = Some i ->
  l !! i = Some k /\ forall j, j < i -> l !! j <> Some k.
Proof.
  revert i. induction l as [|a l IH]; intros i; cbn; [discriminate|].
  destruct (String.eqb_spec a k) as [->|Hne].
  - intros [= <-]. split; [reflexivity | lia].
  - destruct (indexOf (map KeyString l) (KeyString k)) as [i'|]; [|discriminate].
    intros [= <-]. destruct (IH i' eq_refl) as [H1 H2]. split; [exact H1|].
    intros [|j] Hj; cbn; [congruence | apply H2; lia].
Qed.

Lemma indexOf_strings_elem (l : list string) (k : string) :
  k ∈ l -> exists i, indexOf (map KeyString l) (KeyString k) = Some i.
Proof.
  intros H. destruct (indexOf (map KeyString l) (KeyString k)) eqn:E; [eauto|].
  apply indexOf_strings_None in E. contradiction.
Qed.

Lemma addFile_loop_strings (ks ms : list string) :
  length ks <= length ms ->
  forall (todo pre : list string) (items : list Item),
    ks = pre ++ todo ->
    stored ks ms pre items ->
    exists items',
      addFile_loop (map KeyString ks) ms (map KeyString todo)
        (map KeyString (map item_id items)) items = (items', Normal tt) /\
      stored ks ms ks items'.
Proof.
  intros Hlen todo. induction todo as [|k todo IH]; intros pre items Hks Hst.
  - exists items. split; [reflexivity|]. rewrite app_nil_r in Hks. subst pre. exact Hst.
  - cbn [map addFile_loop].
    destruct (indexOf (map KeyString (map item_id items)) (KeyString k)) as [n|] eqn:Eex.
    + apply (IH (pre ++ [k])); [rewrite <- app_assoc; exact Hks|].
      destruct Hst as [Hnd Hids Hfirst]. split; [exact Hnd | | exact Hfirst].
      intros k'. rewrite elem_of_app, list_elem_of_singleton, Hids.
      split; [tauto|]. intros [H| ->]; [exact H|].
      apply Hids. apply indexOf_strings_Some in Eex as [Hn _].
      eapply list_elem_of_lookup_2, Hn.
    + apply indexOf_strings_None in Eex.
      assert (Hin : k ∈ ks) by (rewrite Hks; set_solver).
      destruct (indexOf_strings_elem ks k Hin) as [i Ei]. rewrite Ei. cbn.
      destruct (indexOf_strings_Some _ _ _ Ei) as [Hi Hmin].
      assert (Hi' : i < length ks) by (eapply lookup_lt_Some, Hi).
      destruct (lookup_lt_is_Some_2 ms i ltac:(lia)) as [m Hm]. rewrite Hm.
      specialize (IH (pre ++ [k])
                     (items ++ [{| item_id := k; item_message := encodeEntities m;
                                   item_comment := None |}])).
      rewrite !map_app in IH. cbn [map item_id] in IH. apply IH.
      * rewrite <- app_assoc. exact Hks.
      * destruct Hst as [Hnd Hids Hfirst]. split.
        -- rewrite map_app. cbn. apply NoDup_app. split; [exact Hnd|].
           split; [|apply NoDup_singleton].
           intros k' Hk' ->%list_elem_of_singleton. contradiction.
        -- intros k'. rewrite map_app. cbn. rewrite !elem_of_app, Hids. tauto.
        -- apply Forall_app. split; [exact Hfirst|]. apply Forall_singleton.
           exists i, m. cbn. auto.
Qed.

Lemma stored_nil (ks ms : list string) : stored ks ms [] [].
Proof.
  split; cbn; [apply NoDup_nil_2 | reflexivity | apply Forall_nil_2].
Qed.

(** C5: [addFile(path, ["k","k"], ["m1","m2"])] stores one item for the path,
    with id [k] and message [m1]; for plain-string keys in general (with a
    message for every key) the stored items have pairwise different ids, the
    ids are those of the keys, and each item holds the message found at the
    first place of its id.  A key that is an object is compared by identity:
    of two different objects with the same [key], and of a string and an
    object with that [key], both are stored, so that two items have the same
    id. *)
Theorem addFile_duplicate_ids (original : string) (ks ms : list string) (x : XLF)
    (r1 r2 : nat) (k m1 m2 : string) (c1 c2 : option (list string)) :
  length ks <= length ms ->
  r1 <> r2 ->
  obj_get original
    (files (fst (addFile original [KeyString "k"; KeyString "k"] ["m1"; "m2"] x))) =
    Some [{| item_id := "k"; item_message := "m1"; item_comment := None |}] /\
  (exists items : list Item,
    addFile original (map KeyString ks) ms x =
      (withFiles x (obj_set original items (files x)), Normal tt) /\
    obj_get original (obj_set original items (files x)) = Some items /\
    NoDup (map item_id items) /\
    (forall k, k ∈ map item_id items <-> k ∈ ks) /\
    Forall (firstOccurrence ks ms) items) /\
  addFile original
    [KeyInfo r1 {| li_key := k; li_comment := c1 |};
     KeyInfo r2 {| li_key := k; li_comment := c2 |}] [m1; m2] x =
  (withFiles x
     (obj_set original
        [itemOf (KeyInfo r1 {| li_key := k; li_comment := c1 |}) (encodeEntities m1);
         itemOf (KeyInfo r2 {| li_key := k; li_comment := c2 |}) (encodeEntities m2)]
        (files x)),
   Normal tt) /\
  addFile original
    [KeyString k; KeyInfo r2 {| li_key := k; li_comment := c2 |}] [m1; m2] x =
  (withFiles x
     (obj_set original
        [itemOf (KeyString k) (encodeEntities m1);
         itemOf (KeyInfo r2 {| li_key := k; li_comment := c2 |}) (encodeEntities m2)]
        (files x)),
   Normal tt) /\
  map item_id
    [itemOf (KeyString k) (encodeEntities m1);
     itemOf (KeyInfo r1 {| li_key := k; li_comment := c1 |}) (encodeEntities m1);
     itemOf (KeyInfo r2 {| li_key := k; li_comment := c2 |}) (encodeEntities m2)] =
  [k; k; k].
Proof.
  intros Hlen Hne. split; [apply obj_get_set|]. split.
  - destruct (addFile_loop_strings ks ms Hlen ks [] [] eq_refl (stored_nil ks ms))
      as (items & Hloop & [Hnd Hids Hfirst]).
    exists items. unfold addFile. cbn [map item_id] in Hloop. rewrite Hloop.
    split; [reflexivity|]. split; [apply obj_get_set|]. auto.
  - apply Nat.eqb_neq in Hne. split; [|split; [|reflexivity]].
    + unfold addFile.
      cbn [addFile_loop indexOf strictEq app]. rewrite !Nat.eqb_refl, Hne. reflexivity.
    + unfold addFile.
      cbn [addFile_loop indexOf strictEq app]. rewrite !String.eqb_refl, Nat.eqb_refl.
      reflexivity.
Qed.

(** The duplicate-key law on the example of the specification, and two
    objects with the key [k]. *)
Lemma addFile_duplicate_ids_witness :
  length ["k"; "k"] <= length ["m1"; "m2"] /\
  0 <> 1 /\
  obj_get "path"
    (files (fst (addFile "path" [KeyString "k"; KeyString "k"] ["m1"; "m2"] (newXLF "p")))) =
    Some [{| item_id := "k"; item_message := "m1"; item_comment := None |}] /\
  addFile "path"
    [KeyInfo 0 {| li_key := "k"; li_comment := None |};
     KeyInfo 1 {| li_key := "k"; li_comment := None |}] ["m1"; "m2"] (newXLF "p") =
  (withFiles (newXLF "p")
     [("path", [{| item_id := "k"; item_message := "m1"; item_comment := None |};
                {| item_id := "k"; item_message := "m2"; item_comment := None |}])],
   Normal tt).
Proof.
  assert (H1 : length ["k"; "k"] <= length ["m1"; "m2"]) by (simpl; lia).
  assert (H2 : 0 <> 1) by lia.
  split; [exact H1|]. split; [exact H2|].
  destruct (addFile_duplicate_ids "path" ["k"; "k"] ["m1"; "m2"] (newXLF "p")
              0 1 "k" "m1" "m2" None None H1 H2) as (Hstrings & _ & Hobjects & _).
  split; [exact Hstrings | exact Hobjects].
Defined.

(** Keys that are objects are told apart by identity, not by their [key]:
    of three such keys the third, which is the first object again, is
    dropped, and the second is kept although its id is that of the first. *)
Example addFile_object_keys_by_identity :
  (addFile "src/a"
     [KeyInfo 0 {| li_key := "k"; li_comment := Some ["n<1"; "n2"] |};
      KeyInfo 1 {| li_key := "k"; li_comment := None |};
      KeyInfo 0 {| li_key := "k"; li_comment := Some ["n<1"; "n2"] |}]
     ["m1"; "m2"; "m3"] (newXLF "p")).1 =
  withFiles (newXLF "p")
    [("src/a",
      [{| item_id := "k"; item_message := "m1";
          item_comment := Some ("n&lt;1" +:+ CRLF +:+ "n2") |};
       {| item_id := "k"; item_message := "m2"; item_comment := None |}])].
Proof. vm_compute. reflexivity. Qed.

(** C8: with more keys than messages the caller logs the mismatch and
    [addFile] then raises at the first key that has no message: the bundle
    import ends without emitting anything and the module import leaves the
    extension uncounted.  With more messages than keys the import logs the
    mismatch, goes through the keys and emits. *)
Theorem length_mismatch_keys_longer_raises :
  importBundleJson "out/nls.metadata.json" mismatchedBundle =
    ([Log "Error:" (mismatchMessage "out/nls.metadata.json")], Throw typeErrorLength) /\
  addFile "vs/base/a" [KeyString "a"; KeyString "b"] ["m"] (newXLF "vscode-editor") =
    (withFiles (newXLF "vscode-editor")
       [("vs/base/a", [{| item_id := "a"; item_message := "m"; item_comment := None |}])],
     Throw typeErrorLength) /\
  importModuleOrPackageJson (fun _ => 1) "ext/a.nls.json"
    (ModuleJson [KeyString "a"; KeyString "b"] ["m"]) "p" None ∅ =
    (<["ext" := {| xlf := withFiles (newXLF "p")
                     [("extensions/ext/a",
                       [{| item_id := "a"; item_message := "m"; item_comment := None |}])];
                   processed := 0 |}]> ∅,
     [Log "Error:" (mismatchMessage "ext/a.nls.json")], Throw typeErrorLength) /\
  (exists f,
      importBundleJson "out/nls.metadata.json" longMessagesBundle =
        ([Log "Error:" (mismatchMessage "out/nls.metadata.json"); Emit f], Normal tt)) /\
  addFile "vs/base/a" [KeyString "a"] ["m1"; "m2"] (newXLF "vscode-editor") =
    (withFiles (newXLF "vscode-editor")
       [("vs/base/a", [{| item_id := "a"; item_message := "m1"; item_comment := None |}])],
     Normal tt).
Proof.
  split; [reflexivity|]. split; [reflexivity|]. split; [reflexivity|].
  split; [eexists; reflexivity | reflexivity].
Qed.

(* ===================================================================== *)
(** * 16. Aggregation of module and package files (C1, C2)               *)
(* ===================================================================== *)

Lemma emitted_app (a b : list Event) : emitted (a ++ b) = emitted a ++ emitted b.
Proof. unfold emitted. apply omap_app. Qed.

(** One call that returns: the counter of its group goes up by one, and a
    file is emitted exactly when the new counter is the count that this call
    read. *)
Lemma contribute_returns (c : Contribution) (extensions : gmap string Extension) :
  (contribute c extensions).2 = Normal tt ->
  processedOf (groupName c) (contribute c extensions).1.1 =
    S (processedOf (groupName c) extensions) /\
  ((S (processedOf (groupName c) extensions) = expectedCount c /\
    exists f, emitted (contribute c extensions).1.2 = [f] /\ path f = xlfFilePath c) \/
   (S (processedOf (groupName c) extensions) <> expectedCount c /\
    emitted (contribute c extensions).1.2 = [])).
Proof.
  unfold contribute, importModuleOrPackageJson, xlfFilePath, expectedCount,
    groupName, groupPattern, processedOf.
  destruct (groupOf (c_relative c) (c_extensionName c)) as [[extName pattern] orig].
  cbn [fst snd].
  set (extension := match extensions !! extName with
                    | Some e => e
                    | None => {| xlf := newXLF (c_projectName c); processed := 0 |}
                    end).
  assert (Hp : match extensions !! extName with
               | Some ext => processed ext | None => 0 end = processed extension).
  { unfold extension. destruct (extensions !! extName); reflexivity. }
  rewrite Hp. clear Hp.
  set (evs := match c_json c with
              | ModuleJson keys messages =>
                  if Nat.eqb (length keys) (length messages) then []
                  else [Log "Error:" (mismatchMessage (c_relative c))]
              | PackageJson _ => []
              end).
  assert (Hevs : emitted evs = []).
  { unfold evs. destruct (c_json c) as [keys msgs|]; [|reflexivity].
    destruct (Nat.eqb (length keys) (length msgs)); reflexivity. }
  match goal with
  | |- context [let '(_, _) := ?a in _] => destruct a as [xlf1 [[]|err]]
  end; cbn [fst snd]; [|discriminate].
  intros _.
  destruct (Nat.eqb_spec (S (processed extension)) (c_glob c pattern)) as [Heq|Hne].
  - destruct (toString xlf1) as [text xlf2]. cbn [fst snd].
    rewrite lookup_insert_eq. cbn. split; [reflexivity|]. left. split; [exact Heq|].
    eexists. rewrite emitted_app, Hevs. split; reflexivity.
  - cbn [fst snd]. rewrite lookup_insert_eq. cbn. split; [reflexivity|].
    right. split; [exact Hne | exact Hevs].
Qed.

Lemma feed_cons (c : Contribution) (rest : list Contribution)
    (extensions : gmap string Extension) :
  (feed (c :: rest) extensions).2 = Normal tt ->
  (contribute c extensions).2 = Normal tt /\
  feed (c :: rest) extensions =
    ((feed rest (contribute c extensions).1.1).1.1,
     (contribute c extensions).1.2 :: (feed rest (contribute c extensions).1.1).1.2,
     (feed rest (contribute c extensions).1.1).2).
Proof.
  cbn [feed]. destruct (contribute c extensions) as [[e1 evs] [[]|err]]; cbn [fst snd].
  - destruct (feed rest e1) as [[e2 out] r2]. cbn [fst snd]. auto.
  - discriminate.
Qed.




(** C2, as the specification words it, fails on the code: a second
    contribution that finds three files where the first found two emits
    nothing, whereas it would emit under the count of the first. *)
Lemma expected_count_is_read_again :
  ~ countDeterminedOnce.
Proof.
  intros H.
  specialize (H (packageCall 2 "ext1/a.nls.json") [packageCall 3 "ext1/b.nls.json"]).
  apply (f_equal (fun r => map emitted r.1.2)) in H.
  vm_compute in H. discriminate.
Qed.

Lemma contribute_withGlob (g : string -> nat) (c : Contribution)
    (extensions : gmap string Extension) :
  g (groupPattern c) = expectedCount c ->
  contribute (withGlob g c) extensions = contribute c extensions.
Proof.
  unfold contribute, importModuleOrPackageJson, expectedCount, groupPattern, withGlob.
  cbn [c_glob c_relative c_json c_projectName c_extensionName].
  destruct (groupOf (c_relative c) (c_extensionName c)) as [[extName pattern] orig].
  cbn [fst snd]. intros ->. reflexivity.
Qed.

(** C2, amended: every call reads the count again; what a call does
    depends on the file system only through the count it reads for the
    pattern of its group, the counter of the group goes up by one, and the
    call emits exactly when the new counter equals that count. *)
Theorem expected_count_read_at_each_call (g : string -> nat) (c : Contribution)
    (extensions : gmap string Extension) :
  (contribute c extensions).2 = Normal tt ->
  g (groupPattern c) = expectedCount c ->
  contribute (withGlob g c) extensions = contribute c extensions /\
  processedOf (groupName c) (contribute c extensions).1.1 =
    S (processedOf (groupName c) extensions) /\
  (emitted (contribute c extensions).1.2 <> [] <->
   S (processedOf (groupName c) extensions) = expectedCount c).
Proof.
  intros Hret Hg. split; [apply contribute_withGlob, Hg|].
  destruct (contribute_returns c extensions Hret) as [Hp Hemit].
  split; [exact Hp|].
  destruct Hemit as [[Heq (f & Hf & _)]|[Hne Hnone]].
  - rewrite Hf. split; [intros _; exact Heq | discriminate].
  - rewrite Hnone. split; [congruence | contradiction].
Qed.

(** A first contribution that finds three files. *)
Lemma expected_count_read_at_each_call_witness :
  (contribute (packageCall 3 "ext1/b.nls.json") ∅).2 = Normal tt /\
  (fun _ : string => 3) (groupPattern (packageCall 3 "ext1/b.nls.json")) =
    expectedCount (packageCall 3 "ext1/b.nls.json") /\
  contribute (withGlob (fun _ => 3) (packageCall 3 "ext1/b.nls.json")) ∅ =
    contribute (packageCall 3 "ext1/b.nls.json") ∅ /\
  processedOf (groupName (packageCall 3 "ext1/b.nls.json"))
    (contribute (packageCall 3 "ext1/b.nls.json") ∅).1.1 =
    S (processedOf (groupName (packageCall 3 "ext1/b.nls.json")) ∅) /\
  (emitted (contribute (packageCall 3 "ext1/b.nls.json") ∅).1.2 <> [] <->
   S (processedOf (groupName (packageCall 3 "ext1/b.nls.json")) ∅) =
     expectedCount (packageCall 3 "ext1/b.nls.json")).
Proof.
  assert (H1 : (contribute (packageCall 3 "ext1/b.nls.json") ∅).2 = Normal tt)
    by (vm_compute; reflexivity).
  assert (H2 : (fun _ : string => 3) (groupPattern (packageCall 3 "ext1/b.nls.json")) =
               expectedCount (packageCall 3 "ext1/b.nls.json")) by reflexivity.
  split; [exact H1|]. split; [exact H2|].
  exact (expected_count_read_at_each_call (fun _ => 3) _ ∅ H1 H2).
Defined.

(* ===================================================================== *)
(** * 17. Parsing (C6, C3)                                               *)
(* ===================================================================== *)

Lemma parseUnit_accepted (msgs : gmap string string) (unit : TransUnitNode) :
  is_inr (parseUnit msgs unit) = unitAccepted unit.
Proof.
  unfold parseUnit, unitAccepted, attrTruthy.
  destruct (unit_attrs unit) as [attrs|]; [|reflexivity].
  destruct (unit_target unit) as [target|]; [|reflexivity].
  destruct (attrs !! "id") as [key|]; [|reflexivity].
  destruct (truthy key && truthy (targetToString target)); reflexivity.
Qed.

Lemma parseUnits_accepted (units : list TransUnitNode) :
  forall msgs, is_inr (parseUnits msgs units) = forallb unitAccepted units.
Proof.
  induction units as [|unit rest IH]; intros msgs; cbn; [reflexivity|].
  rewrite <- (parseUnit_accepted msgs unit).
  destruct (parseUnit msgs unit) as [stop|msgs1]; cbn; [reflexivity | apply IH].
Qed.

Lemma parseFile_accepted (file : FileNode) :
  is_inr (parseFile file) = fileAccepted file.
Proof.
  unfold parseFile, fileAccepted, attrTruthy.
  destruct (file_attrs file) as [attrs|]; [|reflexivity].
  destruct (attrs !! "original") as [[|c original]|]; [reflexivity| |reflexivity].
  cbn [truthy andb].
  destruct (attrs !! "target-language") as [lang|]; [|reflexivity].
  assert (Hlow : truthy (toLowerCase lang) = truthy lang) by (destruct lang; reflexivity).
  rewrite Hlow. destruct (truthy lang); [|reflexivity]. cbn [andb].
  destruct (file_body file) as [[|[[units|]] bodies]|]; try reflexivity.
  rewrite <- (parseUnits_accepted units ∅).
  destruct (parseUnits ∅ units); reflexivity.
Qed.

Lemma parseFiles_accepted (fileNodes : list FileNode) :
  is_inr (parseFiles fileNodes) = forallb fileAccepted fileNodes.
Proof.
  induction fileNodes as [|file rest IH]; cbn; [reflexivity|].
  rewrite <- parseFile_accepted, <- IH.
  destruct (parseFile file); cbn; [reflexivity|].
  destruct (parseFiles rest); reflexivity.
Qed.

(** C6, as the specification words it, fails on the code: a trans-unit
    that has a target and no id is on none of the listed grounds, and the
    promise is rejected. *)
Lemma parse_rejects_outside_the_list :
  listedRejection None (Some (resultOf [fileWithUnits [unitWithoutId]])) = false /\
  parseCallback None (Some (resultOf [fileWithUnits [unitWithoutId]])) =
    Rejected rejectNoData.
Proof. split; vm_compute; reflexivity. Qed.

(** C6, amended: a trans-unit without a target is passed over and leaves
    the messages as they are; an error of the XML parser and a root without
    file nodes are rejected; and the promise is resolved exactly when there
    is no parser error, the root has file nodes, every file node carries a
    non-empty [original] and a non-empty [target-language] and a body with
    trans-units, every trans-unit has attributes, and every trans-unit with a
    target has a non-empty id and a target whose string is not empty.
    Otherwise it is rejected, or the callback raises. *)
Theorem parse_outcomes (err : option string) (result : option XmlResult) :
  (forall msgs attrs,
      parseUnit msgs {| unit_attrs := Some attrs; unit_target := None |} = inr msgs) /\
  (forall e, parseCallback (Some e) result = Rejected ("Failed to parse XLIFF string. " +:+ e)) /\
  parseCallback None (Some {| result_xliff := Some {| xliff_file := None |} |}) =
    Rejected rejectNoFileNodes /\
  parseFails (parseCallback err result) = negb (accepted err result).
Proof.
  split; [reflexivity|]. split; [reflexivity|]. split; [reflexivity|].
  unfold parseCallback, accepted.
  destruct err as [e|]; [reflexivity|].
  destruct result as [[[[[fileNodes|]]|]]|]; try reflexivity.
  cbn. rewrite <- parseFiles_accepted.
  destruct (parseFiles fileNodes) as [[reason|e]|parsed]; reflexivity.
Qed.














(** A message that is itself the text of a reference does not come back as
    it was: the parser resolves [&amp;lt;] to [&lt;], and [XLF.parse] decodes
    that once more. *)
Example parse_decodes_once_more :
  translatable referenceDocument = false /\
  files referenceDocument =
    [("src/a", [{| item_id := "k"; item_message := "&amp;lt;"; item_comment := None |}])] /\
  parseCallback None (translatedImage "DE" referenceDocument) =
    Resolved [{| messages := {[ "k" := "<" ]}; originalFilePath := "src/a";
                 language := "de" |}].
Proof. repeat split; reflexivity. Qed.

(* ===================================================================== *)
(** * 18. The entity escaper: what an encoded text holds *)
(* ===================================================================== *)

Lemma encodeChar_no_markup (c : ascii) :
  freeOf "<" (encodeChar c) = true /\ freeOf ">" (encodeChar c) = true.
Proof.
  unfold encodeChar.
  destruct (Ascii.eqb_spec c "<"); [split; reflexivity|].
  destruct (Ascii.eqb_spec c ">"); [split; reflexivity|].
  destruct (Ascii.eqb_spec c "&"); [split; reflexivity|].
  cbn [freeOf].
  destruct (Ascii.eqb_spec c "<"); [contradiction|].
  destruct (Ascii.eqb_spec c ">"); [contradiction|]. split; reflexivity.
Qed.

(** X1: the text [encodeEntities] returns holds neither [<] nor [>], whatever
    the text it is given. *)
Theorem encodeEntities_no_markup (s : string) :
  freeOf "<" (encodeEntities s) = true /\ freeOf ">" (encodeEntities s) = true.
Proof.
  induction s as [|c s [IH1 IH2]]; [split; reflexivity|].
  cbn [encodeEntities]. rewrite !freeOf_append, IH1, IH2.
  destruct (encodeChar_no_markup c) as [-> ->]. split; reflexivity.
Qed.

Lemma startsWith_free (a : ascii) (p s : string) :
  freeOf a s = true -> startsWith s (String a p) = false.
Proof.
  destruct s as [|b s]; [reflexivity|]. cbn. 
  destruct (Ascii.eqb b a); [discriminate | reflexivity].
Qed.

Lemma replaceAll_free (a : ascii) (p rep s : string) :
  freeOf a s = true -> replaceAll (String a p) rep s = s.
Proof.
  induction s as [|b s IH]; intros H; [reflexivity|].
  rewrite replaceAll_keep by (apply startsWith_free, H).
  cbn [freeOf] in H. apply andb_true_iff in H as [_ H]. rewrite (IH H). reflexivity.
Qed.

(** X2: [decodeEntities] returns a text that holds no [&] as it is. *)
Theorem decodeEntities_plain (s : string) :
  freeOf "&" s = true -> decodeEntities s = s.
Proof.
  intros H. unfold decodeEntities.
  rewrite (replaceAll_free "&" "lt;" "<" s H).
  rewrite (replaceAll_free "&" "gt;" ">" s H).
  apply (replaceAll_free "&" "amp;" "&" s H).
Qed.

(** A text with a bracket and no ampersand. *)
Lemma decodeEntities_plain_witness :
  freeOf "&" "a < b" = true /\ decodeEntities "a < b" = "a < b".
Proof. split; [reflexivity | apply decodeEntities_plain; reflexivity]. Defined.

(** X3: [encodeEntities] is injective: two texts with the same encoding are
    the same text. *)
Theorem encodeEntities_injective (s t : string) :
  encodeEntities s = encodeEntities t -> s = t.
Proof.
  intros H. rewrite <- (decodeEntities_encodeEntities s), <- (decodeEntities_encodeEntities t).
  rewrite H. reflexivity.
Qed.

(** The encoding of [a&b]. *)
Lemma encodeEntities_injective_witness :
  encodeEntities "a&b" = encodeEntities "a&b" /\ "a&b" = "a&b".
Proof. split; [reflexivity | apply encodeEntities_injective; reflexivity]. Defined.

(* ===================================================================== *)
(** * 19. Adding a file: the table of files and the stored items *)
(* ===================================================================== *)

Lemma strictEq_refl (k : Key) : strictEq k k = true.
Proof. destruct k; cbn; [apply String.eqb_refl | apply Nat.eqb_refl]. Qed.

Lemma indexOf_elem (keys : list Key) (key : Key) :
  key ∈ keys -> exists i, indexOf keys key = Some i /\ i < length keys.
Proof.
  induction keys as [|k keys IH]; intros Hin; [apply elem_of_nil in Hin; contradiction|].
  cbn [indexOf length]. destruct (strictEq k key) eqn:E.
  - exists 0. split; [reflexivity | lia].
  - apply elem_of_cons in Hin as [->|Hin]; [rewrite strictEq_refl in E; discriminate|].
    destruct (IH Hin) as (i & -> & Hi). exists (S i). split; [reflexivity | lia].
Qed.

Lemma addFile_loop_returns (keys : list Key) (messages : list string) :
  length keys <= length messages ->
  forall (todo existingKeys : list Key) (items : list Item),
    (forall k, k ∈ todo -> k ∈ keys) ->
    (addFile_loop keys messages todo existingKeys items).2 = Normal tt.
Proof.
  intros Hlen todo. induction todo as [|key todo IH]; intros existingKeys items Hsub;
    [reflexivity|].
  cbn [addFile_loop].
  assert (Hrest : forall k, k ∈ todo -> k ∈ keys) by (intros k Hk; apply Hsub; set_solver).
  destruct (indexOf existingKeys key); [apply IH, Hrest|].
  destruct (indexOf_elem keys key) as (i & -> & Hi); [apply Hsub; set_solver|].
  cbn. destruct (lookup_lt_is_Some_2 messages i ltac:(lia)) as [m ->].
  apply IH, Hrest.
Qed.

Lemma addFile_snd (original : string) (keys : list Key) (messages : list string)
    (x : XLF) :
  length keys <= length messages ->
  exists x', addFile original keys messages x = (x', Normal tt).
Proof.
  intros Hlen. unfold addFile.
  pose proof (addFile_loop_returns keys messages Hlen keys [] [] (fun k H => H)) as H.
  destruct (addFile_loop keys messages keys [] []) as [items c].
  cbn [snd] in H. subst c. eauto.
Qed.

(** X4: when there are at least as many messages as keys, [addFile] returns,
    whatever the keys are (strings, objects with or without comments,
    repeated keys). *)
Theorem addFile_returns (original : string) (keys : list Key) (messages : list string)
    (x : XLF) :
  length keys <= length messages ->
  (addFile original keys messages x).2 = Normal tt.
Proof.
  intros Hlen. unfold addFile.
  pose proof (addFile_loop_returns keys messages Hlen keys [] [] (fun k H => H)) as H.
  destruct (addFile_loop keys messages keys [] []) as [items c]. exact H.
Qed.

(** A string key and an object key with three messages. *)
Lemma addFile_returns_witness :
  length [KeyString "a"; KeyInfo 0 {| li_key := "b"; li_comment := None |}] <=
    length ["m1"; "m2"; "m3"] /\
  (addFile "src/a" [KeyString "a"; KeyInfo 0 {| li_key := "b"; li_comment := None |}]
     ["m1"; "m2"; "m3"] (newXLF "p")).2 = Normal tt.
Proof. split; [simpl; lia | apply addFile_returns; simpl; lia]. Defined.

(* positional *)
Lemma zip_with_snoc {A B C} (f : A -> B -> C) (l : list A) (a : A) (k : list B) (b : B) :
  k !! length l = Some b ->
  zip_with f (l ++ [a]) k = zip_with f l k ++ [f a b].
Proof.
  revert k. induction l as [|x l IH]; intros [|y k] H; cbn in *; try discriminate.
  - injection H as ->. destruct k; reflexivity.
  - rewrite (IH k H). reflexivity.
Qed.

Lemma zip_with_short {A B C} (f : A -> B -> C) (l l' : list A) (k : list B) :
  length k <= length l -> zip_with f (l ++ l') k = zip_with f l k.
Proof.
  revert k. induction l as [|x l IH]; intros [|y k] H; cbn in *; try reflexivity; try lia.
  - destruct l'; reflexivity.
  - rewrite IH by lia. reflexivity.
Qed.

Lemma indexOf_strings_NoDup (pre todo : list string) (k : string) :
  NoDup (pre ++ k :: todo) ->
  indexOf (map KeyString (pre ++ k :: todo)) (KeyString k) = Some (length pre).
Proof.
  intros Hnd.
  destruct (indexOf_strings_elem (pre ++ k :: todo) k) as [i Hi]; [set_solver|].
  rewrite Hi. f_equal.
  apply indexOf_strings_Some in Hi as [Hi _].
  eapply NoDup_lookup; [exact Hnd | exact Hi|].
  rewrite lookup_app_r by lia. rewrite Nat.sub_diag. reflexivity.
Qed.

Lemma addFile_loop_positional (ks ms : list string) :
  NoDup ks ->
  forall (todo pre : list string),
    ks = pre ++ todo ->
    length pre <= length ms ->
    addFile_loop (map KeyString ks) ms (map KeyString todo) (map KeyString pre)
      (zip_with plainItem pre ms) =
    (zip_with plainItem ks ms,
     if length ks <=? length ms then Normal tt else Throw typeErrorLength).
Proof.
  intros Hnd todo. induction todo as [|k todo IH]; intros pre Hks Hpre.
  - rewrite app_nil_r in Hks. subst pre. cbn [map addFile_loop].
    destruct (Nat.leb_spec (length ks) (length ms)); [reflexivity | lia].
  - cbn [map addFile_loop].
    assert (Hfresh : k ∉ pre).
    { rewrite Hks in Hnd. apply NoDup_app in Hnd as (_ & Hdisj & _).
      intros Hin. apply (Hdisj k Hin). set_solver. }
    apply indexOf_strings_None in Hfresh. rewrite Hfresh.
    rewrite Hks at 1. rewrite indexOf_strings_NoDup by (rewrite <- Hks; exact Hnd).
    cbn [mbind option_bind].
    destruct (ms !! length pre) as [m|] eqn:Hm.
    + specialize (IH (pre ++ [k])). rewrite map_app in IH. cbn [map] in IH.
      rewrite (zip_with_snoc plainItem pre k ms m Hm) in IH.
      apply IH.
      * rewrite <- app_assoc. exact Hks.
      * rewrite length_app. cbn. apply lookup_lt_Some in Hm. lia.
    + apply lookup_ge_None in Hm.
      rewrite Hks. rewrite (zip_with_short plainItem pre (k :: todo) ms Hm).
      rewrite length_app. cbn [length].
      destruct (Nat.leb_spec (length pre + S (length todo)) (length ms)); [lia | reflexivity].
Qed.

Lemma addFile_loop_distinct (ks ms : list string) :
  NoDup ks ->
  addFile_loop (map KeyString ks) ms (map KeyString ks) [] [] =
  (zip_with plainItem ks ms,
   if length ks <=? length ms then Normal tt else Throw typeErrorLength).
Proof.
  intros Hnd.
  pose proof (addFile_loop_positional ks ms Hnd ks [] eq_refl ltac:(cbn; lia)) as H.
  cbn [map zip_with] in H. exact H.
Qed.

(** X5: for string keys that are pairwise different, [addFile] stores under
    the path the items made of the [i]-th key and the encoded [i]-th
    message, in the order of the keys and as far as there are messages, and
    it raises exactly when there are more keys than messages. *)
Theorem addFile_distinct_keys (original : string) (ks ms : list string) (x : XLF) :
  NoDup ks ->
  addFile original (map KeyString ks) ms x =
  (withFiles x (obj_set original (zip_with plainItem ks ms) (files x)),
   if length ks <=? length ms then Normal tt else Throw typeErrorLength).
Proof.
  intros Hnd. unfold addFile.
  rewrite (addFile_loop_distinct ks ms Hnd). reflexivity.
Qed.

(** Three keys and two messages: two items are stored, then the call raises. *)
Lemma addFile_distinct_keys_witness :
  NoDup ["a"; "b"; "c"] /\
  addFile "src/a" (map KeyString ["a"; "b"; "c"]) ["x"; "y"] (newXLF "p") =
  (withFiles (newXLF "p")
     (obj_set "src/a" (zip_with plainItem ["a"; "b"; "c"] ["x"; "y"]) (files (newXLF "p"))),
   if length ["a"; "b"; "c"] <=? length ["x"; "y"] then Normal tt
   else Throw typeErrorLength).
Proof.
  assert (H : NoDup ["a"; "b"; "c"]) by (apply (bool_decide_unpack _); vm_compute; exact I).
  split; [exact H | apply addFile_distinct_keys, H].
Defined.

Lemma obj_get_set_ne {V} (k k' : string) (v : V) (o : list (string * V)) :
  k <> k' -> obj_get k' (obj_set k v o) = obj_get k' o.
Proof.
  intros Hne. induction o as [|[a w] o IH]; cbn.
  - destruct (String.eqb_spec k k'); [contradiction | reflexivity].
  - destruct (String.eqb_spec a k) as [->|Ha]; cbn.
    + destruct (String.eqb_spec k k'); [contradiction | reflexivity].
    + rewrite IH. reflexivity.
Qed.

Lemma obj_set_present {V} (k : string) (v : V) (o : list (string * V)) :
  is_Some (obj_get k o) -> map fst (obj_set k v o) = map fst o.
Proof.
  induction o as [|[a w] o IH]; cbn; [intros [? ?]; discriminate|].
  destruct (String.eqb_spec a k) as [->|Ha]; cbn; [reflexivity|].
  intros H. rewrite (IH H). reflexivity.
Qed.

Lemma obj_set_absent {V} (k : string) (v : V) (o : list (string * V)) :
  obj_get k o = None -> obj_set k v o = o ++ [(k, v)].
Proof.
  induction o as [|[a w] o IH]; cbn; [reflexivity|].
  destruct (String.eqb_spec a k) as [->|Ha]; [discriminate|].
  intros H. rewrite (IH H). reflexivity.
Qed.

Lemma obj_get_None {V} (k : string) (o : list (string * V)) :
  obj_get k o = None -> k ∉ map fst o.
Proof.
  induction o as [|[a w] o IH]; cbn; [intros _; apply not_elem_of_nil|].
  destruct (String.eqb_spec a k) as [->|Ha]; [discriminate|].
  intros H. apply not_elem_of_cons. split; [congruence | apply IH, H].
Qed.

Lemma obj_set_NoDup {V} (k : string) (v : V) (o : list (string * V)) :
  NoDup (map fst o) -> NoDup (map fst (obj_set k v o)).
Proof.
  intros Hnd. destruct (obj_get k o) as [w|] eqn:E.
  - rewrite obj_set_present by (rewrite E; eauto). exact Hnd.
  - rewrite (obj_set_absent k v o E), map_app. cbn.
    apply NoDup_app. split; [exact Hnd|]. split; [|apply NoDup_singleton].
    intros a Ha ->%list_elem_of_singleton. apply (obj_get_None _ _ E), Ha.
Qed.

(** X6: [addFile] keeps the paths of the table pairwise different; it leaves
    the items of every other path alone; a path that is already there keeps
    its place, a new one goes to the end; the items of the path are those of
    this call only; the project and the buffer do not change. *)
Theorem addFile_keeps_paths_apart (original : string) (keys : list Key)
    (messages : list string) (x : XLF) :
  NoDup (map fst (files x)) ->
  NoDup (map fst (files (addFile original keys messages x).1)) /\
  (forall p, p <> original ->
     obj_get p (files (addFile original keys messages x).1) = obj_get p (files x)) /\
  (is_Some (obj_get original (files x)) ->
     map fst (files (addFile original keys messages x).1) = map fst (files x)) /\
  (obj_get original (files x) = None ->
     map fst (files (addFile original keys messages x).1) = map fst (files x) ++ [original]) /\
  obj_get original (files (addFile original keys messages x).1) =
    Some (addFile_loop keys messages keys [] []).1 /\
  project (addFile original keys messages x).1 = project x /\
  buffer (addFile original keys messages x).1 = buffer x.
Proof.
  intros Hnd. unfold addFile.
  destruct (addFile_loop keys messages keys [] []) as [items c]. cbn [fst snd files project buffer].
  split; [apply obj_set_NoDup, Hnd|].
  split; [intros p Hp; apply obj_get_set_ne; congruence|].
  split; [apply obj_set_present|].
  split; [intros H; rewrite (obj_set_absent _ _ _ H), map_app; reflexivity|].
  split; [apply obj_get_set | split; reflexivity].
Qed.

(** Adding a file to the empty document. *)
Lemma addFile_keeps_paths_apart_witness :
  NoDup (map fst (files (newXLF "p"))) /\
  NoDup (map fst (files (addFile "src/a" [KeyString "k"] ["m"] (newXLF "p")).1)).
Proof.
  assert (H : NoDup (map fst (files (newXLF "p")))) by apply NoDup_nil_2.
  split; [exact H|].
  exact (proj1 (addFile_keeps_paths_apart "src/a" [KeyString "k"] ["m"] (newXLF "p") H)).
Defined.

Lemma markupFree_append (s t : string) :
  markupFree (s +:+ t) = markupFree s && markupFree t.
Proof.
  unfold markupFree. rewrite !freeOf_append.
  destruct (freeOf "<" s), (freeOf "<" t), (freeOf ">" s), (freeOf ">" t); reflexivity.
Qed.

Lemma markupFree_encodeEntities (s : string) : markupFree (encodeEntities s) = true.
Proof.
  induction s as [|c s IH]; [reflexivity|].
  cbn [encodeEntities]. rewrite markupFree_append, IH.
  unfold markupFree. destruct (encodeChar_no_markup c) as [-> ->]. reflexivity.
Qed.

Lemma markupFree_join (sep : string) (parts : list string) :
  markupFree sep = true ->
  Forall (fun p => markupFree p = true) parts ->
  markupFree (js_join sep parts) = true.
Proof.
  intros Hsep Hall. induction Hall as [|p parts Hp Hall IH]; [reflexivity|].
  destruct parts as [|q parts]; [exact Hp|].
  change (js_join sep (p :: q :: parts)) with (p +:+ sep +:+ js_join sep (q :: parts)).
  rewrite !markupFree_append, Hp, Hsep, IH. reflexivity.
Qed.

Lemma itemOf_markupFree (key : Key) (m : string) :
  itemMarkupFree (itemOf key (encodeEntities m)) = true.
Proof.
  unfold itemMarkupFree. destruct key as [s|ref info]; cbn [itemOf item_message item_comment].
  - rewrite markupFree_encodeEntities. reflexivity.
  - rewrite markupFree_encodeEntities. cbn [andb].
    destruct (li_comment info) as [[|c cs]|]; try reflexivity.
    apply markupFree_join; [reflexivity|].
    generalize (c :: cs). intros l. induction l as [|q l IH]; constructor;
      [apply markupFree_encodeEntities | exact IH].
Qed.

Lemma addFile_loop_markupFree (keys : list Key) (messages : list string) :
  forall (todo existingKeys : list Key) (items : list Item),
    Forall (fun item => itemMarkupFree item = true) items ->
    Forall (fun item => itemMarkupFree item = true)
      (addFile_loop keys messages todo existingKeys items).1.
Proof.
  intros todo. induction todo as [|key todo IH]; intros existingKeys items Hitems;
    [exact Hitems|].
  cbn [addFile_loop].
  destruct (indexOf existingKeys key); [apply IH, Hitems|].
  destruct (indexOf keys key ≫= (λ i : nat, messages !! i)) as [m|]; [|exact Hitems].
  apply IH. apply Forall_app. split; [exact Hitems|].
  apply Forall_singleton, itemOf_markupFree.
Qed.

(** X7: whatever [addFile] is given, and whether it returns or raises, the
    items it leaves under the path have no [<] and no [>] in their message
    and in their comment. *)
Theorem addFile_stores_escaped_text (original : string) (keys : list Key)
    (messages : list string) (x : XLF) :
  exists items,
    obj_get original (files (addFile original keys messages x).1) = Some items /\
    Forall (fun item => itemMarkupFree item = true) items.
Proof.
  exists (addFile_loop keys messages keys [] []).1. unfold addFile.
  pose proof (addFile_loop_markupFree keys messages keys [] [] (Forall_nil_2 _)) as H.
  destruct (addFile_loop keys messages keys [] []) as [items c]. cbn [fst files] in *.
  split; [apply obj_get_set | exact H].
Qed.

(* ===================================================================== *)
(** * 20. Resource classification: the name of a resource *)
(* ===================================================================== *)

Lemma js_split_cons (sep : ascii) (s : string) :
  exists hd tl, js_split sep s = hd :: tl.
Proof.
  destruct s as [|c s]; cbn; [eauto|].
  destruct (Ascii.eqb c sep); [eauto|]. destruct (js_split sep s); eauto.
Qed.

Lemma js_join_String (sep : string) (a : ascii) (hd : string) (tl : list string) :
  js_join sep (String a hd :: tl) = String a (js_join sep (hd :: tl)).
Proof. destruct tl; reflexivity. Qed.

Lemma js_join_empty_head (c : ascii) (l : list string) :
  l <> [] -> js_join (String c EmptyString) (EmptyString :: l) =
             String c (js_join (String c EmptyString) l).
Proof. destruct l; [congruence | reflexivity]. Qed.

(** Joining the first pieces of a split gives a prefix of the string. *)
Lemma join_firstn_split_prefix (c : ascii) (s : string) :
  forall n, startsWith s (js_join (String c EmptyString) (firstn n (js_split c s))) = true.
Proof.
  induction s as [|a s IH]; intros n.
  - destruct n as [|[|n]]; reflexivity.
  - cbn [js_split]. destruct (Ascii.eqb_spec a c) as [->|Hne].
    + destruct n as [|n]; [reflexivity|]. cbn [firstn].
      destruct (firstn n (js_split c s)) as [|p l] eqn:E; [reflexivity|].
      rewrite js_join_empty_head by discriminate.
      cbn [startsWith]. rewrite Ascii.eqb_refl, <- E. apply IH.
    + destruct (js_split_cons c s) as (hd & tl & E). rewrite E.
      destruct n as [|n]; [reflexivity|]. cbn [firstn].
      rewrite js_join_String. cbn [startsWith]. rewrite Ascii.eqb_refl.
      specialize (IH (S n)). rewrite E in IH. exact IH.
Qed.

Lemma knownPrefix_true (s p : string) :
  In p knownPrefixes -> startsWith s p = true -> knownPrefix s = true.
Proof.
  intros Hin Hp. unfold knownPrefix. apply existsb_exists. exists p. auto.
Qed.

(** X8: when [getResource] returns a resource, the name of the resource is a
    prefix of the path, the path starts with one of the known prefixes, and
    the project is the editor or the workbench project. *)
Theorem getResource_name_is_prefix (sourceFile : string) (r : Resource) :
  getResource sourceFile = Normal r ->
  startsWith sourceFile (name r) = true /\
  knownPrefix sourceFile = true /\
  (res_project r = editorProject \/ res_project r = workbenchProject).
Proof.
  unfold getResource.
  repeat match goal with
         | |- context [if startsWith sourceFile ?p then _ else _] =>
             let E := fresh "E" in destruct (startsWith sourceFile p) eqn:E
         end; intros [= <-]; cbn [name res_project];
    (split; [first [assumption | apply (join_firstn_split_prefix "/")]|]);
    (split; [eapply knownPrefix_true; [|eassumption]; cbn; tauto | auto]).
Qed.

(** A path below [vs/workbench/parts]. *)
Lemma getResource_name_is_prefix_witness :
  getResource "vs/workbench/parts/search/browser/x" =
    Normal {| name := "vs/workbench/parts/search"; res_project := workbenchProject |} /\
  startsWith "vs/workbench/parts/search/browser/x" "vs/workbench/parts/search" = true.
Proof.
  assert (H : getResource "vs/workbench/parts/search/browser/x" =
    Normal {| name := "vs/workbench/parts/search"; res_project := workbenchProject |})
    by reflexivity.
  split; [exact H | exact (proj1 (getResource_name_is_prefix _ _ H))].
Defined.

Lemma startsWith_trans (s n q : string) :
  startsWith s n = true -> startsWith n q = true -> startsWith s q = true.
Proof.
  revert s n. induction q as [|b q IH]; intros s n Hsn Hnq; [reflexivity|].
  destruct n as [|a n]; [discriminate|]. destruct s as [|d s]; [discriminate|].
  cbn in *. apply andb_true_iff in Hsn as [H1 H2]. apply andb_true_iff in Hnq as [H3 H4].
  apply Ascii.eqb_eq in H1, H3. subst. rewrite Ascii.eqb_refl. cbn. eapply IH; eassumption.
Qed.

Lemma js_split_segments (c : ascii) (s : string) :
  Forall (fun p => freeOf c p = true) (js_split c s).
Proof.
  induction s as [|a s IH]; cbn [js_split]; [repeat constructor|].
  destruct (Ascii.eqb a c) eqn:E; [constructor; [reflexivity | exact IH]|].
  destruct (js_split c s) as [|hd tl]; [repeat constructor; cbn; rewrite E; reflexivity|].
  apply Forall_cons in IH as [Hhd Htl]. constructor; [|exact Htl].
  cbn [freeOf]. rewrite E, Hhd. reflexivity.
Qed.

Lemma js_split_join (c : ascii) (l : list string) :
  l <> [] ->
  Forall (fun p => freeOf c p = true) l ->
  js_split c (js_join (String c EmptyString) l) = l.
Proof.
  intros Hne Hall. induction Hall as [|p l Hp Hall IH]; [congruence|].
  destruct l as [|q l].
  - cbn [js_join]. clear IH Hne Hall.
    induction p as [|a p IHp]; [reflexivity|].
    cbn [freeOf] in Hp. apply andb_true_iff in Hp as [Ha Hp].
    apply negb_true_iff in Ha. cbn [js_split]. rewrite Ha, (IHp Hp). reflexivity.
  - change (js_join (String c EmptyString) (p :: q :: l))
      with (p +:+ String c (js_join (String c EmptyString) (q :: l))).
    rewrite js_split_key by exact Hp. rewrite IH by discriminate. reflexivity.
Qed.

(** A prefix with fewer than [n] separators is a prefix of the first [n] pieces. *)
Lemma join_firstn_split_covers (c : ascii) (s : string) :
  forall (n : nat) (p : string),
    startsWith s p = true ->
    countChar c p < n ->
    startsWith (js_join (String c EmptyString) (firstn n (js_split c s))) p = true.
Proof.
  induction s as [|a s IH]; intros n p Hp Hn.
  - destruct p; [reflexivity | discriminate].
  - destruct p as [|b p]; [reflexivity|].
    cbn [startsWith] in Hp. apply andb_true_iff in Hp as [Hab Hp].
    apply Ascii.eqb_eq in Hab. subst b.
    cbn [countChar] in Hn. cbn [js_split].
    destruct (Ascii.eqb a c) eqn:E.
    + apply Ascii.eqb_eq in E. subst a.
      destruct n as [|m]; [lia|]. cbn [firstn].
      destruct (js_split_cons c s) as (hd & tl & Es).
      destruct m as [|m]; [lia|].
      specialize (IH (S m) p Hp ltac:(lia)).
      rewrite Es in *. cbn [firstn] in *.
      rewrite js_join_empty_head by discriminate.
      cbn [startsWith]. rewrite Ascii.eqb_refl. exact IH.
    + destruct (js_split_cons c s) as (hd & tl & Es). rewrite Es.
      destruct n as [|m]; [lia|]. cbn [firstn].
      rewrite js_join_String. cbn [startsWith]. rewrite Ascii.eqb_refl.
      specialize (IH (S m) p Hp ltac:(cbn in Hn; lia)). rewrite Es in IH. exact IH.
Qed.

Lemma firstn_split_nonempty (c : ascii) (s : string) (n : nat) :
  firstn (S n) (js_split c s) <> [].
Proof. destruct (js_split_cons c s) as (hd & tl & ->). discriminate. Qed.

Lemma cut_name_stable (s : string) :
  js_join "/" (split_limit "/" 4 (js_join "/" (split_limit "/" 4 s))) =
  js_join "/" (split_limit "/" 4 s).
Proof.
  unfold split_limit.
  rewrite (js_split_join "/").
  - rewrite firstn_firstn. reflexivity.
  - apply firstn_split_nonempty.
  - apply Forall_take, js_split_segments.
Qed.

Lemma cut_name_segments (s : string) :
  length (js_split "/" (js_join "/" (split_limit "/" 4 s))) <= 4.
Proof.
  unfold split_limit. rewrite (js_split_join "/").
  - rewrite length_firstn. lia.
  - apply firstn_split_nonempty.
  - apply Forall_take, js_split_segments.
Qed.

Ltac not_earlier s :=
  repeat match goal with
         | E : startsWith s ?q = false |- context [startsWith ?n ?q] =>
             let F := fresh "F" in
             destruct (startsWith n q) eqn:F;
             [ assert (startsWith s q = true)
                 by (eapply startsWith_trans; [|exact F]; apply (join_firstn_split_prefix "/"));
               congruence
             | clear E ]
         end.

(** X9: the name of a resource is classified as that resource again, and it
    has at most four segments. *)
Theorem getResource_idempotent (sourceFile : string) (r : Resource) :
  getResource sourceFile = Normal r ->
  getResource (name r) = Normal r /\ length (js_split "/" (name r)) <= 4.
Proof.
  unfold getResource at 1.
  repeat match goal with
         | |- context [if startsWith sourceFile ?p then _ else _] =>
             let E := fresh "E" in destruct (startsWith sourceFile p) eqn:E
         end; intros [= <-]; cbn [name]; try (split; [reflexivity | cbn; lia]).
  - split; [|apply cut_name_segments].
    unfold getResource.
    assert (Hcov : startsWith (js_join "/" (split_limit "/" 4 sourceFile))
                     "vs/workbench/parts" = true)
      by (apply (join_firstn_split_covers "/"); [assumption | cbn; lia]).
    not_earlier sourceFile. rewrite Hcov, cut_name_stable. reflexivity.
  - split; [|apply cut_name_segments].
    unfold getResource.
    assert (Hcov : startsWith (js_join "/" (split_limit "/" 4 sourceFile))
                     "vs/workbench/services" = true)
      by (apply (join_firstn_split_covers "/"); [assumption | cbn; lia]).
    not_earlier sourceFile. rewrite Hcov, cut_name_stable. reflexivity.
Qed.

(** The resource of a path below [vs/workbench/services]. *)
Lemma getResource_idempotent_witness :
  getResource "vs/workbench/services/files/node/x" =
    Normal {| name := "vs/workbench/services/files"; res_project := workbenchProject |} /\
  getResource "vs/workbench/services/files" =
    Normal {| name := "vs/workbench/services/files"; res_project := workbenchProject |}.
Proof.
  assert (H : getResource "vs/workbench/services/files/node/x" =
    Normal {| name := "vs/workbench/services/files"; res_project := workbenchProject |})
    by reflexivity.
  split; [exact H | exact (proj1 (getResource_idempotent _ _ H))].
Defined.

(* ===================================================================== *)
(** * 21. The bundle import: all or nothing *)
(* ===================================================================== *)

Lemma importBundleJson_sources_emits_nothing (relative : string) (json : BundledFormat)
    (sources : list (string * list Key)) :
  forall (bundleXlfs : list (string * XLF)) (evs : list Event),
    emitted (importBundleJson_sources relative json sources bundleXlfs evs).1.2 = emitted evs.
Proof.
  induction sources as [|[source keys] rest IH]; intros bundleXlfs evs; [reflexivity|].
  cbn [importBundleJson_sources].
  destruct (getResource source) as [res|e]; [|reflexivity].
  destruct (obj_get source (bf_messages json)) as [messages|]; [|reflexivity].
  set (evs1 := if Nat.eqb (length keys) (length messages) then evs
               else evs ++ [Log "Error:" (mismatchMessage relative)]).
  assert (Hev : emitted evs1 = emitted evs).
  { unfold evs1. destruct (Nat.eqb (length keys) (length messages)); [reflexivity|].
    rewrite emitted_app. cbn. apply app_nil_r. }
  destruct (addFile source keys messages _) as [xlf1 [[]|e]]; cbn [fst snd].
  - rewrite IH. exact Hev.
  - exact Hev.
Qed.

Lemma getResource_Normal_known (sourceFile : string) (r : Resource) :
  getResource sourceFile = Normal r -> knownPrefix sourceFile = true.
Proof.
  intros H. destruct (knownPrefix sourceFile) eqn:E; [reflexivity|].
  rewrite (getResource_unknown sourceFile E) in H. discriminate.
Qed.

Lemma importBundleJson_sources_returns (relative : string) (json : BundledFormat)
    (sources : list (string * list Key)) :
  forall (bundleXlfs : list (string * XLF)) (evs : list Event),
    (importBundleJson_sources relative json sources bundleXlfs evs).2 = Normal tt ->
    Forall (fun kv => knownPrefix (fst kv) = true /\
                      is_Some (obj_get (fst kv) (bf_messages json))) sources.
Proof.
  induction sources as [|[source keys] rest IH]; intros bundleXlfs evs; [constructor|].
  cbn [importBundleJson_sources].
  destruct (getResource source) as [res|e] eqn:Eres; [|discriminate].
  destruct (obj_get source (bf_messages json)) as [messages|] eqn:Emsg; [|discriminate].
  destruct (addFile source keys messages _) as [xlf1 [[]|e]]; cbn [fst snd]; [|discriminate].
  intros H. constructor; [|eapply IH, H].
  cbn [fst]. split; [|rewrite Emsg; eauto].
  apply (getResource_Normal_known _ _ Eres).
Qed.

(** X10: when [importBundleJson] raises it has emitted no file; when it
    returns, every source of the bundle starts with a known prefix and has
    an entry in the messages. *)
Theorem importBundleJson_all_or_nothing (relative : string) (json : BundledFormat) :
  match (importBundleJson relative json).2 with
  | Throw _ => emitted (importBundleJson relative json).1 = []
  | Normal _ =>
      Forall (fun kv => knownPrefix (fst kv) = true /\
                        is_Some (obj_get (fst kv) (bf_messages json)))
             (for_in (bf_keys json))
  end.
Proof.
  unfold importBundleJson.
  pose proof (importBundleJson_sources_emits_nothing relative json
                (for_in (bf_keys json)) [] []) as Hev.
  pose proof (importBundleJson_sources_returns relative json
                (for_in (bf_keys json)) [] []) as Hret.
  destruct (importBundleJson_sources relative json (for_in (bf_keys json)) [] [])
    as [[bundleXlfs evs] [[]|e]]; cbn [fst snd] in *.
  - apply Hret. reflexivity.
  - exact Hev.
Qed.

(* ===================================================================== *)
(** * 22. Module and package files: interleaved extensions, stored items *)
(* ===================================================================== *)

(** A call leaves the entries of the other groups as they are, whether it returns or raises. *)
Lemma contribute_other_group (c : Contribution) (e : string)
    (extensions : gmap string Extension) :
  groupName c <> e ->
  (contribute c extensions).1.1 !! e = extensions !! e.
Proof.
  unfold contribute, importModuleOrPackageJson, groupName.
  destruct (groupOf (c_relative c) (c_extensionName c)) as [[extName pattern] orig].
  cbn [fst snd]. intros Hne.
  match goal with
  | |- context [let '(_, _) := ?a in _] => destruct a as [xlf1 [[]|err]]
  end; cbn [fst snd].
  - destruct (Nat.eqb _ _); [destruct (toString xlf1)|]; cbn [fst snd];
      apply lookup_insert_ne; exact Hne.
  - apply lookup_insert_ne; exact Hne.
Qed.

Lemma processedOf_other_group (c : Contribution) (e : string)
    (extensions : gmap string Extension) :
  groupName c <> e ->
  processedOf e (contribute c extensions).1.1 = processedOf e extensions.
Proof.
  intros Hne. unfold processedOf. rewrite contribute_other_group by exact Hne. reflexivity.
Qed.

Lemma feed_emissions (N : nat) (e : string) (calls : list Contribution) :
  forall extensions : gmap string Extension,
    Forall (fun c => groupName c = e -> expectedCount c = N) calls ->
    (feed calls extensions).2 = Normal tt ->
    length (emittedFor e calls (feed calls extensions).1.2) =
      (if (processedOf e extensions <? N) &&
          (N <=? processedOf e extensions + callsOf e calls)
       then 1 else 0) /\
    processedOf e (feed calls extensions).1.1 = processedOf e extensions + callsOf e calls.
Proof.
  induction calls as [|c rest IH]; intros extensions Hall Hret.
  - unfold emittedFor, callsOf. cbn [feed fst snd zip_with concat List.filter length].
    split; [|lia].
    destruct (Nat.ltb_spec (processedOf e extensions) N),
      (Nat.leb_spec N (processedOf e extensions + 0)); cbn [andb]; try reflexivity; lia.
  - apply Forall_cons in Hall as [Hc Hall].
    destruct (feed_cons c rest extensions Hret) as [Hret1 Hfeed].
    rewrite Hfeed in Hret |- *. cbn [fst snd] in Hret |- *.
    destruct (IH (contribute c extensions).1.1 Hall Hret) as [IHlen IHp].
    unfold emittedFor in *. cbn [zip_with concat]. rewrite length_app, IHlen, IHp.
    unfold callsOf. cbn [List.filter].
    destruct (String.eqb_spec (groupName c) e) as [Hg|Hg].
    + cbn [length].
      destruct (contribute_returns c extensions Hret1) as [Hp Hemit].
      rewrite Hg in Hp, Hemit. rewrite (Hc Hg) in Hemit. rewrite Hp.
      set (p := processedOf e extensions) in *.
      set (k := length (List.filter (fun c0 => String.eqb (groupName c0) e) rest)) in *.
      split; [|lia].
      destruct Hemit as [[Heq (f & -> & _)]|[Hne ->]]; cbn [length];
        destruct (Nat.ltb_spec (S p) N), (Nat.leb_spec N (S p + k)),
          (Nat.ltb_spec p N), (Nat.leb_spec N (p + S k)); cbn; lia.
    + rewrite processedOf_other_group by exact Hg. cbn [length]. split; lia.
Qed.

(** X14: when the calls of an extension that is new to the table come mixed
    with calls of other extensions, all returning, the calls of that
    extension emit one file when there are at least as many of them as the
    count they read, and none otherwise. *)
Theorem feed_group_emits_once (N : nat) (e : string) (calls : list Contribution)
    (extensions : gmap string Extension) :
  0 < N ->
  extensions !! e = None ->
  Forall (fun c => groupName c = e -> expectedCount c = N) calls ->
  (feed calls extensions).2 = Normal tt ->
  length (emittedFor e calls (feed calls extensions).1.2) =
    (if N <=? callsOf e calls then 1 else 0).
Proof.
  intros HN Hnew Hall Hret.
  destruct (feed_emissions N e calls extensions Hall Hret) as [Hlen _].
  rewrite Hlen. unfold processedOf. rewrite Hnew. cbn [Nat.add].
  destruct (Nat.ltb_spec 0 N); [reflexivity | lia].
Qed.

(** Three files of [ext1] with a file of [ext2] in between. *)
Lemma feed_group_emits_once_witness :
  0 < 2 /\
  (∅ : gmap string Extension) !! "ext1" = None /\
  Forall (fun c => groupName c = "ext1" -> expectedCount c = 2) mixedCalls /\
  (feed mixedCalls ∅).2 = Normal tt /\
  length (emittedFor "ext1" mixedCalls (feed mixedCalls ∅).1.2) =
    (if 2 <=? callsOf "ext1" mixedCalls then 1 else 0).
Proof.
  assert (H1 : 0 < 2) by lia.
  assert (H2 : (∅ : gmap string Extension) !! "ext1" = None) by reflexivity.
  assert (H3 : Forall (fun c => groupName c = "ext1" -> expectedCount c = 2) mixedCalls).
  { repeat constructor; vm_compute; discriminate. }
  assert (H4 : (feed mixedCalls ∅).2 = Normal tt) by (vm_compute; reflexivity).
  repeat (split; [assumption|]).
  exact (feed_group_emits_once 2 "ext1" mixedCalls ∅ H1 H2 H3 H4).
Defined.

Lemma insertIndexed_Permutation {V} (n : N) (kv : string * V)
    (l : list (N * (string * V))) :
  map snd (insertIndexed n kv l) ≡ₚ kv :: map snd l.
Proof.
  induction l as [|[m kv'] l IH]; cbn; [reflexivity|].
  destruct (n <? m)%N; cbn; [reflexivity|].
  rewrite IH. apply Permutation_swap.
Qed.

(** Enumeration visits every property once. *)
Lemma for_in_Permutation {V} (o : list (string * V)) : for_in o ≡ₚ o.
Proof.
  unfold for_in. induction o as [|[k v] o IH]; cbn; [reflexivity|].
  destruct (arrayIndex k) as [n|].
  - rewrite insertIndexed_Permutation. cbn. rewrite IH. reflexivity.
  - rewrite <- Permutation_middle. rewrite IH. reflexivity.
Qed.

Lemma for_in_length {V} (o : list (string * V)) : length (for_in o) = length o.
Proof. apply Permutation_length, for_in_Permutation. Qed.

Lemma for_in_NoDup {V} (o : list (string * V)) :
  NoDup (map fst o) -> NoDup (map fst (for_in o)).
Proof.
  intros H.
  assert (P : map fst (for_in o) ≡ₚ map fst o) by apply Permutation_map, for_in_Permutation.
  rewrite P. exact H.
Qed.

Lemma toString_files (x : XLF) : files (toString x).2 = files x.
Proof. rewrite toString_buffer. reflexivity. Qed.

Lemma zip_with_map_both {A B C D} (f : B -> C -> D) (g : A -> B) (h : A -> C) (l : list A) :
  zip_with f (map g l) (map h l) = map (fun a => f (g a) (h a)) l.
Proof. induction l as [|a l IH]; cbn; [reflexivity | rewrite IH; reflexivity]. Qed.

(** X12: a package file, and a module file with at least as many messages as
    keys, is imported without raising, whatever the table of extensions
    holds. *)
Theorem contribute_well_formed_returns (c : Contribution)
    (extensions : gmap string Extension) :
  wellFormedJson (c_json c) ->
  (contribute c extensions).2 = Normal tt.
Proof.
  unfold contribute, importModuleOrPackageJson, wellFormedJson.
  destruct (groupOf (c_relative c) (c_extensionName c)) as [[extName pattern] orig].
  intros Hwf.
  match goal with
  | |- context [let '(_, _) := ?a in _] =>
      assert (Hadd : a.2 = Normal tt); [|destruct a as [xlf1 r]]
  end.
  - destruct (c_json c) as [keys messages|entries].
    + destruct (addFile_snd orig keys messages (xlf
        match extensions !! extName with
        | Some e => e
        | None => {| xlf := newXLF (c_projectName c); processed := 0 |}
        end) Hwf) as [x' ->]. reflexivity.
    + match goal with
      | |- (addFile ?o ?k ?m ?x).2 = _ =>
          destruct (addFile_snd o k m x ltac:(rewrite !length_map; lia)) as [x' ->]
      end. reflexivity.
  - cbn [snd] in Hadd. subst r.
    destruct (Nat.eqb _ _); [destruct (toString xlf1)|]; reflexivity.
Qed.

(** A package file imported into the empty table. *)
Lemma contribute_well_formed_returns_witness :
  wellFormedJson (c_json (packageCall 2 "ext1/a.nls.json")) /\
  (contribute (packageCall 2 "ext1/a.nls.json") ∅).2 = Normal tt.
Proof.
  assert (H : wellFormedJson (c_json (packageCall 2 "ext1/a.nls.json"))) by exact I.
  split; [exact H | exact (contribute_well_formed_returns _ ∅ H)].
Defined.

(** X13: after the import of a package file with pairwise different keys, the
    document of its extension holds, under the path of the file, one item
    for each entry in enumeration order: the key as id, the encoded result
    of [toString()] on the value as message, and no comment (for a value
    that is an object with a message and a comment, the message is the text
    [[object Object]]). *)
Theorem package_contribution_items (glob : string -> nat) (relative projectName : string)
    (extensionName : option string) (entries : list (string * PackageValue))
    (extensions : gmap string Extension) :
  NoDup (map fst entries) ->
  exists ext : Extension,
    (importModuleOrPackageJson glob relative (PackageJson entries) projectName
       extensionName extensions).1.1 !! (groupOf relative extensionName).1.1 = Some ext /\
    obj_get (groupOf relative extensionName).2 (files (xlf ext)) =
      Some (map packageItem (for_in entries)).
Proof.
  intros Hnd. unfold importModuleOrPackageJson.
  destruct (groupOf relative extensionName) as [[extName pattern] orig]. cbn [fst snd].
  set (extension := match extensions !! extName with
                    | Some e => e
                    | None => {| xlf := newXLF projectName; processed := 0 |}
                    end).
  pose proof (addFile_loop_distinct (map fst (for_in entries))
                (map (fun kv => packageValueToString (snd kv)) (for_in entries))
                (for_in_NoDup entries Hnd)) as Hadd.
  rewrite map_map in Hadd. unfold addFile. rewrite Hadd. rewrite !length_map, Nat.leb_refl.
  rewrite zip_with_map_both.
  change (fun a : string * PackageValue => plainItem (fst a) (packageValueToString (snd a)))
    with packageItem.
  destruct (Nat.eqb _ _).
  - destruct (toString _) as [text xlf2] eqn:Et. cbn [fst snd].
    rewrite lookup_insert_eq. eexists. split; [reflexivity|]. cbn [xlf].
    assert (Hf : files xlf2 = files (toString
             (withFiles (xlf extension)
                (obj_set orig (map packageItem (for_in entries)) (files (xlf extension))))).2)
      by (unfold withFiles; rewrite Et; reflexivity).
    rewrite Hf, toString_files. cbn [withFiles files]. apply obj_get_set.
  - cbn [fst snd]. rewrite lookup_insert_eq. eexists. split; [reflexivity|].
    cbn [xlf withFiles files]. apply obj_get_set.
Qed.

(** A plain value with an ampersand and a value with a comment. *)
Lemma package_contribution_items_witness :
  NoDup (map fst [("displayName", PString "A & B");
                  ("description", PValue {| vf_message := "text"; vf_comment := ["note"] |})]) /\
  exists ext : Extension,
    (importModuleOrPackageJson (fun _ => 1) "ext1/package.nls.json"
       (PackageJson [("displayName", PString "A & B");
                     ("description",
                      PValue {| vf_message := "text"; vf_comment := ["note"] |})])
       "p" None ∅).1.1 !! "ext1" = Some ext /\
    obj_get "extensions/ext1/package" (files (xlf ext)) =
      Some [{| item_id := "displayName"; item_message := "A &amp; B"; item_comment := None |};
            {| item_id := "description"; item_message := "[object Object]";
               item_comment := None |}].
Proof.
  assert (H : NoDup (map fst [("displayName", PString "A & B");
                  ("description", PValue {| vf_message := "text"; vf_comment := ["note"] |})]))
    by (apply (bool_decide_unpack _); vm_compute; exact I).
  split; [exact H|].
  exact (package_contribution_items (fun _ => 1) "ext1/package.nls.json" "p" None _ ∅ H).
Defined.

(* ===================================================================== *)
(** * 23. [importIsl] *)
(* ===================================================================== *)

Lemma js_join_split (c : ascii) (s : string) :
  js_join (String c EmptyString) (js_split c s) = s.
Proof.
  induction s as [|a s IH]; [reflexivity|].
  cbn [js_split]. destruct (Ascii.eqb_spec a c) as [->|Hne].
  - destruct (js_split_cons c s) as (hd & tl & E). rewrite E in *.
    rewrite js_join_empty_head by discriminate. rewrite IH. reflexivity.
  - destruct (js_split_cons c s) as (hd & tl & E). rewrite E in *.
    rewrite js_join_String, IH. reflexivity.
Qed.

Lemma js_split_two (c : ascii) (line key value : string) :
  js_split c line = [key; value] ->
  line = key +:+ String c value /\ freeOf c key = true /\ freeOf c value = true.
Proof.
  intros H. pose proof (js_join_split c line) as Hj. rewrite H in Hj.
  pose proof (js_split_segments c line) as Hs. rewrite H in Hs.
  apply Forall_cons in Hs as [Hk Hs]. apply Forall_cons in Hs as [Hv _].
  split; [symmetry; exact Hj | split; assumption].
Qed.

Lemma importIsl_lines_invariant (all : list string) (lines : list string) :
  forall (sect : bool) (keys messages : list string) (evs : list Event),
    (forall l, l ∈ lines -> l ∈ all) ->
    Forall2 (exported all) keys messages ->
    Forall2 (exported all) (importIsl_lines lines sect keys messages evs).1.1
                           (importIsl_lines lines sect keys messages evs).1.2.
Proof.
  induction lines as [|line rest IH]; intros sect keys messages evs Hsub Hinv; [exact Hinv|].
  assert (Hrest : forall l, l ∈ rest -> l ∈ all) by (intros l Hl; apply Hsub; set_solver).
  cbn [importIsl_lines]. destruct line as [|firstChar tail]; [apply IH; assumption|].
  destruct (Ascii.eqb firstChar ";") eqn:E1; [apply IH; assumption|].
  destruct (Ascii.eqb firstChar "[") eqn:E2; [apply IH; assumption|].
  destruct (negb sect); [apply IH; assumption|].
  destruct (js_split "=" (String firstChar tail)) as [|key [|value [|third more]]] eqn:Es;
    try (apply IH; assumption).
  destruct (truthy key && truthy value) eqn:Et; [|apply IH; assumption].
  apply IH; [assumption|]. apply Forall2_app; [exact Hinv|].
  constructor; [|constructor].
  apply andb_true_iff in Et as [Hk Hv].
  destruct (js_split_two _ _ _ _ Es) as (Hline & Hfk & Hfv).
  unfold exported. split; [|repeat (split; [assumption|])].
  - change (key +:+ "=" +:+ value) with (key +:+ String "="%char value).
    rewrite <- Hline. apply Hsub. set_solver.
  - destruct key as [|c key]; [discriminate|].
    rewrite append_String in Hline. injection Hline as <- _. auto.
Qed.

(** X16: every key that [importIsl] collects comes with a value, and the pair
    stems from a line [key=value] of the file with a non-empty key and value
    and no further [=], which starts neither a comment nor a section. *)
Theorem importIsl_exports_message_lines (lines : list string) :
  Forall2 (exported lines) (importIsl_lines lines false [] [] []).1.1
                           (importIsl_lines lines false [] [] []).1.2.
Proof. apply importIsl_lines_invariant; [auto | constructor]. Qed.

Lemma importIsl_lines_outside (lines : list string) :
  forall (keys messages : list string) (evs : list Event),
    Forall (fun l => isMessageSection l = false) lines ->
    importIsl_lines lines false keys messages evs = (keys, messages, evs).
Proof.
  induction lines as [|line rest IH]; intros keys messages evs Hall; [reflexivity|].
  apply Forall_cons in Hall as [Hl Hall]. cbn [importIsl_lines].
  destruct line as [|firstChar tail]; [apply IH, Hall|].
  destruct (Ascii.eqb firstChar ";"); [apply IH, Hall|].
  destruct (Ascii.eqb firstChar "["); [rewrite Hl; apply IH, Hall|].
  cbn [negb]. apply IH, Hall.
Qed.

(** X17: from a file without a [[Messages]] and a [[CustomMessages]] line,
    [importIsl] collects nothing and logs nothing. *)
Theorem importIsl_needs_message_section (lines : list string) :
  Forall (fun l => isMessageSection l = false) lines ->
  importIsl_lines lines false [] [] [] = ([], [], []).
Proof. apply importIsl_lines_outside. Qed.

(** A file with two other sections. *)
Lemma importIsl_needs_message_section_witness :
  Forall (fun l => isMessageSection l = false)
    ["[Setup]"; "AppName=Code"; "[LangOptions]"; "LanguageName=English"] /\
  importIsl_lines ["[Setup]"; "AppName=Code"; "[LangOptions]"; "LanguageName=English"]
    false [] [] [] = ([], [], []).
Proof.
  assert (H : Forall (fun l => isMessageSection l = false)
    ["[Setup]"; "AppName=Code"; "[LangOptions]"; "LanguageName=English"])
    by (repeat constructor).
  split; [exact H | exact (importIsl_needs_message_section _ H)].
Defined.

(** X18: [importIsl] always returns and counts the file; it emits, to the
    path [vscode-workbench/setup.xlf], exactly when the file is the second
    one counted. *)
Theorem importIsl_emits_on_second_file (contents path cwd : string) (st : IslState) :
  (importIsl contents path cwd st).2 = Normal tt /\
  islProcessed (importIsl contents path cwd st).1.1 = S (islProcessed st) /\
  (exists text,
      emitted (importIsl contents path cwd st).1.2 =
        if Nat.eqb (islProcessed st) 1
        then [{| path := "vscode-workbench/setup.xlf"; contents := text |}]
        else []).
Proof.
  unfold importIsl.
  pose proof (importIsl_lines_invariant (splitLines contents) (splitLines contents)
                false [] [] [] (fun l H => H) (Forall2_nil_2 _ _ _)) as Hexp.
  destruct (importIsl_lines (splitLines contents) false [] [] []) as [[keys messages] evs] eqn:El.
  cbn [fst snd] in Hexp.
  assert (Hlogs : emitted evs = []).
  { assert (G : forall lines sect ks ms evs0,
               emitted evs0 = [] -> emitted (importIsl_lines lines sect ks ms evs0).2 = []).
    { induction lines as [|line rest IH]; intros sect ks ms evs0 H0; [exact H0|].
      cbn [importIsl_lines]. destruct line as [|firstChar tail]; [apply IH, H0|].
      destruct (Ascii.eqb firstChar ";"); [apply IH, H0|].
      destruct (Ascii.eqb firstChar "["); [apply IH, H0|].
      destruct (negb sect); [apply IH, H0|].
      destruct (js_split "=" (String firstChar tail)) as [|key [|value [|third more]]];
        try (apply IH; rewrite emitted_app, H0; reflexivity).
      destruct (truthy key && truthy value); apply IH, H0. }
    specialize (G (splitLines contents) false [] [] [] eq_refl). rewrite El in G. exact G. }
  destruct (addFile_snd (islOriginalPath path cwd) (map KeyString keys) messages
              (match islXlf st with Some x => x | None => newXLF "vscode-workbench" end))
    as [xlf1 ->]; [rewrite length_map; apply Forall2_length in Hexp; lia|].
  unfold islFilesLength.
  destruct (islProcessed st) as [|[|n]]; cbn [Nat.eqb].
  - split; [reflexivity|]. split; [reflexivity|]. exists EmptyString. exact Hlogs.
  - destruct (toString xlf1) as [text xlf2]. cbn [fst snd islProcessed].
    split; [reflexivity|]. split; [reflexivity|]. exists text.
    rewrite emitted_app, Hlogs. reflexivity.
  - split; [reflexivity|]. split; [reflexivity|]. exists EmptyString. exact Hlogs.
Qed.

(** X19: a pair that [importIsl] collects whose key is none of the three
    locale keys stems from a line of the file, and [createIslFile] turns
    that line into [key=translation] when the messages hold a non-empty
    translation for the key. *)
Theorem exported_line_is_translated (lines : list string) (key value t language : string)
    (msgs : gmap string string) :
  In (key, value) (combine (importIsl_lines lines false [] [] []).1.1
                           (importIsl_lines lines false [] [] []).1.2) ->
  notLocaleKey key = true ->
  t <> EmptyString ->
  (key +:+ "=" +:+ value) ∈ lines /\
  islLine (<[key := t]> msgs) language (key +:+ "=" +:+ value) =
    Normal (Some (key +:+ "=" +:+ t)).
Proof.
  intros Hin Hloc Ht.
  pose proof (importIsl_lines_invariant lines lines false [] [] []
                (fun l H => H) (Forall2_nil_2 _ _ _)) as Hexp.
  assert (He : exported lines key value).
  { revert Hin. generalize Hexp.
    generalize (importIsl_lines lines false [] [] []).1.1.
    generalize (importIsl_lines lines false [] [] []).1.2.
    intros ms ks H. induction H as [|k m ks ms Hkm H IH]; cbn; [tauto|].
    intros [[= -> ->]|Hin]; [exact Hkm | apply IH, Hin]. }
  destruct He as (Hline & Hk & Hv & Hfk & Hfv & Hfirst).
  split; [exact Hline|].
  rewrite islLine_message.
  - rewrite lookup_insert_eq. destruct t; [congruence | reflexivity].
  - unfold messageKey. unfold notLocaleKey in Hloc.
    apply andb_true_iff in Hloc as [Hloc H3]. apply andb_true_iff in Hloc as [H1 H2].
    rewrite Hfk, H1, H2, H3. destruct key as [|c key]; [contradiction|].
    destruct Hfirst as [-> ->]. reflexivity.
Qed.

(** The line [SetupAppTitle=Setup] of a file with a comment, two sections
    and two lines that are not collected. *)
Lemma exported_line_is_translated_witness :
  In ("SetupAppTitle", "Setup")
     (combine (importIsl_lines (splitLines islSample) false [] [] []).1.1
              (importIsl_lines (splitLines islSample) false [] [] []).1.2) /\
  notLocaleKey "SetupAppTitle" = true /\
  "Installation" <> EmptyString /\
  ("SetupAppTitle" +:+ "=" +:+ "Setup") ∈ splitLines islSample /\
  islLine (<["SetupAppTitle" := "Installation"]> ∅) "deu" ("SetupAppTitle" +:+ "=" +:+ "Setup") =
    Normal (Some ("SetupAppTitle" +:+ "=" +:+ "Installation")).
Proof.
  assert (H1 : In ("SetupAppTitle", "Setup")
     (combine (importIsl_lines (splitLines islSample) false [] [] []).1.1
              (importIsl_lines (splitLines islSample) false [] [] []).1.2))
    by (vm_compute; auto).
  assert (H2 : notLocaleKey "SetupAppTitle" = true) by reflexivity.
  assert (H3 : "Installation" <> EmptyString) by discriminate.
  repeat (split; [assumption|]).
  exact (exported_line_is_translated _ _ _ _ "deu" ∅ H1 H2 H3).
Defined.

(* ===================================================================== *)
(** * 24. [getMetadataResources] *)
(* ===================================================================== *)

Lemma sameResource_eq (a b : Resource) : sameResource a b = true <-> a = b.
Proof.
  unfold sameResource. destruct a as [n p], b as [n' p']. cbn.
  rewrite andb_true_iff, !String.eqb_eq. split; [intros [-> ->]; reflexivity|].
  intros [= -> ->]. auto.
Qed.

Lemma existsb_sameResource (slugs : list Resource) (r : Resource) :
  existsb (fun slug => sameResource slug r) slugs = true <-> r ∈ slugs.
Proof.
  rewrite existsb_exists. split.
  - intros (s & Hin & Hs). apply sameResource_eq in Hs. subst s. apply list_elem_of_In, Hin.
  - intros Hin. exists r. split; [apply list_elem_of_In, Hin | apply sameResource_eq; reflexivity].
Qed.

Lemma getMetadataResources_loop_spec {V} (sources : list (string * V)) :
  forall slugs : list Resource,
    NoDup slugs ->
    match getMetadataResources_loop sources slugs with
    | Normal rs =>
        NoDup rs /\
        forall r, r ∈ rs <->
                  r ∈ slugs \/ exists kv, kv ∈ sources /\ getResource (fst kv) = Normal r
    | Throw e =>
        exists kv, kv ∈ sources /\ getResource (fst kv) = Throw e /\
                   knownPrefix (fst kv) = false
    end.
Proof.
  induction sources as [|[source v] rest IH]; intros slugs Hnd; cbn [getMetadataResources_loop].
  - split; [exact Hnd|]. intros r. split; [auto|].
    intros [H|(kv & Hkv & _)]; [exact H | apply elem_of_nil in Hkv; contradiction].
  - destruct (getResource source) as [res|e] eqn:Eres.
    + destruct (existsb (fun slug => sameResource slug res) slugs) eqn:Eex.
      * apply existsb_sameResource in Eex. specialize (IH slugs Hnd).
        destruct (getMetadataResources_loop rest slugs) as [rs|e].
        -- destruct IH as [Hrs Hiff]. split; [exact Hrs|]. intros r. rewrite Hiff.
           split; [intros [H|(kv & Hkv & Hr)]; [auto | right; exists kv; split; [(apply elem_of_cons; auto) | exact Hr]]|].
           intros [H|(kv & Hkv & Hr)]; [auto|].
           apply elem_of_cons in Hkv as [->|Hkv]; [|right; eauto].
           cbn [fst] in Hr. rewrite Eres in Hr. injection Hr as <-. auto.
        -- destruct IH as (kv & Hkv & Hr). exists kv. split; [(apply elem_of_cons; auto) | exact Hr].
      * assert (Hfresh : res ∉ slugs).
        { intros Hin. apply existsb_sameResource in Hin. congruence. }
        specialize (IH (slugs ++ [res])).
        destruct (getMetadataResources_loop rest (slugs ++ [res])) as [rs|e].
        -- destruct IH as [Hrs Hiff].
           { apply NoDup_app. split; [exact Hnd|]. split; [|apply NoDup_singleton].
             intros x Hx ->%list_elem_of_singleton. contradiction. }
           split; [exact Hrs|]. intros r. rewrite Hiff, elem_of_app, list_elem_of_singleton.
           split.
           ++ intros [[H| ->]|(kv & Hkv & Hr)]; [auto | | right; exists kv; split; [(apply elem_of_cons; auto) | exact Hr]].
              right. exists (source, v). split; [(apply elem_of_cons; auto) | exact Eres].
           ++ intros [H|(kv & Hkv & Hr)]; [auto|].
              apply elem_of_cons in Hkv as [->|Hkv]; [|right; eauto].
              cbn [fst] in Hr. rewrite Eres in Hr. injection Hr as <-. auto.
        -- destruct IH as (kv & Hkv & Hr).
           { apply NoDup_app. split; [exact Hnd|]. split; [|apply NoDup_singleton].
             intros x Hx ->%list_elem_of_singleton. contradiction. }
           exists kv. split; [(apply elem_of_cons; auto) | exact Hr].
    + exists (source, v). split; [(apply elem_of_cons; auto)|]. split; [exact Eres|].
      cbn [fst]. destruct (knownPrefix source) eqn:Ek; [|reflexivity].
      exfalso. revert Eres. unfold getResource.
      unfold knownPrefix, knownPrefixes in Ek. cbn [existsb] in Ek.
      repeat match goal with
             | |- context [if startsWith source ?p then _ else _] =>
                 let E := fresh "E" in destruct (startsWith source p) eqn:E
             end; try discriminate.
Qed.

(** X21: when [getMetadataResources] returns, the resources are pairwise
    different and they are exactly the resources of the sources of the
    metadata; when it raises, the error is that of a source without a known
    prefix. *)
Theorem getMetadataResources_distinct {V} (keys : list (string * V)) :
  match getMetadataResources keys with
  | Normal rs =>
      NoDup rs /\
      forall r, r ∈ rs <-> exists kv, kv ∈ keys /\ getResource (fst kv) = Normal r
  | Throw e =>
      exists kv, kv ∈ keys /\ getResource (fst kv) = Throw e /\ knownPrefix (fst kv) = false
  end.
Proof.
  unfold getMetadataResources.
  pose proof (getMetadataResources_loop_spec (for_in keys) [] (NoDup_nil_2)) as H.
  destruct (getMetadataResources_loop (for_in keys) []) as [rs|e].
  - destruct H as [Hnd Hiff]. split; [exact Hnd|]. intros r. rewrite Hiff.
    split.
    + intros [H|(kv & Hkv & Hr)]; [apply elem_of_nil in H; contradiction|].
      exists kv. split; [|exact Hr]. rewrite <- (for_in_Permutation keys). exact Hkv.
    + intros (kv & Hkv & Hr). right. exists kv. split; [|exact Hr].
      rewrite (for_in_Permutation keys). exact Hkv.
  - destruct H as (kv & Hkv & Hr). exists kv. split; [|exact Hr].
    rewrite <- (for_in_Permutation keys). exact Hkv.
Qed.

(* ===================================================================== *)
(** * 25. [prepareJsonFiles] and [createIslFile] without translations *)
(* ===================================================================== *)

(** X22: for a parsed file [build/.../Default], what [prepareJsonFiles] does
    goes by what [defaultLanguages[file.language]] finds.  When it finds
    nothing, no file is emitted.  When it finds an entry ([zh-cn], [zh-tw],
    [ko]), the file goes to [createIslFile] with a language that has a name,
    an id and a code page in the three tables, so that the banner and the
    three locale lines are rewritten from the tables.  When it finds a member
    the object inherits (the language is [constructor], say), the file goes to
    [createIslFile] all the same, with a language that is in none of the
    tables, and a [LanguageCodePage] line of the template makes it raise. *)
Theorem default_isl_by_language
    (readFileSync : string -> completion string)
    (iconvEncode : string -> option (Member string) -> completion string)
    (stringify : gmap string string -> string) (file : ParsedFile) :
  startsWith (originalFilePath file) "build/" = true ->
  basename (originalFilePath file) = "Default" ->
  match memberOf (obj_get (language file) defaultLanguages) (language file) with
  | None => translateFile readFileSync iconvEncode stringify file = Normal None
  | Some (Own _) =>
      exists language3 languageName languageId codePage,
        obj_get (language file) iso639_2_to_3 = Some language3 /\
        translateFile readFileSync iconvEncode stringify file =
          match createIslFile readFileSync iconvEncode ".." (originalFilePath file)
                  (messages file) language3 with
          | Throw e => Throw e
          | Normal f => Normal (Some f)
          end /\
        forall (msgs : gmap string string) (value : string),
          islLine msgs language3 englishBanner =
            Normal (Some ("; *** Inno Setup version 5.5.3+ " +:+ languageName +:+
                          " messages ***")) /\
          islLine msgs language3 ("LanguageName=" +:+ value) =
            Normal (Some ("LanguageName=" +:+ languageName)) /\
          islLine msgs language3 ("LanguageID=" +:+ value) =
            Normal (Some ("LanguageID=" +:+ languageId)) /\
          islLine msgs language3 ("LanguageCodePage=" +:+ value) =
            Normal (Some ("LanguageCodePage=" +:+ codePage)) /\
          obj_get language3 languageNames = Some languageName /\
          obj_get language3 languageIds = Some languageId /\
          obj_get language3 encodings = Some ("CP" +:+ codePage)
  | Some (Inherited name) =>
      name = language file /\
      translateFile readFileSync iconvEncode stringify file =
        match createIslFile readFileSync iconvEncode ".." (originalFilePath file)
                (messages file) (nativeText name) with
        | Throw e => Throw e
        | Normal f => Normal (Some f)
        end /\
      forall (msgs : gmap string string) (value : string),
        islLine msgs (nativeText name) ("LanguageCodePage=" +:+ value) =
          Throw typeErrorUndefined
  end.
Proof.
  intros Hbuild Hbase. unfold translateFile. rewrite Hbuild, Hbase.
  change (String.eqb "Default" "Default") with true. cbn [andb].
  destruct (obj_get (language file) defaultLanguages) as [b|] eqn:E.
  - cbn [memberOf]. unfold defaultLanguages in E. cbn [obj_get] in E.
    destruct (String.eqb_spec "zh-cn" (language file)) as [<-|_];
      [|destruct (String.eqb_spec "zh-tw" (language file)) as [<-|_];
        [|destruct (String.eqb_spec "ko" (language file)) as [<-|_]; [|discriminate]]];
      injection E as <-.
    + exists "chs", "Simplified Chinese", "$0804", "936".
      split; [reflexivity|]. split; [reflexivity|]. intros msgs value.
      repeat (split; [cbv [String.append]; reflexivity|]). reflexivity.
    + exists "cht", "Traditional Chinese", "$0404", "950".
      split; [reflexivity|]. split; [reflexivity|]. intros msgs value.
      repeat (split; [cbv [String.append]; reflexivity|]). reflexivity.
    + exists "kor", "Korean", "$0412", "949".
      split; [reflexivity|]. split; [reflexivity|]. intros msgs value.
      repeat (split; [cbv [String.append]; reflexivity|]). reflexivity.
  - assert (Hm : memberOf (@None bool) (language file) =
                 if inherited (language file) then Some (Inherited (language file))
                 else None) by reflexivity.
    rewrite Hm. destruct (inherited (language file)) eqn:Einh; [|reflexivity].
    split; [reflexivity|]. cbn [memberTruthy negb].
    unfold inherited, objectPrototype in Einh. cbn [existsb] in Einh.
    repeat (apply orb_prop in Einh as [Einh|Einh]); [..|discriminate];
      apply String.eqb_eq in Einh; rewrite Einh;
      (split; [reflexivity | intros msgs value; cbv [String.append]; reflexivity]).
Qed.

(** The Korean [Default] file. *)
Lemma default_isl_by_language_witness :
  startsWith (originalFilePath defaultKorean) "build/" = true /\
  basename (originalFilePath defaultKorean) = "Default" /\
  translateFile readTemplate keepText (fun _ => EmptyString) defaultKorean =
    match createIslFile readTemplate keepText ".." "build/win32/i18n/Default" ∅ "kor" with
    | Throw e => Throw e
    | Normal f => Normal (Some f)
    end.
Proof.
  assert (H1 : startsWith (originalFilePath defaultKorean) "build/" = true) by reflexivity.
  assert (H2 : basename (originalFilePath defaultKorean) = "Default") by reflexivity.
  split; [exact H1|]. split; [exact H2|].
  destruct (default_isl_by_language readTemplate keepText
              (fun _ => EmptyString) defaultKorean H1 H2)
    as (l3 & n & i & cp & Hl3 & Hrun & _).
  injection Hl3 as <-. exact Hrun.
Defined.

Lemma islLine_untranslated (language line : string) :
  localeLine line = false ->
  inherited (lineKey line) = false ->
  islLine ∅ language line = Normal (if truthy line then Some line else None).
Proof.
  unfold localeLine, lineKey, islLine. intros H Hinh.
  apply orb_false_elim in H as [Hb Hk].
  destruct line as [|c rest]; [reflexivity|]. cbn [truthy].
  destruct (Ascii.eqb c "[" || Ascii.eqb c ";"); [rewrite Hb; reflexivity|].
  destruct (js_split "=" (String c rest)) as [|key more]; [reflexivity|].
  apply orb_false_elim in Hk as [Hk H3]. apply orb_false_elim in Hk as [H1 H2].
  rewrite H1, H2, H3. rewrite lookup_empty. unfold memberOf. rewrite Hinh.
  destruct (truthy key); reflexivity.
Qed.

Lemma islLines_untranslated (language : string) (lines : list string) :
  forall content : list string,
    Forall (fun l => localeLine l = false /\ inherited (lineKey l) = false) lines ->
    islLines ∅ language lines content = Normal (content ++ List.filter truthy lines).
Proof.
  induction lines as [|line rest IH]; intros content Hall; cbn [islLines List.filter].
  - rewrite app_nil_r. reflexivity.
  - apply Forall_cons in Hall as [[Hl Hinh] Hall].
    rewrite (islLine_untranslated language line Hl Hinh).
    destruct (truthy line); rewrite IH by exact Hall; [rewrite <- app_assoc|]; reflexivity.
Qed.

(** X23: without translations, and for a template without the banner and the
    three locale lines in which no line has the name of an inherited member
    for its key, [createIslFile] writes the non-empty lines of the template,
    joined by [CRLF], in the encoding of the language, to the path that
    [path.join] makes of the base, the directory and the name, followed by
    the tag of the language and [.isl]; it raises only when the encoder
    does. *)
Theorem createIslFile_untranslated (readFileSync : string -> completion string)
    (iconvEncode : string -> option (Member string) -> completion string)
    (base originalFilePath language text : string) :
  readFileSync (islTemplatePath originalFilePath) = Normal text ->
  Forall (fun l => localeLine l = false /\ inherited (lineKey l) = false)
    (splitLines text) ->
  createIslFile readFileSync iconvEncode base originalFilePath ∅ language =
  match iconvEncode (js_join CRLF (List.filter truthy (splitLines text)))
          (memberOf (obj_get language encodings) language) with
  | Throw e => Throw e
  | Normal bytes =>
      Normal {| path := pathJoin [base; dirname originalFilePath;
                                  basename originalFilePath] +:+ "." +:+
                        interpolate (memberOf (obj_get language iso639_3_to_2) language) +:+
                        ".isl";
                contents := bytes |}
  end.
Proof.
  intros Hread Hall.
  apply (createIslFile_lines _ _ _ _ _ _ _ _ Hread).
  apply (islLines_untranslated language (splitLines text) [] Hall).
Qed.

(** A template with an empty line and both kinds of line break, written
    below a base that [path.join] has to resolve. *)
Lemma createIslFile_untranslated_witness :
  readPlain (islTemplatePath "build/win32/i18n/messages") = Normal plainTemplate /\
  Forall (fun l => localeLine l = false /\ inherited (lineKey l) = false)
    (splitLines plainTemplate) /\
  createIslFile readPlain keepText "out/.." "build/win32/i18n/messages" ∅ "deu" =
    Normal {| path := "build/win32/i18n/messages.de.isl";
              contents := js_join CRLF ["[CustomMessages]"; "AddContextMenuFiles=Add action";
                                        "; end"] |}.
Proof.
  assert (H1 : readPlain (islTemplatePath "build/win32/i18n/messages") = Normal plainTemplate)
    by reflexivity.
  assert (H2 : Forall (fun l => localeLine l = false /\ inherited (lineKey l) = false)
                 (splitLines plainTemplate))
    by (repeat constructor).
  split; [exact H1|]. split; [exact H2|].
  exact (createIslFile_untranslated readPlain keepText "out/.." "build/win32/i18n/messages"
           "deu" plainTemplate H1 H2).
Defined.

(* ===================================================================== *)
(** * 26. What [XLF.parse] delivers *)
(* ===================================================================== *)

Lemma replaceAll_truthy (pat rep s : string) :
  truthy rep = true -> truthy s = true -> truthy (replaceAll pat rep s) = true.
Proof.
  intros Hrep Hs. destruct s as [|c s]; [discriminate|].
  unfold replaceAll. cbn [replaceAll_from].
  destruct (startsWith (String c s) pat); [|reflexivity].
  destruct rep; [discriminate | reflexivity].
Qed.

Lemma decodeEntities_truthy (s : string) :
  truthy s = true -> truthy (decodeEntities s) = true.
Proof.
  intros H. unfold decodeEntities.
  repeat (apply replaceAll_truthy; [reflexivity|]). exact H.
Qed.

Lemma lowerChar_idempotent (c : ascii) : lowerChar (lowerChar c) = lowerChar c.
Proof. destruct c as [[] [] [] [] [] [] [] []]; reflexivity. Qed.

Lemma toLowerCase_idempotent (s : string) : toLowerCase (toLowerCase s) = toLowerCase s.
Proof.
  induction s as [|c s IH]; [reflexivity|].
  cbn [toLowerCase]. rewrite lowerChar_idempotent, IH. reflexivity.
Qed.

Lemma parseUnit_nothingEmpty (msgs msgs' : gmap string string) (unit : TransUnitNode) :
  nothingEmpty msgs -> parseUnit msgs unit = inr msgs' -> nothingEmpty msgs'.
Proof.
  unfold parseUnit. intros Hm.
  destruct (unit_attrs unit) as [attrs|]; [|discriminate].
  destruct (unit_target unit) as [target|]; [|intros [= <-]; exact Hm].
  destruct (attrs !! "id") as [key|]; [|discriminate].
  destruct (truthy key && truthy (targetToString target)) eqn:E; [|discriminate].
  apply andb_true_iff in E as [Hk Hv]. intros [= <-]. unfold plain_set.
  destruct (String.eqb key "__proto__"); [exact Hm|]. intros k v.
  destruct (decide (key = k)) as [->|Hne].
  - rewrite lookup_insert_eq. intros [= <-]. split; [exact Hk|].
    apply decodeEntities_truthy, Hv.
  - rewrite lookup_insert_ne by exact Hne. apply Hm.
Qed.

Lemma parseUnits_nothingEmpty (units : list TransUnitNode) :
  forall msgs msgs' : gmap string string,
    nothingEmpty msgs -> parseUnits msgs units = inr msgs' -> nothingEmpty msgs'.
Proof.
  induction units as [|unit rest IH]; intros msgs msgs' Hm; cbn [parseUnits].
  - intros [= <-]. exact Hm.
  - destruct (parseUnit msgs unit) as [stop|msgs1] eqn:E; [discriminate|].
    apply IH. eapply parseUnit_nothingEmpty; eassumption.
Qed.

Lemma parseFile_complete (file : FileNode) (pf : ParsedFile) :
  parseFile file = inr pf -> parsedFileComplete pf.
Proof.
  unfold parseFile.
  destruct (file_attrs file) as [attrs|]; [|discriminate].
  destruct (attrs !! "original") as [[|c original]|]; [discriminate| |discriminate].
  destruct (attrs !! "target-language") as [lang|]; [|discriminate].
  destruct (truthy (toLowerCase lang)) eqn:El; [|discriminate].
  destruct (file_body file) as [[|[[units|]] bodies]|]; try discriminate.
  destruct (parseUnits ∅ units) as [stop|msgs] eqn:Eu; [discriminate|].
  intros [= <-]. unfold parsedFileComplete. cbn.
  split; [|split; [reflexivity | split; [exact El | apply toLowerCase_idempotent]]].
  eapply parseUnits_nothingEmpty; [|exact Eu].
  intros k v H. rewrite lookup_empty in H. discriminate.
Qed.

Lemma parseFiles_complete (fileNodes : list FileNode) :
  forall parsed, parseFiles fileNodes = inr parsed -> Forall parsedFileComplete parsed.
Proof.
  induction fileNodes as [|file rest IH]; intros parsed; cbn [parseFiles].
  - intros [= <-]. constructor.
  - destruct (parseFile file) as [stop|pf] eqn:Ef; [discriminate|].
    destruct (parseFiles rest) as [stop|fs]; [discriminate|].
    intros [= <-]. constructor; [eapply parseFile_complete, Ef | apply IH; reflexivity].
Qed.

(** X24: in every file [XLF.parse] resolves with, no key and no message is
    empty, the path and the language are not empty and the language is in
    lower case; so [createIslFile] replaces every line whose key is in the
    parsed messages. *)
Theorem parse_delivers_nothing_empty (err : option string) (result : option XmlResult)
    (parsed : list ParsedFile) :
  parseCallback err result = Resolved parsed ->
  Forall parsedFileComplete parsed /\
  forall pf key t language value,
    pf ∈ parsed -> messages pf !! key = Some t -> messageKey key = true ->
    islLine (messages pf) language (key +:+ "=" +:+ value) =
      Normal (Some (key +:+ "=" +:+ t)).
Proof.
  unfold parseCallback. intros H.
  destruct err as [e|]; [discriminate|].
  destruct result as [[[[[fileNodes|]]|]]|]; try discriminate.
  cbn in H. destruct (parseFiles fileNodes) as [[reason|e]|fs] eqn:E; try discriminate.
  injection H as <-. pose proof (parseFiles_complete fileNodes fs E) as Hall.
  split; [exact Hall|].
  intros pf key t language value Hin Hk Hkey.
  eapply Forall_forall in Hall; [|exact Hin].
  destruct Hall as [Hne _]. destruct (Hne key t Hk) as [_ Ht].
  apply islLine_translated; [exact Hkey | exact Hk | intros ->; discriminate].
Qed.

(** The parsed German translation of the document with the message [<a>&b]. *)
Lemma parse_delivers_nothing_empty_witness :
  parseCallback None (translatedImage "DE" roundTripDocument) =
    Resolved [{| messages := {[ "k" := "<a>&b" ]}; originalFilePath := "src/a";
                 language := "de" |}] /\
  Forall parsedFileComplete
    [{| messages := {[ "k" := "<a>&b" ]}; originalFilePath := "src/a"; language := "de" |}].
Proof.
  assert (H : parseCallback None (translatedImage "DE" roundTripDocument) =
    Resolved [{| messages := {[ "k" := "<a>&b" ]}; originalFilePath := "src/a";
                 language := "de" |}]) by reflexivity.
  split; [exact H | exact (proj1 (parse_delivers_nothing_empty _ _ _ H))].
Defined.

Lemma parseUnits_app (units units' : list TransUnitNode) :
  forall msgs msgs1 : gmap string string,
    parseUnits msgs units = inr msgs1 ->
    parseUnits msgs (units ++ units') = parseUnits msgs1 units'.
Proof.
  induction units as [|unit rest IH]; intros msgs msgs1; cbn [parseUnits app].
  - intros [= <-]. reflexivity.
  - destruct (parseUnit msgs unit) as [stop|msgs2]; [discriminate|]. apply IH.
Qed.

(** X25: a trans-unit with a target that follows accepted trans-units is
    accepted as well; its decoded target becomes the message of its id,
    replacing an earlier one, and the other messages stay, unless the id is
    [__proto__], which the assignment does not store: then all messages
    stay. *)
Theorem parseUnits_later_target_wins (units : list TransUnitNode)
    (msgs msgs1 : gmap string string) (attrs : gmap string string)
    (target : list XmlChild) (key : string) :
  parseUnits msgs units = inr msgs1 ->
  attrs !! "id" = Some key ->
  truthy key = true ->
  truthy (targetToString target) = true ->
  exists msgs2,
    parseUnits msgs (units ++ [{| unit_attrs := Some attrs; unit_target := Some target |}]) =
      inr msgs2 /\
    (key <> "__proto__" ->
       msgs2 !! key = Some (decodeEntities (targetToString target)) /\
       forall k, k <> key -> msgs2 !! k = msgs1 !! k) /\
    (key = "__proto__" -> msgs2 = msgs1).
Proof.
  intros Hrun Hid Hk Hv.
  exists (plain_set key (decodeEntities (targetToString target)) msgs1).
  rewrite (parseUnits_app units _ msgs msgs1 Hrun).
  cbn [parseUnits]. unfold parseUnit. cbn [unit_attrs unit_target].
  rewrite Hid, Hk, Hv. cbn [andb].
  split; [reflexivity|]. unfold plain_set.
  destruct (String.eqb_spec key "__proto__") as [->|Hne].
  - split; [congruence | reflexivity].
  - split; [|congruence]. intros _. split; [apply lookup_insert_eq|].
    intros k Hk'. apply lookup_insert_ne. congruence.
Qed.

(** Two trans-units with the id [k]. *)
Lemma parseUnits_later_target_wins_witness :
  parseUnits ∅ [{| unit_attrs := Some {[ "id" := "k" ]};
                   unit_target := Some [TextChild "first"] |}] =
    inr {[ "k" := "first" ]} /\
  ({[ "id" := "k" ]} : gmap string string) !! "id" = Some "k" /\
  truthy "k" = true /\
  truthy (targetToString [TextChild "second"]) = true /\
  exists msgs2,
    parseUnits ∅ ([{| unit_attrs := Some {[ "id" := "k" ]};
                      unit_target := Some [TextChild "first"] |}] ++
                  [{| unit_attrs := Some {[ "id" := "k" ]};
                      unit_target := Some [TextChild "second"] |}]) = inr msgs2 /\
    msgs2 !! "k" = Some "second".
Proof.
  assert (H1 : parseUnits ∅ [{| unit_attrs := Some {[ "id" := "k" ]};
                   unit_target := Some [TextChild "first"] |}] =
    inr {[ "k" := "first" ]}) by reflexivity.
  assert (H2 : ({[ "id" := "k" ]} : gmap string string) !! "id" = Some "k") by reflexivity.
  split; [exact H1|]. split; [exact H2|]. split; [reflexivity|]. split; [reflexivity|].
  destruct (parseUnits_later_target_wins _ ∅ _ _ [TextChild "second"] "k" H1 H2
              eq_refl eq_refl) as (msgs2 & Hrun & Hkey & _).
  exists msgs2. split; [exact Hrun|]. apply Hkey. discriminate.
Defined.

(* ===================================================================== *)
(** * 27. The emitted document of an extension *)
(* ===================================================================== *)






(* ===================================================================== *)
(** * 28. The bundle import: one file for each resource *)
(* ===================================================================== *)

Lemma getResource_known (source : string) :
  knownPrefix source = true -> exists r, getResource source = Normal r.
Proof.
  intros Hk. destruct (getResource source) as [r|e] eqn:E; [eauto|].
  exfalso. revert E. unfold getResource.
  unfold knownPrefix, knownPrefixes in Hk. cbn [existsb] in Hk.
  repeat match goal with
         | |- context [if startsWith source ?p then _ else _] =>
             let E := fresh "E" in destruct (startsWith source p) eqn:E
         end; discriminate.
Qed.

Lemma obj_set_keys_elem {V} (k k' : string) (v : V) (o : list (string * V)) :
  k' ∈ map fst (obj_set k v o) <-> k' = k \/ k' ∈ map fst o.
Proof.
  destruct (obj_get k o) as [w|] eqn:E.
  - rewrite obj_set_present by (rewrite E; eauto). split; [auto|].
    intros [->|H]; [|exact H].
    clear v. induction o as [|[a x] o IH]; cbn in *; [discriminate|].
    destruct (String.eqb_spec a k) as [->|Hne]; apply elem_of_cons; auto.
  - rewrite (obj_set_absent k v o E), map_app, elem_of_app. cbn.
    rewrite list_elem_of_singleton. tauto.
Qed.

Lemma importBundleJson_sources_table (relative : string) (json : BundledFormat)
    (sources : list (string * list Key)) :
  forall (bundleXlfs : list (string * XLF)) (evs : list Event),
    Forall (importable json) sources ->
    NoDup (map fst bundleXlfs) ->
    (importBundleJson_sources relative json sources bundleXlfs evs).2 = Normal tt /\
    NoDup (map fst (importBundleJson_sources relative json sources bundleXlfs evs).1.1) /\
    forall n,
      n ∈ map fst (importBundleJson_sources relative json sources bundleXlfs evs).1.1 <->
      n ∈ map fst bundleXlfs \/ n ∈ map resourceNameOf (map fst sources).
Proof.
  induction sources as [|[source keys] rest IH]; intros bundleXlfs evs Hall Hnd.
  - cbn. split; [reflexivity|]. split; [exact Hnd|]. intros n. split; [auto|].
    intros [H|H]; [exact H | apply elem_of_nil in H; contradiction].
  - apply Forall_cons in Hall as [(Hk & ms & Hms & Hlen) Hall]. cbn [fst snd] in *.
    destruct (getResource_known source Hk) as [r Hr].
    cbn [importBundleJson_sources]. rewrite Hr, Hms.
    destruct (addFile_snd source keys ms
                (match obj_get (name r) bundleXlfs with
                 | Some x => x | None => newXLF (res_project r) end) Hlen) as [xlf1 ->].
    match goal with
    | |- context [importBundleJson_sources _ _ rest ?t ?e] =>
        destruct (IH t e Hall (obj_set_NoDup _ _ _ Hnd)) as (H1 & H2 & H3)
    end.
    split; [exact H1|]. split; [exact H2|].
    intros n. rewrite H3, obj_set_keys_elem. cbn [map].
    assert (Hn : resourceNameOf source = name r)
      by (unfold resourceNameOf; rewrite Hr; reflexivity).
    cbn [fst]. rewrite elem_of_cons, Hn. tauto.
Qed.

(** X11: when every source of a bundle has a resource and a message for each
    of its keys, [importBundleJson] returns and emits as many files as the
    sources have different resource names. *)
Theorem importBundleJson_one_file_per_resource (relative : string) (json : BundledFormat) :
  Forall (importable json) (bf_keys json) ->
  (importBundleJson relative json).2 = Normal tt /\
  length (emitted (importBundleJson relative json).1) =
    length (remove_dups (map resourceNameOf (map fst (bf_keys json)))).
Proof.
  intros Hall. unfold importBundleJson.
  assert (Hall' : Forall (importable json) (for_in (bf_keys json)))
    by (rewrite (for_in_Permutation (bf_keys json)); exact Hall).
  destruct (importBundleJson_sources_table relative json (for_in (bf_keys json)) [] []
              Hall' (NoDup_nil_2)) as (Hret & Hnd & Hiff).
  pose proof (importBundleJson_sources_emits_nothing relative json
                (for_in (bf_keys json)) [] []) as Hev.
  destruct (importBundleJson_sources relative json (for_in (bf_keys json)) [] [])
    as [[bundleXlfs evs] c]. cbn [fst snd] in *. subst c. cbn [fst snd].
  split; [reflexivity|].
  change (emitted []) with (@nil File) in Hev.
  assert (Hmap : forall l : list (string * XLF),
             emitted (map (fun entry => Emit (bundleXlfFile entry)) l) = map bundleXlfFile l).
  { induction l as [|x l IHl]; [reflexivity|]. cbn. f_equal. exact IHl. }
  rewrite emitted_app, Hev, Hmap. cbn [app].
  rewrite length_map, for_in_length, <- (length_map fst bundleXlfs).
  apply Permutation_length, NoDup_Permutation; [exact Hnd | apply NoDup_remove_dups|].
  intros n. rewrite Hiff, elem_of_remove_dups.
  assert (P : map resourceNameOf (map fst (for_in (bf_keys json))) ≡ₚ
              map resourceNameOf (map fst (bf_keys json)))
    by (do 2 apply Permutation_map; apply for_in_Permutation).
  rewrite P. split; [intros [H|H]; [apply elem_of_nil in H; contradiction | exact H] | auto].
Qed.

(** Three sources, two of them of the resource [vs/editor]. *)
Lemma importBundleJson_one_file_per_resource_witness :
  Forall (importable editorBundle) (bf_keys editorBundle) /\
  (importBundleJson "out/nls.metadata.json" editorBundle).2 = Normal tt /\
  length (emitted (importBundleJson "out/nls.metadata.json" editorBundle).1) =
    length (remove_dups (map resourceNameOf (map fst (bf_keys editorBundle)))).
Proof.
  assert (H : Forall (importable editorBundle) (bf_keys editorBundle)).
  { repeat constructor; cbn; eexists; split; try reflexivity; cbn; lia. }
  split; [exact H | exact (importBundleJson_one_file_per_resource _ _ H)].
Defined.

(* ===================================================================== *)
(** * 29. [TextModel] and the path of an ISL file *)
(* ===================================================================== *)

Lemma splitLines_cons (s : string) : exists hd tl, splitLines s = hd :: tl.
Proof.
  destruct s as [|c s]; cbn; [eauto|].
  destruct (Ascii.eqb c CR); [destruct s as [|d s]; [eauto|]; destruct (Ascii.eqb d LF); eauto|].
  destruct (Ascii.eqb c LF); [eauto|]. destruct (splitLines s); eauto.
Qed.

Lemma splitLines_unbroken_aux (n : nat) :
  forall s, String.length s <= n -> Forall (fun l => unbroken l = true) (splitLines s).
Proof.
  induction n as [|n IH]; intros s Hlen.
  - destruct s; [repeat constructor | cbn in Hlen; lia].
  - destruct s as [|c s]; [repeat constructor|]. cbn [String.length] in Hlen.
    cbn [splitLines]. destruct (Ascii.eqb c CR) eqn:Ecr.
    + destruct s as [|d s]; [repeat constructor|].
      destruct (Ascii.eqb d LF).
      * constructor; [reflexivity|]. apply IH. cbn [String.length] in Hlen. lia.
      * constructor; [reflexivity|]. apply IH. lia.
    + destruct (Ascii.eqb c LF) eqn:Elf.
      * constructor; [reflexivity|]. apply IH. lia.
      * specialize (IH s ltac:(lia)).
        destruct (splitLines s) as [|hd tl]; [repeat constructor|].
        -- unfold unbroken. cbn [freeOf]. rewrite Ecr, Elf. reflexivity.
        -- apply Forall_cons in IH as [Hhd Htl]. constructor; [|exact Htl].
           unfold unbroken in *. cbn [freeOf]. rewrite Ecr, Elf. exact Hhd.
Qed.

Lemma splitLines_js_split (s : string) :
  freeOf CR s = true -> splitLines s = js_split LF s.
Proof.
  induction s as [|c s IH]; [reflexivity|].
  cbn [freeOf]. intros [Hc Hs]%andb_true_iff. apply negb_true_iff in Hc.
  cbn [splitLines js_split]. rewrite Hc, (IH Hs). reflexivity.
Qed.

(** X26: the lines of a [TextModel] hold no line break, there is at least one
    line, and for a text without carriage return joining the lines by line
    feeds gives the text back. *)
Theorem splitLines_lines (s : string) :
  Forall (fun l => unbroken l = true) (splitLines s) /\
  splitLines s <> [] /\
  (freeOf CR s = true -> js_join (String LF EmptyString) (splitLines s) = s).
Proof.
  split; [apply (splitLines_unbroken_aux (String.length s)); lia|].
  split; [destruct (splitLines_cons s) as (hd & tl & ->); discriminate|].
  intros H. rewrite (splitLines_js_split s H). apply js_join_split.
Qed.

Lemma substr_from_append (a b : string) : substr_from (String.length a) (a +:+ b) = b.
Proof.
  induction a as [|c a IH]; [destruct b; reflexivity|].
  rewrite append_String. cbn. exact IH.
Qed.

Lemma substr_to_length (a : string) : substr_to (String.length a) a = a.
Proof. induction a as [|c a IH]; [reflexivity|]. cbn. rewrite IH. reflexivity. Qed.

Lemma substr_to_append (a b : string) : substr_to (String.length a) (a +:+ b) = a.
Proof.
  induction a as [|c a IH]; [destruct b; reflexivity|].
  rewrite append_String. cbn. rewrite IH. reflexivity.
Qed.

Lemma replaceChar_free (c d : ascii) (s : string) :
  freeOf c s = true -> replaceChar c d s = s.
Proof.
  induction s as [|x s IH]; [reflexivity|].
  cbn [freeOf]. intros [Hx Hs]%andb_true_iff. apply negb_true_iff in Hx.
  cbn [replaceChar]. rewrite Hx, (IH Hs). reflexivity.
Qed.

(** X20: for a file at [cwd/rel.extension], where neither [cwd] nor [rel]
    holds a dot and [rel] holds no backslash, the path [importIsl] gives to
    [addFile] is [rel]. *)
Theorem islOriginalPath_relative (cwd rel extension : string) (sep : ascii) :
  freeOf "." cwd = true ->
  sep <> "."%char ->
  freeOf "." rel = true ->
  freeOf "\" rel = true ->
  islOriginalPath (cwd +:+ String sep (rel +:+ String "." extension)) cwd = rel.
Proof.
  intros Hcwd Hsep Hrel Hback. unfold islOriginalPath, substring.
  assert (Hhead : freeOf "." (cwd +:+ String sep rel) = true).
  { rewrite freeOf_append, Hcwd. cbn [freeOf andb]. rewrite Hrel.
    destruct (Ascii.eqb_spec sep "."); [contradiction | reflexivity]. }
  assert (Hpath : cwd +:+ String sep (rel +:+ String "." extension) =
                  (cwd +:+ String sep rel) +:+ String "." extension).
  { rewrite append_assoc, append_String. reflexivity. }
  assert (Hlen : String.length
                   match js_split "." (cwd +:+ String sep (rel +:+ String "." extension)) with
                   | [] => EmptyString
                   | p :: _ => p
                   end = String.length cwd + S (String.length rel)).
  { rewrite Hpath, (js_split_key "." _ extension Hhead), length_append. reflexivity. }
  rewrite Hlen.
  replace (Nat.min (String.length cwd + 1) (String.length cwd + S (String.length rel)))
    with (String.length (cwd +:+ String sep EmptyString))
    by (rewrite length_append; cbn [String.length]; lia).
  replace (Nat.max (String.length cwd + 1) (String.length cwd + S (String.length rel)) -
           String.length (cwd +:+ String sep EmptyString))
    with (String.length rel)
    by (rewrite length_append; cbn [String.length]; lia).
  assert (Hsplit : cwd +:+ String sep (rel +:+ String "." extension) =
                   (cwd +:+ String sep EmptyString) +:+ (rel +:+ String "." extension)).
  { rewrite append_assoc, append_String, append_empty_l. reflexivity. }
  rewrite Hsplit, substr_from_append, substr_to_append.
  apply replaceChar_free, Hback.
Qed.

(** The English messages file below [/repo]. *)
Lemma islOriginalPath_relative_witness :
  freeOf "." "/repo" = true /\
  "/"%char <> "."%char /\
  freeOf "." "build/win32/i18n/messages" = true /\
  freeOf "\" "build/win32/i18n/messages" = true /\
  islOriginalPath ("/repo" +:+ String "/" ("build/win32/i18n/messages" +:+ String "." "en.isl"))
    "/repo" = "build/win32/i18n/messages".
Proof.
  assert (H2 : "/"%char <> "."%char) by discriminate.
  split; [reflexivity|]. split; [exact H2|]. split; [reflexivity|]. split; [reflexivity|].
  exact (islOriginalPath_relative "/repo" "build/win32/i18n/messages" "en.isl" "/"
           eq_refl H2 eq_refl eq_refl).
Defined.
